(** * LoadJS 2.1.2: bundle registry and file-load coordinator

    A shallow embedding of [ajax/libs/loadjs/2.1.2/loadjs.umd.js].

    The module keeps three process-wide objects ([bundleIdCache],
    [bundleResultCache], [bundleCallbackQueue]) and creates closures that
    share mutable variables ([numWaiting], [depsNotFound], [pathsNotFound]).
    The embedding threads one [state] through every function.  Closure
    environments and the string arrays that are shared between a closure
    and the result cache live in explicit stores and are addressed by
    index, so that aliasing is preserved.

    Modelling conventions:
    - the three registries are created by [{}], so each is a [gmap] of its
      own properties on top of [Object.prototype]: [k in obj] and [obj[k]]
      also see the inherited members, and assigning to [__proto__]
      replaces the prototype of the object instead of adding a property
      (only [bundleResultCache] is ever assigned an object under that
      name).  The members of [Object.prototype] and [Array.prototype] are
      those of ECMAScript 2023 with the legacy members of browsers;
    - a call that ends by throwing is a [completion] that carries the state
      at the point of the throw;
    - functions supplied by the caller ([args.success], [args.fail]) are
      opaque: calling one appends an event to [log], and the function is
      assumed not to call back into the library while it runs;
    - the browser is the environment: it delivers [load], [error] and
      [beforeload] events to the elements appended to [document.head]. *)

From stdpp Require Import gmap strings list.
From Stdlib Require Import ZArith.

Local Open Scope Z_scope.

(** ** Values *)

(** A parameter that is either one string or an array of strings
    ([paths], [deps]); [x.push ? x : [x]] turns it into an array. *)
Inductive str_or_list :=
  | One (s : string)
  | Many (l : list string).

Definition listify (x : str_or_list) : list string :=
  match x with
  | One s => [s]
  | Many l => l
  end.

(** The [args] object: optional [success] and [fail] functions (named by a
    label) and the optional [async] flag. *)
Record options := Options {
  success : option string;
  fail : option string;
  async : option bool
}.

Definition no_options : options := Options None None None.

(** Second parameter of [loadjs]: absent, a string or an object. *)
Inductive jsval :=
  | Undefined
  | Str (s : string)
  | Obj (o : options).

(** Elements created by [loadFile].  The last field is the [callbackFn]
    captured by the element's event handler (an index into [loaders]). *)
Inductive element :=
  | Link (rel href : string) (callbackFn : nat)
  | Script (src : string) (async_attr : bool) (callbackFn : nat).

Definition el_isCss (e : element) : bool :=
  match e with Link _ _ _ => true | Script _ _ _ => false end.

Definition el_path (e : element) : string :=
  match e with Link _ href _ => href | Script src _ _ => src end.

Definition el_callbackFn (e : element) : nat :=
  match e with Link _ _ fn => fn | Script _ _ fn => fn end.

(** Events the browser delivers to an element.  The handler is installed
    as [onload], [onerror] and [onbeforeload] only.  [hideFocus] says
    whether ['hideFocus' in e] holds, [cssText] is [e.sheet.cssText], with
    [None] when reading it throws. *)
Inductive event_type := Load | Error | Beforeload.

Definition type_name (t : event_type) : string :=
  match t with
  | Load => "load"
  | Error => "error"
  | Beforeload => "beforeload"
  end.

Record dom_event := DomEvent {
  ev_type : event_type;
  defaultPrevented : bool;
  hideFocus : bool;
  cssText : option string
}.

(** Calls of function values, in the order they happen. *)
Inductive event :=
  | CallbackFn (w : nat) (depsNotFound : list string)
  | LoadCallback (l : nat) (pathsNotFound : list string)
  | Success (f : string)
  | Fail (f : string) (xs : list string).

(** ** Prototypes of the host *)

(** What the library can observe of an inherited member: a method, with
    the value of its [length] property, or the accessor [__proto__]. *)
Inductive member :=
  | Method (arity : nat)
  | ProtoAccessor.

Definition object_prototype : list (string * member) :=
  [("constructor", Method 1%nat); ("hasOwnProperty", Method 1%nat);
   ("isPrototypeOf", Method 1%nat); ("propertyIsEnumerable", Method 1%nat);
   ("toLocaleString", Method 0%nat); ("toString", Method 0%nat);
   ("valueOf", Method 0%nat);
   ("__defineGetter__", Method 2%nat); ("__defineSetter__", Method 2%nat);
   ("__lookupGetter__", Method 1%nat); ("__lookupSetter__", Method 1%nat);
   ("__proto__", ProtoAccessor)].

(** Methods of [Array.prototype] with their [length]. *)
Definition array_prototype : list (string * nat) :=
  [("at", 1); ("concat", 1); ("constructor", 1); ("copyWithin", 2);
   ("entries", 0); ("every", 1); ("fill", 1); ("filter", 1); ("find", 1);
   ("findIndex", 1); ("findLast", 1); ("findLastIndex", 1); ("flat", 0);
   ("flatMap", 1); ("forEach", 1); ("includes", 1); ("indexOf", 1);
   ("join", 1); ("keys", 0); ("lastIndexOf", 1); ("map", 1); ("pop", 0);
   ("push", 1); ("reduce", 1); ("reduceRight", 1); ("reverse", 0);
   ("shift", 0); ("slice", 2); ("some", 1); ("sort", 1); ("splice", 2);
   ("toLocaleString", 0); ("toReversed", 0); ("toSorted", 1);
   ("toSpliced", 2); ("toString", 0); ("unshift", 1); ("values", 0);
   ("with", 2)]%nat.

Fixpoint assoc {A} (k : string) (l : list (string * A)) : option A :=
  match l with
  | [] => None
  | (k', v) :: l' => if String.eqb k' k then Some v else assoc k l'
  end.

(** Values that reading a property of [bundleResultCache] can yield: an
    array of paths (a reference into [arrays]), an inherited method,
    [Object.prototype] itself, and the [length] and the elements of an
    array that has become the prototype. *)
Inductive value :=
  | VUndefined
  | VArray (r : nat)
  | VFunction (arity : nat)
  | VObject
  | VNumber (n : nat)
  | VString (x : string).

(** Values that reading a property of [bundleCallbackQueue] can yield. *)
Inductive queue_value :=
  | QUndefined
  | QArray (q : list nat)
  | QFunction (arity : nat)
  | QObject.

(** ToBoolean *)
Definition truthy (v : value) : bool :=
  match v with
  | VUndefined => false
  | VNumber n => negb (Nat.eqb n 0)
  | VString x => negb (String.eqb x "")
  | VArray _ | VFunction _ | VObject => true
  end.

(** Array indices are the canonical decimal numerals. *)
Definition is_digit (c : Ascii.ascii) : bool :=
  (48 <=? Ascii.nat_of_ascii c)%nat && (Ascii.nat_of_ascii c <=? 57)%nat.

Fixpoint digits_value (k : string) (acc : N) : option N :=
  match k with
  | EmptyString => Some acc
  | String c k' =>
    if is_digit c
    then digits_value k' (10 * acc + N.of_nat (Ascii.nat_of_ascii c - 48))%N
    else None
  end.

Definition array_index (k : string) : option N :=
  match k with
  | EmptyString => None
  | String c EmptyString => digits_value k 0
  | String c _ => if Nat.eqb (Ascii.nat_of_ascii c) 48 then None else digits_value k 0
  end.

(** Own properties of an array with the elements [xs]. *)
Definition array_own (xs : list string) (k : string) : option value :=
  if String.eqb k "length" then Some (VNumber (length xs))
  else
    match array_index k with
    | Some i =>
      if (i <? N.of_nat (length xs))%N then VString <$> xs !! N.to_nat i else None
    | None => None
    end.

(** A property found on [Object.prototype]; [proto] is what the getter of
    [__proto__] returns for the object the lookup started from. *)
Definition object_member (proto : value) (k : string) : value :=
  match assoc k object_prototype with
  | Some (Method n) => VFunction n
  | Some ProtoAccessor => proto
  | None => VUndefined
  end.

Definition nonempty (xs : list string) : bool :=
  match xs with [] => false | _ :: _ => true end.

(** ** Closure environments *)

(** Variables captured by [fn] in [subscribe]. *)
Record waiter := Waiter {
  w_numWaiting : Z;
  w_depsNotFound : list string;
  w_callbackFn : options
}.

(** Variables captured by [fn] in [loadFiles]; [l_pathsNotFound] is a
    reference into [arrays]; [l_bundleId] and [l_args] are the variables
    captured by the callback that [loadjs] passes in. *)
Record loader := Loader {
  l_numWaiting : Z;
  l_pathsNotFound : nat;
  l_bundleId : option string;
  l_args : options
}.

(** ** Program state *)

(** The three registries hold their own properties.
    [bundleResultCache_proto] is the prototype of [bundleResultCache] once
    an assignment to [__proto__] has replaced [Object.prototype] by an
    array (a reference into [arrays]). *)
Record state := State {
  bundleIdCache : gmap string bool;
  bundleResultCache : gmap string nat;
  bundleResultCache_proto : option nat;
  bundleCallbackQueue : gmap string (list nat);
  arrays : list (list string);
  waiters : list waiter;
  loaders : list loader;
  doc_head : list element;
  log : list event
}.

Definition init : state := State ∅ ∅ None ∅ [] [] [] [] [].

Definition set_bundleIdCache (m : gmap string bool) (s : state) : state :=
  State m (bundleResultCache s) (bundleResultCache_proto s)
        (bundleCallbackQueue s) (arrays s)
        (waiters s) (loaders s) (doc_head s) (log s).

Definition set_bundleResultCache (m : gmap string nat) (s : state) : state :=
  State (bundleIdCache s) m (bundleResultCache_proto s) (bundleCallbackQueue s)
        (arrays s) (waiters s) (loaders s) (doc_head s) (log s).

Definition set_bundleResultCache_proto (p : option nat) (s : state) : state :=
  State (bundleIdCache s) (bundleResultCache s) p (bundleCallbackQueue s)
        (arrays s) (waiters s) (loaders s) (doc_head s) (log s).

Definition set_bundleCallbackQueue (m : gmap string (list nat)) (s : state) : state :=
  State (bundleIdCache s) (bundleResultCache s) (bundleResultCache_proto s) m
        (arrays s) (waiters s) (loaders s) (doc_head s) (log s).

Definition set_arrays (a : list (list string)) (s : state) : state :=
  State (bundleIdCache s) (bundleResultCache s) (bundleResultCache_proto s)
        (bundleCallbackQueue s) a
        (waiters s) (loaders s) (doc_head s) (log s).

Definition set_waiters (w : list waiter) (s : state) : state :=
  State (bundleIdCache s) (bundleResultCache s) (bundleResultCache_proto s)
        (bundleCallbackQueue s)
        (arrays s) w (loaders s) (doc_head s) (log s).

Definition set_loaders (l : list loader) (s : state) : state :=
  State (bundleIdCache s) (bundleResultCache s) (bundleResultCache_proto s)
        (bundleCallbackQueue s)
        (arrays s) (waiters s) l (doc_head s) (log s).

Definition set_doc_head (h : list element) (s : state) : state :=
  State (bundleIdCache s) (bundleResultCache s) (bundleResultCache_proto s)
        (bundleCallbackQueue s)
        (arrays s) (waiters s) (loaders s) h (log s).

Definition set_log (t : list event) (s : state) : state :=
  State (bundleIdCache s) (bundleResultCache s) (bundleResultCache_proto s)
        (bundleCallbackQueue s)
        (arrays s) (waiters s) (loaders s) (doc_head s) t.

Definition emit (e : event) (s : state) : state :=
  set_log (log s ++ [e]) s.

(** Contents of the array behind a reference. *)
Definition array_at (s : state) (r : nat) : list string :=
  default [] (arrays s !! r).

(** [a.push(x)] on the array behind [r]. *)
Definition push (r : nat) (x : string) (s : state) : state :=
  set_arrays (alter (λ xs, xs ++ [x]) r (arrays s)) s.

(** ** Property access on the registries *)

(** [bundleId in bundleIdCache] *)
Definition bundleIdCache_has (s : state) (k : string) : bool :=
  bool_decide (is_Some (bundleIdCache s !! k)) ||
  bool_decide (is_Some (assoc k object_prototype)).

(** [bundleResultCache[bundleId]]: own properties first, then the
    prototype chain.  When the prototype is the array [a] the chain is
    [a], [Array.prototype], [Object.prototype]. *)
Definition bundleResultCache_get (s : state) (k : string) : value :=
  match bundleResultCache s !! k with
  | Some r => VArray r
  | None =>
    match bundleResultCache_proto s with
    | None => object_member VObject k
    | Some a =>
      match array_own (array_at s a) k with
      | Some v => v
      | None =>
        match assoc k array_prototype with
        | Some n => VFunction n
        | None => object_member (VArray a) k
        end
      end
    end
  end.

(** [bundleResultCache[bundleId] = pathsNotFound]: an own property is
    updated or created, except that the inherited setter of [__proto__]
    makes the array the prototype. *)
Definition bundleResultCache_put (k : string) (r : nat) (s : state) : state :=
  match bundleResultCache s !! k, assoc k object_prototype with
  | None, Some ProtoAccessor => set_bundleResultCache_proto (Some r) s
  | _, _ => set_bundleResultCache (<[k := r]> (bundleResultCache s)) s
  end.

(** [bundleCallbackQueue[bundleId]] *)
Definition bundleCallbackQueue_get (s : state) (k : string) : queue_value :=
  match bundleCallbackQueue s !! k with
  | Some q => QArray q
  | None =>
    match assoc k object_prototype with
    | Some (Method n) => QFunction n
    | Some ProtoAccessor => QObject
    | None => QUndefined
    end
  end.

(** Truth value of [v.length]; [Object.prototype] and numbers have no
    [length]. *)
Definition has_length (s : state) (v : value) : bool :=
  match v with
  | VArray r => nonempty (array_at s r)
  | VFunction n => negb (Nat.eqb n 0)
  | VString x => negb (String.eqb x "")
  | VUndefined | VObject | VNumber _ => false
  end.

(** ** Callbacks of the caller *)

(** [(args.success || devnull)()] *)
Definition call_success (args : options) (s : state) : state :=
  match success args with
  | Some f => emit (Success f) s
  | None => s
  end.

(** [(args.fail || devnull)(xs)] *)
Definition call_fail (args : options) (xs : list string) (s : state) : state :=
  match fail args with
  | Some f => emit (Fail f xs) s
  | None => s
  end.

(** Both [loadjs] and [loadjs.ready] finish with
    [if (xs.length) fail(xs); else success();]. *)
Definition success_or_fail (args : options) (xs : list string) (s : state) : state :=
  match length xs with
  | O => call_success args s
  | S _ => call_fail args xs s
  end.

(** ** Bundle registry *)

(** The closure [fn] of [subscribe] (lines 36-41), for the waiter [w].  A
    closure always has its environment; the [None] branch is there for
    totality only. *)
Definition subscribe_fn (w : nat) (bundleId : string) (pathsNotFound : value)
    (s : state) : state :=
  match waiters s !! w with
  | None => s
  | Some W =>
    let depsNotFound :=
      if has_length s pathsNotFound
      then w_depsNotFound W ++ [bundleId]
      else w_depsNotFound W in
    let numWaiting := w_numWaiting W - 1 in
    let s := set_waiters
               (<[w := Waiter numWaiting depsNotFound (w_callbackFn W)]> (waiters s)) s in
    if numWaiting =? 0
    then success_or_fail (w_callbackFn W) depsNotFound
           (emit (CallbackFn w depsNotFound) s)
    else s
  end.

(** Body of the registration loop (lines 45-56).  When [r] is falsy,
    [bundleId] names no member of [Object.prototype] (lemma
    [no_result_queue_get]), so [bundleCallbackQueue[bundleId]] is an own
    array or [undefined] and [q.push] is the push of an array. *)
Definition subscribe_body (w : nat) (bundleId : string) (s : state) : state :=
  let r := bundleResultCache_get s bundleId in
  if truthy r then subscribe_fn w bundleId r s
  else
    let q := match bundleCallbackQueue_get s bundleId with
             | QArray q => q
             | _ => []
             end in
    set_bundleCallbackQueue (<[bundleId := q ++ [w]]> (bundleCallbackQueue s)) s.

(** [while (i--) { bundleId = bundleIds[i]; ... }], entered with
    [i = bundleIds.length], so that [bundleIds[i]] is always in range. *)
Fixpoint subscribe_loop (w : nat) (bundleIds : list string) (i : nat)
    (s : state) : state :=
  match i with
  | O => s
  | S i' =>
    match bundleIds !! i' with
    | Some bundleId => subscribe_loop w bundleIds i' (subscribe_body w bundleId s)
    | None => s
    end
  end.

Definition subscribe (bundleIds : str_or_list) (callbackFn : options)
    (s : state) : state :=
  let bundleIds := listify bundleIds in
  let i := length bundleIds in
  let w := length (waiters s) in
  let s := set_waiters (waiters s ++ [Waiter (Z.of_nat i) [] callbackFn]) s in
  subscribe_loop w bundleIds i s.

(** [while (q.length) { q[0](bundleId, pathsNotFound); q.splice(0, 1); }]
    The local [q] aliases the array stored in [bundleCallbackQueue]; the
    stored array is kept equal to it after each [splice]. *)
Fixpoint publish_loop (q : list nat) (bundleId : string) (pathsNotFound : nat)
    (s : state) : state :=
  match q with
  | [] => s
  | fn :: q' =>
    let s := subscribe_fn fn bundleId (VArray pathsNotFound) s in
    let s := set_bundleCallbackQueue (<[bundleId := q']> (bundleCallbackQueue s)) s in
    publish_loop q' bundleId pathsNotFound s
  end.

(** [!bundleId] for a value that is [undefined] or a string. *)
Definition falsy (bundleId : option string) : bool :=
  match bundleId with
  | None => true
  | Some id => bool_decide (id = "")
  end.

(** How a call ends: it returns, or it throws; [s] is the state then. *)
Inductive completion :=
  | Normal (s : state)
  | Abrupt (error : string) (s : state).

Definition state_of (c : completion) : state :=
  match c with Normal s => s | Abrupt _ s => s end.

(** [publish] (lines 66-83).  An inherited method taken for the queue has
    its arity as [length] and no element [0]: calling [q[0]] throws.
    [Object.prototype], which [__proto__] yields, has no [length]. *)
Definition publish (bundleId : option string) (pathsNotFound : nat)
    (s : state) : completion :=
  match bundleId with
  | None => Normal s
  | Some id =>
    if falsy bundleId then Normal s
    else
      let q := bundleCallbackQueue_get s id in
      let s := bundleResultCache_put id pathsNotFound s in
      match q with
      | QUndefined => Normal s
      | QArray q => Normal (publish_loop q id pathsNotFound s)
      | QFunction n => if Nat.eqb n 0 then Normal s else Abrupt "TypeError" s
      | QObject => Normal s
      end
  end.

(** ** File-load coordinator *)

(** [/\.css$/.test(path)] *)
Definition is_css (path : string) : bool :=
  let n := String.length path in
  String.eqb (String.substring (n - 4)%nat 4 path) ".css".

Definition loadFile (path : string) (callbackFn : nat) (async : option bool)
    (s : state) : state :=
  let e := if is_css path
           then Link "stylesheet" path callbackFn
           else Script path (default true async) callbackFn in
  set_doc_head (doc_head s ++ [e]) s.

(** The callback [loadjs] passes to [loadFiles] (lines 192-199).  It runs
    inside an event handler: an exception of [publish] ends the handler
    and the state stays as it is then. *)
Definition loadjs_callback (bundleId : option string) (args : options)
    (pathsNotFound : nat) (s : state) : state :=
  let s := success_or_fail args (array_at s pathsNotFound) s in
  state_of (publish bundleId pathsNotFound s).

(** The closure [fn] of [loadFiles] (lines 146-159), for the loader [l].
    [result] is the first character of the event type (or ['e'] for an
    empty style sheet), compared with [==]. *)
Definition loadFiles_fn (l : nat) (path result : string)
    (defaultPrevented : bool) (s : state) : state :=
  match loaders s !! l with
  | None => s
  | Some L =>
    let s := if String.eqb result "e" then push (l_pathsNotFound L) path s else s in
    if String.eqb result "b" && negb defaultPrevented then s
    else
      let s := if String.eqb result "b" then push (l_pathsNotFound L) path s else s in
      let numWaiting := l_numWaiting L - 1 in
      let s := set_loaders
                 (<[l := Loader numWaiting (l_pathsNotFound L) (l_bundleId L) (l_args L)]>
                    (loaders s)) s in
      if numWaiting =? 0
      then loadjs_callback (l_bundleId L) (l_args L) (l_pathsNotFound L)
             (emit (LoadCallback l (array_at s (l_pathsNotFound L))) s)
      else s
  end.

(** The event handler installed by [loadFile] (lines 110-127). *)
Definition event_result (e : element) (ev : dom_event) : string :=
  let result := String.substring 0 1 (type_name (ev_type ev)) in
  if el_isCss e && hideFocus ev then
    match cssText ev with
    | Some t => if Nat.eqb (String.length t) 0 then "e" else result
    | None => "e"
    end
  else result.

Definition onevent (e : element) (ev : dom_event) (s : state) : state :=
  loadFiles_fn (el_callbackFn e) (el_path e) (event_result e ev)
    (defaultPrevented ev) s.

(** [loadFiles], called with the callback of [loadjs]. *)
Definition loadFiles (paths : str_or_list) (bundleId : option string)
    (args : options) (async : option bool) (s : state) : state :=
  let paths := listify paths in
  let pathsNotFound := length (arrays s) in
  let s := set_arrays (arrays s ++ [[]]) s in
  let l := length (loaders s) in
  let s := set_loaders
             (loaders s ++ [Loader (Z.of_nat (length paths)) pathsNotFound bundleId args]) s in
  foldl (λ s path, loadFile path l async s) s paths.

(** ** Public interface *)

Inductive outcome :=
  | Returned (s : state)
  | Thrown (msg : string).

(** [if (arg1 && arg1.trim) bundleId = arg1;] *)
Definition bundleId_of (arg1 : jsval) : option string :=
  match arg1 with
  | Str id => if falsy (Some id) then None else Some id
  | _ => None
  end.

(** [args = (bundleId ? arg2 : arg1) || {};] *)
Definition args_of (arg1 : jsval) (arg2 : option options) : options :=
  match bundleId_of arg1 with
  | Some _ => default no_options arg2
  | None => match arg1 with Obj o => o | _ => no_options end
  end.

Definition loadjs (paths : str_or_list) (arg1 : jsval) (arg2 : option options)
    (s : state) : outcome :=
  let bundleId := bundleId_of arg1 in
  let args := args_of arg1 arg2 in
  match bundleId with
  | Some id =>
    if bundleIdCache_has s id
    then Thrown "LoadJS"
    else Returned (loadFiles paths bundleId args (async args)
                     (set_bundleIdCache (<[id := true]> (bundleIdCache s)) s))
  | None => Returned (loadFiles paths bundleId args (async args) s)
  end.

Definition ready (deps : str_or_list) (args : options) (s : state) : state :=
  subscribe deps args s.

(** [publish(bundleId, [])]: the array literal is a new array. *)
Definition done_completion (bundleId : string) (s : state) : completion :=
  let r := length (arrays s) in
  publish (Some bundleId) r (set_arrays (arrays s ++ [[]]) s).

(** The state in which a call of [loadjs.done] ends. *)
Definition done (bundleId : string) (s : state) : state :=
  state_of (done_completion bundleId s).

(** ** Runs: calls of the interface and events of the browser *)

Inductive op :=
  | OpLoad (paths : str_or_list) (arg1 : jsval) (arg2 : option options)
  | OpReady (deps : str_or_list) (args : options)
  | OpDone (bundleId : string)
  | OpFire (k : nat) (ev : dom_event).

(** A call of [loadjs] that throws leaves the state as it is; a call of
    [loadjs.done] that throws leaves the state of the throw. *)
Definition step (o : op) (s : state) : state :=
  match o with
  | OpLoad paths arg1 arg2 =>
    match loadjs paths arg1 arg2 s with
    | Returned s' => s'
    | Thrown _ => s
    end
  | OpReady deps args => ready deps args s
  | OpDone bundleId => done bundleId s
  | OpFire k ev =>
    match doc_head s !! k with
    | Some e => onevent e ev s
    | None => s
    end
  end.

Definition run (ops : list op) (s : state) : state :=
  foldl (λ s o, step o s) s ops.

Inductive reachable : state → Prop :=
  | reachable_init : reachable init
  | reachable_step o s : reachable s → reachable (step o s).

(** Result recorded for a bundle id: the contents of the cached array. *)
Definition result_of (s : state) (bundleId : string) : option (list string) :=
  r ← bundleResultCache s !! bundleId; arrays s !! r.

Definition settled (s : state) (bundleId : string) : Prop :=
  is_Some (bundleResultCache s !! bundleId).

(** Arguments with which the callback of waiter [w] was called. *)
Fixpoint calls (w : nat) (t : list event) : list (list string) :=
  match t with
  | [] => []
  | CallbackFn w' deps :: t' =>
    if decide (w' = w) then deps :: calls w t' else calls w t'
  | _ :: t' => calls w t'
  end.

(** ** Auxiliary notions used in the statements *)

(** Events produced by [if (xs.length) fail(xs); else success();]. *)
Definition user_events (args : options) (xs : list string) : list event :=
  match length xs with
  | O => match success args with Some f => [Success f] | None => [] end
  | S _ => match fail args with Some f => [Fail f xs] | None => [] end
  end.

(** One call of the closure [fn] of [subscribe], seen from its environment. *)
Definition fn_waiter (nonempty : bool) (bundleId : string) (W : waiter) : waiter :=
  Waiter (w_numWaiting W - 1)
         (if nonempty then w_depsNotFound W ++ [bundleId] else w_depsNotFound W)
         (w_callbackFn W).

Definition fn_events (w : nat) (W : waiter) : list event :=
  if w_numWaiting W =? 0
  then CallbackFn w (w_depsNotFound W) :: user_events (w_callbackFn W) (w_depsNotFound W)
  else [].

Definition new_element (l : nat) (async : option bool) (path : string) : element :=
  if is_css path then Link "stylesheet" path l
  else Script path (default true async) l.

(** ** Outcomes of one path *)

(** A resolution counts unless it is a [beforeload] that was not prevented. *)
Definition terminal (result : string) (dp : bool) : bool :=
  negb (String.eqb result "b" && negb dp).

(** A resolution records the path for [error] and for a prevented
    [beforeload]. *)
Definition failing (result : string) (dp : bool) : bool :=
  String.eqb result "e" || (String.eqb result "b" && dp).

(** The environment of loader [l] after one terminal resolution. *)
Definition resolved (l : nat) (L : loader) (path result : string) (dp : bool)
    (s : state) : state :=
  set_loaders
    (<[l := Loader (l_numWaiting L - 1) (l_pathsNotFound L) (l_bundleId L) (l_args L)]>
       (loaders s))
    (if failing result dp then push (l_pathsNotFound L) path s else s).

(** ** Events delivered to the elements of one load *)

(** An event [ev] for the [k]-th child of [document.head]. *)
Definition fires (evs : list (nat * dom_event)) : list op :=
  map (λ kev, OpFire kev.1 kev.2) evs.

(** The event goes to an element whose handler belongs to loader [l]. *)
Definition targets (h : list element) (l : nat) (kev : nat * dom_event) : Prop :=
  ∃ e, h !! kev.1 = Some e ∧ el_callbackFn e = l.

Definition fire_terminal (h : list element) (kev : nat * dom_event) : bool :=
  match h !! kev.1 with
  | Some e => terminal (event_result e kev.2) (defaultPrevented kev.2)
  | None => false
  end.

Definition fire_failing (h : list element) (kev : nat * dom_event) : bool :=
  match h !! kev.1 with
  | Some e => failing (event_result e kev.2) (defaultPrevented kev.2)
  | None => false
  end.

(** Number of terminal events among [evs]. *)
Definition nterminal (h : list element) (evs : list (nat * dom_event)) : nat :=
  length (filter (λ kev, fire_terminal h kev = true) evs).

(** Paths of the events that record a failure, in the order of the events. *)
Definition failed_paths (h : list element) (evs : list (nat * dom_event)) : list string :=
  omap (λ kev, match h !! kev.1 with
               | Some e =>
                 if failing (event_result e kev.2) (defaultPrevented kev.2)
                 then Some (el_path e) else None
               | None => None
               end) evs.

(** ** A loader that can never complete *)


(** ** Concrete scenarios *)

Definition ev_load : dom_event := DomEvent Load false false None.
Definition ev_error : dom_event := DomEvent Error false false None.

(** Two bundles of one script each; the first loads, the second fails. *)
Definition two_bundles : list op :=
  [OpLoad (One "a.js") (Str "b1") None;
   OpLoad (One "b.js") (Str "b2") None;
   OpFire 0 ev_load;
   OpFire 1 ev_error].

(** A bundle whose only script failed. *)
Definition failed_bundle : state :=
  run [OpLoad (One "a.js") (Str "b1") None; OpFire 0 ev_error] init.

(** ** Calls of the callback of one load *)

(** Arguments with which the callback of loader [l] was called. *)
Fixpoint load_calls (l : nat) (t : list event) : list (list string) :=
  match t with
  | [] => []
  | LoadCallback l' paths :: t' =>
    if decide (l' = l) then paths :: load_calls l t' else load_calls l t'
  | _ :: t' => load_calls l t'
  end.

(** The callback of a load has been called at most once, and not at all
    while the wait counter of the load is positive. *)
Definition load_calls_inv (s : state) : Prop :=
  ∀ l,
    (length (load_calls l (log s)) ≤ 1)%nat ∧
    ∀ L, loaders s !! l = Some L → 0 < l_numWaiting L → load_calls l (log s) = [].

(** ** Plain bundle ids *)

(** A bundle id is plain when no prototype can answer for it: it names no
    member of [Object.prototype] or [Array.prototype] and no own property
    of an array ([length] or an index). *)
Definition plain (k : string) : Prop :=
  assoc k object_prototype = None ∧
  assoc k array_prototype = None ∧
  k ≠ "length" ∧
  array_index k = None.

Global Instance plain_dec k : Decision (plain k).
Proof. unfold plain. apply _. Defined.

(** What a lookup of [bundleId] in [bundleResultCache] yields, when it is
    an array of paths. *)
Definition recorded (s : state) (bundleId : string) : option (list string) :=
  match bundleResultCache_get s bundleId with
  | VArray r => arrays s !! r
  | _ => None
  end.

(** ** Events at the elements of one load, among other operations *)

(** The operation is an event at an element of [h] whose handler belongs
    to loader [l]. *)
Definition hit (h : list element) (l : nat) (o : op) : option (element * dom_event) :=
  match o with
  | OpFire k ev =>
    match h !! k with
    | Some e => if decide (el_callbackFn e = l) then Some (e, ev) else None
    | None => None
    end
  | _ => None
  end.

Definition hit_terminal (h : list element) (l : nat) (o : op) : bool :=
  match hit h l o with
  | Some (e, ev) => terminal (event_result e ev) (defaultPrevented ev)
  | None => false
  end.

Definition hit_failed_path (h : list element) (l : nat) (o : op) : option string :=
  match hit h l o with
  | Some (e, ev) =>
    if failing (event_result e ev) (defaultPrevented ev) then Some (el_path e) else None
  | None => None
  end.

(** Number of terminal events for loader [l] among [ops], and the paths
    they record as failed, in the order of the events. *)
Definition nhits (h : list element) (l : nat) (ops : list op) : nat :=
  length (filter (λ o, hit_terminal h l o = true) ops).

Definition hit_failed (h : list element) (l : nat) (ops : list op) : list string :=
  omap (hit_failed_path h l) ops.

(** Loader [l], created with the elements [h], is still waiting: its
    counter is [n], its array [r] holds [F], no other loader shares the
    array and its callback has not been called. *)
Record tracked (h : list element) (l r : nat) (bundleId : option string)
    (args : options) (n : Z) (F : list string) (s : state) : Prop := {
  tr_loader : loaders s !! l = Some (Loader n r bundleId args);
  tr_array : arrays s !! r = Some F;
  tr_head : h `prefix_of` doc_head s;
  tr_new : ∀ k e, doc_head s !! k = Some e → (length h ≤ k)%nat → el_callbackFn e ≠ l;
  tr_alias : ∀ l' L', loaders s !! l' = Some L' → l' ≠ l → l_pathsNotFound L' ≠ r;
  tr_calls : ∀ d, LoadCallback l d ∉ log s
}.

(** The arrays of the loaders exist. *)
Definition arrays_ok (s : state) : Prop :=
  ∀ l L, loaders s !! l = Some L → (l_pathsNotFound L < length (arrays s))%nat.

(** ** Well-formed states *)

(** References found in the log point into the closure stores. *)
Definition event_ok (s : state) (e : event) : Prop :=
  match e with
  | CallbackFn w _ => (w < length (waiters s))%nat
  | LoadCallback l _ => (l < length (loaders s))%nat
  | _ => True
  end.

Record wf (s : state) : Prop := {
  wf_queue_refs : ∀ id q w,
    bundleCallbackQueue s !! id = Some q → w ∈ q → (w < length (waiters s))%nat;
  wf_settled_queue : ∀ id q,
    is_Some (bundleResultCache s !! id) → bundleCallbackQueue s !! id = Some q → q = [];
  wf_log : Forall (event_ok s) (log s);
  wf_head_refs : ∀ e, e ∈ doc_head s → (el_callbackFn e < length (loaders s))%nat;
  wf_loader_ids : ∀ l L id,
    loaders s !! l = Some L → l_bundleId L = Some id →
    id ≠ "" ∧ is_Some (bundleIdCache s !! id);
  wf_loader_unique : ∀ l1 l2 L1 L2 id,
    loaders s !! l1 = Some L1 → loaders s !! l2 = Some L2 →
    l_bundleId L1 = Some id → l_bundleId L2 = Some id → l1 = l2
}.

(** ** Notions used to follow one waiter *)

Global Instance settled_dec s bundleId : Decision (settled s bundleId).
Proof. unfold settled. apply _. Defined.

(** Number of occurrences of [x] in [l]. *)
Definition occ {A} `{EqDecision A} (x : A) (l : list A) : nat :=
  length (filter (λ y, y = x) l).

(** Whether the result cached for [bundleId] is a non-empty array. *)
Definition failed_in (s : state) (bundleId : string) : bool :=
  match bundleResultCache s !! bundleId with
  | Some r => nonempty (array_at s r)
  | None => false
  end.

(** Whether the result of [bundleId] was non-empty in the first state of
    the run in which [bundleId] was settled. *)
Fixpoint failed_when_settled (bundleId : string) (s : state) (ops : list op) : bool :=
  match ops with
  | [] => failed_in s bundleId
  | o :: ops' =>
    if decide (settled s bundleId) then failed_in s bundleId
    else failed_when_settled bundleId (step o s) ops'
  end.

Definition nsettled (s : state) (P : list string) : nat :=
  length (filter (settled s) P).

(** Invariant of the waiter [w] that has registered the ids [P] so far, out
    of [total]; [G] tells for each id whether it failed when it settled. *)
Record winv (w total : nat) (cb : options) (G : string → bool)
    (P : list string) (s : state) : Prop := {
  winv_env : ∃ D,
    waiters s !! w = Some (Waiter (Z.of_nat total - Z.of_nat (nsettled s P)) D cb) ∧
    D ≡ₚ filter (λ id, settled s id ∧ G id = true) P ∧
    calls w (log s) = if decide (nsettled s P = total ∧ total ≠ 0%nat) then [D] else [];
  winv_len : (length P ≤ total)%nat;
  winv_queue : ∀ id,
    ¬ settled s id → occ w (default [] (bundleCallbackQueue s !! id)) = occ id P
}.

(** * Basic facts *)

Lemma set_log_same s : set_log (log s) s = s.
Proof. by destruct s. Qed.

Lemma set_log_nil_r s : set_log (log s ++ []) s = s.
Proof. rewrite app_nil_r. apply set_log_same. Qed.

Lemma success_or_fail_eq args xs s :
  success_or_fail args xs s = set_log (log s ++ user_events args xs) s.
Proof.
  unfold success_or_fail, user_events, call_success, call_fail, emit.
  destruct (length xs); [destruct (success args)|destruct (fail args)];
    by rewrite ?set_log_nil_r.
Qed.

Lemma subscribe_fn_eq w bundleId r s W :
  waiters s !! w = Some W →
  subscribe_fn w bundleId r s =
    let W' := fn_waiter (has_length s r) bundleId W in
    set_log (log s ++ fn_events w W') (set_waiters (<[w := W']> (waiters s)) s).
Proof.
  intros HW. unfold subscribe_fn, fn_events, fn_waiter. rewrite HW. simpl.
  destruct (w_numWaiting W - 1 =? 0).
  - rewrite success_or_fail_eq. unfold emit. simpl. by rewrite <- app_assoc.
  - simpl. rewrite app_nil_r. by destruct s.
Qed.

Lemma subscribe_fn_dangling w bundleId r s :
  waiters s !! w = None → subscribe_fn w bundleId r s = s.
Proof. intros HW. unfold subscribe_fn. by rewrite HW. Qed.

(** The closure touches its own environment and the log, nothing else. *)
Lemma subscribe_fn_frame w bundleId r s :
  let s' := subscribe_fn w bundleId r s in
  bundleIdCache s' = bundleIdCache s ∧
  bundleResultCache s' = bundleResultCache s ∧
  bundleCallbackQueue s' = bundleCallbackQueue s ∧
  arrays s' = arrays s ∧
  loaders s' = loaders s ∧
  doc_head s' = doc_head s ∧
  length (waiters s') = length (waiters s).
Proof.
  destruct (waiters s !! w) as [W|] eqn:HW.
  - rewrite (subscribe_fn_eq _ _ _ _ _ HW). simpl.
    by rewrite length_insert.
  - by rewrite subscribe_fn_dangling.
Qed.

Lemma subscribe_fn_proto w bundleId r s :
  bundleResultCache_proto (subscribe_fn w bundleId r s) = bundleResultCache_proto s.
Proof.
  destruct (waiters s !! w) as [W|] eqn:HW.
  - by rewrite (subscribe_fn_eq _ _ _ _ _ HW).
  - by rewrite subscribe_fn_dangling.
Qed.

Lemma has_length_set_queue m s r :
  has_length (set_bundleCallbackQueue m s) r = has_length s r.
Proof. done. Qed.

Lemma subscribe_fn_set_queue w bundleId r m s :
  subscribe_fn w bundleId r (set_bundleCallbackQueue m s) =
  set_bundleCallbackQueue m (subscribe_fn w bundleId r s).
Proof.
  destruct (waiters s !! w) as [W|] eqn:HW.
  - rewrite (subscribe_fn_eq _ _ _ _ W), (subscribe_fn_eq _ _ _ _ W); done.
  - rewrite !subscribe_fn_dangling; done.
Qed.

(** The drain loop calls the queued closures front to back and leaves the
    stored queue empty. *)
Lemma publish_loop_foldl q bundleId r s :
  publish_loop q bundleId r s =
    match q with
    | [] => s
    | _ :: _ =>
      set_bundleCallbackQueue (<[bundleId := []]> (bundleCallbackQueue s))
        (foldl (λ s fn, subscribe_fn fn bundleId (VArray r) s) s q)
    end.
Proof.
  revert s. induction q as [|fn q IH]; intros s; [done|].
  simpl. rewrite IH. destruct q as [|fn' q].
  - by destruct (subscribe_fn_frame fn bundleId (VArray r) s) as (_ & _ & -> & _).
  - remember (fn' :: q) as q'. simpl.
    destruct (subscribe_fn_frame fn bundleId (VArray r) s) as (_ & _ & Hq & _).
    simpl in Hq. rewrite Hq. rewrite insert_insert_eq.
    clear IH Heqq'. generalize (subscribe_fn fn bundleId (VArray r) s) as s1.
    generalize (<[bundleId:=q']> (bundleCallbackQueue s)) as m.
    induction q' as [|x q' IH]; intros m s1; simpl; [by destruct s1|].
    rewrite subscribe_fn_set_queue. rewrite IH.
    by destruct (foldl _ _ _).
Qed.

(** * Well-formed states are preserved *)

Lemma wf_init : wf init.
Proof.
  split; simpl; try done.
  - intros e He. by apply elem_of_nil in He.
Qed.

Lemma user_events_ok s args xs : Forall (event_ok s) (user_events args xs).
Proof.
  unfold user_events.
  destruct (length xs); [destruct (success args)|destruct (fail args)];
    repeat constructor.
Qed.

Lemma event_ok_mono s s' e :
  (length (waiters s) ≤ length (waiters s'))%nat →
  (length (loaders s) ≤ length (loaders s'))%nat →
  event_ok s e → event_ok s' e.
Proof. destruct e; simpl; lia. Qed.

Lemma log_ok_mono s s' t :
  (length (waiters s) ≤ length (waiters s'))%nat →
  (length (loaders s) ≤ length (loaders s'))%nat →
  Forall (event_ok s) t → Forall (event_ok s') t.
Proof.
  intros ?? Ht. eapply Forall_impl; [exact Ht|].
  intros e. by apply event_ok_mono.
Qed.

Lemma user_events_user args xs e :
  e ∈ user_events args xs → (∃ f, e = Success f) ∨ (∃ f ys, e = Fail f ys).
Proof.
  unfold user_events.
  destruct (length xs); [destruct (success args)|destruct (fail args)];
    intros He; try (by apply elem_of_nil in He);
    apply list_elem_of_singleton in He; eauto.
Qed.

Lemma fn_events_inv w W e :
  e ∈ fn_events w W →
  (∃ d, e = CallbackFn w d) ∨ (∃ f, e = Success f) ∨ (∃ f ys, e = Fail f ys).
Proof.
  unfold fn_events. destruct (w_numWaiting W =? 0).
  - intros [->|He]%elem_of_cons; [eauto|].
    right. by eapply user_events_user.
  - intros He. by apply elem_of_nil in He.
Qed.

Lemma subscribe_fn_log w bundleId r s :
  ∃ t, log (subscribe_fn w bundleId r s) = log s ++ t ∧
       Forall (event_ok s) t ∧
       (∀ w' d, CallbackFn w' d ∈ t → w' = w) ∧
       (∀ l d, LoadCallback l d ∉ t).
Proof.
  destruct (waiters s !! w) as [W|] eqn:HW.
  - rewrite (subscribe_fn_eq _ _ _ _ _ HW). simpl. eexists. split; [done|].
    split; [|split].
    + apply Forall_forall. intros e He.
      destruct (fn_events_inv _ _ _ He) as [[d ->]|[[f ->]|(f & ys & ->)]]; simpl; try done.
      by eapply lookup_lt_Some.
    + intros w' d He.
      destruct (fn_events_inv _ _ _ He) as [[d' ?]|[[f ?]|(f & ys & ?)]]; congruence.
    + intros l d He.
      destruct (fn_events_inv _ _ _ He) as [[d' ?]|[[f ?]|(f & ys & ?)]]; congruence.
  - rewrite subscribe_fn_dangling by done. exists []. rewrite app_nil_r.
    split; [done|]. split; [constructor|].
    split; [intros w' d He|intros l d He]; by apply elem_of_nil in He.
Qed.

Lemma wf_subscribe_fn w bundleId r s : wf s → wf (subscribe_fn w bundleId r s).
Proof.
  intros [H1 H2 H3 H4 H5 H6].
  destruct (subscribe_fn_frame w bundleId r s) as (E1 & E2 & E3 & E4 & E5 & E6 & E7).
  destruct (subscribe_fn_log w bundleId r s) as (t & Et & Ht & _).
  simpl in *. split; rewrite ?E1, ?E2, ?E3, ?E4, ?E5, ?E6, ?E7; try done.
  rewrite Et. apply Forall_app. split.
  - eapply (log_ok_mono s); [lia|by rewrite E5|done].
  - eapply (log_ok_mono s); [lia|by rewrite E5|done].
Qed.

Lemma foldl_fn_frame q bundleId r s :
  let s' := foldl (λ s fn, subscribe_fn fn bundleId r s) s q in
  bundleIdCache s' = bundleIdCache s ∧
  bundleResultCache s' = bundleResultCache s ∧
  bundleCallbackQueue s' = bundleCallbackQueue s ∧
  arrays s' = arrays s ∧
  loaders s' = loaders s ∧
  doc_head s' = doc_head s ∧
  length (waiters s') = length (waiters s) ∧
  ∃ t, log s' = log s ++ t ∧
       Forall (event_ok s) t ∧
       (∀ w d, CallbackFn w d ∈ t → w ∈ q) ∧
       (∀ l d, LoadCallback l d ∉ t).
Proof.
  revert s. induction q as [|fn q IH]; intros s; simpl.
  - repeat split; try done. exists []. rewrite app_nil_r.
    split; [done|]. split; [constructor|].
    split; [intros w d He|intros l d He]; by apply elem_of_nil in He.
  - destruct (IH (subscribe_fn fn bundleId r s))
      as (E1 & E2 & E3 & E4 & E5 & E6 & E7 & t & Et & Ht & Hw & Hl).
    destruct (subscribe_fn_frame fn bundleId r s)
      as (F1 & F2 & F3 & F4 & F5 & F6 & F7).
    destruct (subscribe_fn_log fn bundleId r s) as (t0 & Et0 & Ht0 & Hw0 & Hl0).
    simpl in *.
    rewrite E1, E2, E3, E4, E5, E6, E7, F1, F2, F3, F4, F5, F6, F7.
    repeat split; try done.
    exists (t0 ++ t). rewrite Et, Et0, app_assoc. split; [done|].
    split; [|split].
    + apply Forall_app. split; [done|].
      eapply (log_ok_mono (subscribe_fn fn bundleId r s)); [lia|by rewrite F5|done].
    + intros w d [He|He]%elem_of_app.
      * rewrite (Hw0 _ _ He). by left.
      * right. by eapply Hw.
    + intros l d [He|He]%elem_of_app; [by eapply Hl0|by eapply Hl].
Qed.

Lemma wf_set_arrays a s : wf s → wf (set_arrays a s).
Proof. intros [H1 H2 H3 H4 H5 H6]. by split. Qed.

(** The assignment [bundleResultCache[k] = r]. *)
Lemma put_frame k r s :
  let s' := bundleResultCache_put k r s in
  bundleIdCache s' = bundleIdCache s ∧
  bundleCallbackQueue s' = bundleCallbackQueue s ∧
  arrays s' = arrays s ∧
  waiters s' = waiters s ∧
  loaders s' = loaders s ∧
  doc_head s' = doc_head s ∧
  log s' = log s.
Proof.
  unfold bundleResultCache_put.
  destruct (bundleResultCache s !! k); [done|].
  by destruct (assoc k object_prototype) as [[]|].
Qed.

Lemma put_cases k r s :
  let s' := bundleResultCache_put k r s in
  (bundleResultCache s' = <[k := r]> (bundleResultCache s) ∧
   bundleResultCache_proto s' = bundleResultCache_proto s ∧
   (is_Some (bundleResultCache s !! k) ∨
    assoc k object_prototype ≠ Some ProtoAccessor)) ∨
  (bundleResultCache s' = bundleResultCache s ∧
   bundleResultCache s !! k = None ∧
   assoc k object_prototype = Some ProtoAccessor ∧
   bundleResultCache_proto s' = Some r).
Proof.
  unfold bundleResultCache_put.
  destruct (bundleResultCache s !! k) eqn:Hk; [left; eauto|].
  destruct (assoc k object_prototype) as [[]|]; [left|by right|left];
    (split; [done|split; [done|by right]]).
Qed.

Lemma put_other k r s id :
  id ≠ k →
  bundleResultCache (bundleResultCache_put k r s) !! id = bundleResultCache s !! id.
Proof.
  intros Hne. destruct (put_cases k r s) as [[-> _]|[-> _]]; [|done].
  by rewrite lookup_insert_ne.
Qed.

Lemma put_settled k r s id :
  is_Some (bundleResultCache s !! id) →
  is_Some (bundleResultCache (bundleResultCache_put k r s) !! id).
Proof.
  intros Hs. destruct (put_cases k r s) as [[-> _]|[-> _]]; [|done].
  destruct (decide (id = k)) as [->|Hne].
  - rewrite lookup_insert_eq. by eexists.
  - by rewrite lookup_insert_ne.
Qed.

Lemma put_settled_inv k r s id :
  is_Some (bundleResultCache (bundleResultCache_put k r s) !! id) →
  id = k ∨ is_Some (bundleResultCache s !! id).
Proof.
  destruct (decide (id = k)) as [->|Hne]; [by left|].
  rewrite put_other by done. by right.
Qed.

(** The state in which [publish] ends, whether it returns or throws: the
    assignment followed by the drain of the queue that [bundleId] owns. *)
Lemma publish_state id r s :
  falsy (Some id) = false →
  state_of (publish (Some id) r s) =
    publish_loop (default [] (bundleCallbackQueue s !! id)) id r
      (bundleResultCache_put id r s).
Proof.
  intros Hf. unfold publish, bundleCallbackQueue_get. rewrite Hf.
  destruct (bundleCallbackQueue s !! id) as [q|]; [done|].
  destruct (assoc id object_prototype) as [[n|]|]; try done.
  by destruct (Nat.eqb n 0).
Qed.

Lemma publish_state_falsy bundleId r s :
  falsy bundleId = true → publish bundleId r s = Normal s.
Proof. unfold publish. destruct bundleId; [by intros ->|done]. Qed.

Lemma wf_publish bundleId r s : wf s → wf (state_of (publish bundleId r s)).
Proof.
  intros Hwf. destruct (falsy bundleId) eqn:Hf.
  { by rewrite publish_state_falsy. }
  destruct bundleId as [id|]; [|done].
  rewrite publish_state by done. rewrite publish_loop_foldl.
  destruct Hwf as [H1 H2 H3 H4 H5 H6].
  destruct (put_frame id r s) as (P1 & P2 & P3 & P4 & P5 & P6 & P7).
  simpl in P1, P2, P3, P4, P5, P6, P7.
  destruct (default [] (bundleCallbackQueue s !! id)) as [|fn q] eqn:Hq.
  - split; rewrite ?P1, ?P2, ?P3, ?P4, ?P5, ?P6, ?P7; try done.
    + intros id' q' Hc Hq'.
      destruct (put_settled_inv _ _ _ _ Hc) as [->|Hc']; [|by eapply H2].
      rewrite Hq' in Hq. done.
    + eapply (log_ok_mono s); [by rewrite P4|by rewrite P5|done].
  - match goal with |- wf (set_bundleCallbackQueue _ (foldl ?f ?s1 ?l)) =>
      destruct (foldl_fn_frame l id (VArray r) s1)
        as (E1 & E2 & E3 & E4 & E5 & E6 & E7 & t & Et & Ht & _)
    end.
    simpl in *.
    split; simpl; rewrite ?E1, ?E2, ?E3, ?E4, ?E5, ?E6, ?E7,
      ?P1, ?P2, ?P3, ?P4, ?P5, ?P6, ?P7; try done.
    + intros id' q' w Hq'. destruct (decide (id' = id)) as [->|Hne].
      * rewrite lookup_insert_eq in Hq'. injection Hq' as <-.
        intros Hw. by apply elem_of_nil in Hw.
      * rewrite lookup_insert_ne in Hq' by done. by eapply H1.
    + intros id' q' Hc Hq'. destruct (decide (id' = id)) as [->|Hne].
      * rewrite lookup_insert_eq in Hq'. by injection Hq' as <-.
      * rewrite lookup_insert_ne in Hq' by done.
        rewrite put_other in Hc by done. by eapply H2.
    + rewrite Et, P7. apply Forall_app. split.
      * eapply (log_ok_mono s); [simpl; rewrite E7, P4; lia
                                |simpl; by rewrite E5, P5|done].
      * eapply log_ok_mono; [| |exact Ht]; simpl; [rewrite E7; lia|by rewrite E5].
Qed.

(** The registration loop visits the ids from the last to the first. *)
Lemma subscribe_loop_foldl w bundleIds i s :
  (i ≤ length bundleIds)%nat →
  subscribe_loop w bundleIds i s =
    foldl (λ s bundleId, subscribe_body w bundleId s) s (reverse (take i bundleIds)).
Proof.
  revert s. induction i as [|i IH]; intros s Hi; simpl.
  - done.
  - destruct (lookup_lt_is_Some_2 bundleIds i) as [x Hx]; [lia|].
    rewrite Hx. rewrite (take_S_r _ _ _ Hx), reverse_snoc. simpl.
    apply IH. lia.
Qed.

Lemma subscribe_eq bundleIds callbackFn s :
  subscribe bundleIds callbackFn s =
    foldl (λ s' bundleId, subscribe_body (length (waiters s)) bundleId s')
      (set_waiters (waiters s ++
         [Waiter (Z.of_nat (length (listify bundleIds))) [] callbackFn]) s)
      (reverse (listify bundleIds)).
Proof.
  unfold subscribe. rewrite subscribe_loop_foldl by done.
  by rewrite firstn_all.
Qed.

(** * Property lookups *)

Lemma assoc_Some {A} (k : string) (l : list (string * A)) v :
  assoc k l = Some v → (k, v) ∈ l.
Proof.
  induction l as [|[k' v'] l IH]; simpl; [done|].
  destruct (String.eqb k' k) eqn:Hk.
  - apply String.eqb_eq in Hk as ->. intros [= ->]. by left.
  - intros H. right. by apply IH.
Qed.

(** No member of [Object.prototype] is named like an own property of an
    array. *)
Lemma object_member_not_array_own k m xs :
  assoc k object_prototype = Some m → array_own xs k = None.
Proof.
  intros Hk%assoc_Some. unfold object_prototype in Hk.
  repeat (apply elem_of_cons in Hk as [[= -> ->]|Hk]; [done|]).
  by apply elem_of_nil in Hk.
Qed.

Lemma get_own s k r :
  bundleResultCache s !! k = Some r → bundleResultCache_get s k = VArray r.
Proof. intros Hk. unfold bundleResultCache_get. by rewrite Hk. Qed.

Lemma array_own_plain xs k :
  k ≠ "length" → array_index k = None → array_own xs k = None.
Proof.
  intros Hk Hi. unfold array_own.
  destruct (String.eqb k "length") eqn:E; [by apply String.eqb_eq in E|].
  by rewrite Hi.
Qed.

Lemma get_plain s k :
  plain k →
  bundleResultCache_get s k =
    match bundleResultCache s !! k with
    | Some r => VArray r
    | None => VUndefined
    end.
Proof.
  intros (Ho & Ha & Hl & Hi). unfold bundleResultCache_get, object_member.
  destruct (bundleResultCache s !! k); [done|].
  rewrite Ho. destruct (bundleResultCache_proto s); [|done].
  by rewrite array_own_plain, Ha.
Qed.

(** A member of [Object.prototype] always shows through
    [bundleResultCache], and the value found is truthy. *)
Lemma get_object_member s k m :
  assoc k object_prototype = Some m → truthy (bundleResultCache_get s k) = true.
Proof.
  intros Hk. unfold bundleResultCache_get, object_member.
  destruct (bundleResultCache s !! k); [done|].
  destruct (bundleResultCache_proto s) as [a|].
  - rewrite (object_member_not_array_own _ _ _ Hk).
    destruct (assoc k array_prototype); [done|].
    rewrite Hk. by destruct m.
  - rewrite Hk. by destruct m.
Qed.

Lemma no_result_own s k :
  truthy (bundleResultCache_get s k) = false → bundleResultCache s !! k = None.
Proof.
  destruct (bundleResultCache s !! k) as [r|] eqn:Hk; [|done].
  by rewrite (get_own _ _ _ Hk).
Qed.

Lemma no_result_not_inherited s k :
  truthy (bundleResultCache_get s k) = false → assoc k object_prototype = None.
Proof.
  intros Hf. destruct (assoc k object_prototype) as [m|] eqn:Hk; [|done].
  by rewrite (get_object_member _ _ _ Hk) in Hf.
Qed.

(** Where [subscribe] reads the queue, the queue is an own array or
    [undefined]. *)
Lemma no_result_queue_get s k :
  truthy (bundleResultCache_get s k) = false →
  bundleCallbackQueue_get s k =
    match bundleCallbackQueue s !! k with
    | Some q => QArray q
    | None => QUndefined
    end.
Proof.
  intros Hf%no_result_not_inherited. unfold bundleCallbackQueue_get.
  by rewrite Hf.
Qed.

Lemma subscribe_body_eq w bundleId s :
  subscribe_body w bundleId s =
    if truthy (bundleResultCache_get s bundleId)
    then subscribe_fn w bundleId (bundleResultCache_get s bundleId) s
    else set_bundleCallbackQueue
           (<[bundleId := default [] (bundleCallbackQueue s !! bundleId) ++ [w]]>
              (bundleCallbackQueue s)) s.
Proof.
  unfold subscribe_body.
  destruct (truthy (bundleResultCache_get s bundleId)) eqn:Hf; [done|].
  rewrite (no_result_queue_get _ _ Hf).
  by destruct (bundleCallbackQueue s !! bundleId).
Qed.

Lemma wf_subscribe_body w bundleId s :
  wf s → (w < length (waiters s))%nat → wf (subscribe_body w bundleId s).
Proof.
  intros Hwf Hw. rewrite subscribe_body_eq.
  destruct (truthy (bundleResultCache_get s bundleId)) eqn:Hf.
  - by apply wf_subscribe_fn.
  - apply no_result_own in Hf as Hc.
    destruct Hwf as [H1 H2 H3 H4 H5 H6]. split; simpl; try done.
    + intros id q w' Hq. destruct (decide (id = bundleId)) as [->|Hne].
      * rewrite lookup_insert_eq in Hq. injection Hq as <-.
        intros [Hin| ->%list_elem_of_singleton]%elem_of_app; [|done].
        destruct (bundleCallbackQueue s !! bundleId) as [q0|] eqn:Hq0; simpl in Hin.
        -- by eapply H1.
        -- by apply elem_of_nil in Hin.
      * rewrite lookup_insert_ne in Hq by done. by eapply H1.
    + intros id q Hs Hq. destruct (decide (id = bundleId)) as [->|Hne].
      * rewrite Hc in Hs. by destruct Hs.
      * rewrite lookup_insert_ne in Hq by done. by eapply H2.
Qed.

Lemma subscribe_body_length w bundleId s :
  length (waiters (subscribe_body w bundleId s)) = length (waiters s).
Proof.
  rewrite subscribe_body_eq.
  destruct (truthy (bundleResultCache_get s bundleId)); [|done].
  apply subscribe_fn_frame.
Qed.

Lemma wf_subscribe bundleIds callbackFn s :
  wf s → wf (subscribe bundleIds callbackFn s).
Proof.
  intros Hwf. rewrite subscribe_eq.
  set (w := length (waiters s)).
  set (s0 := set_waiters _ s).
  assert (Hwf0 : wf s0).
  { destruct Hwf as [H1 H2 H3 H4 H5 H6]. split; simpl; try done.
    - intros id q w' Hq Hin. rewrite length_app. simpl.
      specialize (H1 _ _ _ Hq Hin). lia.
    - eapply (log_ok_mono s); [simpl; rewrite length_app; lia|done|done]. }
  assert (Hw : (w < length (waiters s0))%nat).
  { simpl. rewrite length_app. simpl. unfold w. lia. }
  clearbody s0. clearbody w. clear Hwf.
  revert s0 Hwf0 Hw. induction (reverse (listify bundleIds)) as [|x l IH];
    intros s0 Hwf0 Hw; simpl; [done|].
  apply IH; [by apply wf_subscribe_body|by rewrite subscribe_body_length].
Qed.

(** Loads *)

Lemma wf_push r x s : wf s → wf (push r x s).
Proof. apply wf_set_arrays. Qed.

Lemma wf_loadFile path l async s :
  wf s → (l < length (loaders s))%nat → wf (loadFile path l async s).
Proof.
  intros [H1 H2 H3 H4 H5 H6] Hl. unfold loadFile. split; simpl; try done.
  intros e [He| ->%list_elem_of_singleton]%elem_of_app; [by apply H4|].
  by destruct (is_css path).
Qed.

Lemma loadFile_frame path l async s :
  let s' := loadFile path l async s in
  bundleIdCache s' = bundleIdCache s ∧
  bundleResultCache s' = bundleResultCache s ∧
  bundleCallbackQueue s' = bundleCallbackQueue s ∧
  arrays s' = arrays s ∧
  waiters s' = waiters s ∧
  loaders s' = loaders s ∧
  log s' = log s.
Proof. done. Qed.

Lemma loadFiles_loop_frame paths l async s :
  let s' := foldl (λ s path, loadFile path l async s) s paths in
  bundleIdCache s' = bundleIdCache s ∧
  bundleResultCache s' = bundleResultCache s ∧
  bundleCallbackQueue s' = bundleCallbackQueue s ∧
  arrays s' = arrays s ∧
  waiters s' = waiters s ∧
  loaders s' = loaders s ∧
  log s' = log s ∧
  doc_head s' = doc_head s ++
    map (λ path, if is_css path then Link "stylesheet" path l
                 else Script path (default true async) l) paths.
Proof.
  revert s. induction paths as [|p paths IH]; intros s; simpl.
  - by rewrite app_nil_r.
  - destruct (IH (loadFile p l async s)) as (E1 & E2 & E3 & E4 & E5 & E6 & E7 & E8).
    simpl in *. rewrite E1, E2, E3, E4, E5, E6, E7, E8.
    repeat split; try done. by rewrite <- app_assoc.
Qed.

Lemma loadFiles_eq paths bundleId args async s :
  let s' := loadFiles paths bundleId args async s in
  bundleIdCache s' = bundleIdCache s ∧
  bundleResultCache s' = bundleResultCache s ∧
  bundleCallbackQueue s' = bundleCallbackQueue s ∧
  waiters s' = waiters s ∧
  log s' = log s ∧
  arrays s' = arrays s ++ [[]] ∧
  loaders s' = loaders s ++
    [Loader (Z.of_nat (length (listify paths))) (length (arrays s)) bundleId args] ∧
  doc_head s' = doc_head s ++ map (new_element (length (loaders s)) async) (listify paths).
Proof.
  unfold loadFiles. simpl.
  match goal with |- context [foldl ?f ?s0 ?l] =>
    destruct (loadFiles_loop_frame l (length (loaders s)) async s0)
      as (E1 & E2 & E3 & E4 & E5 & E6 & E7 & E8)
  end.
  simpl in *. by rewrite E1, E2, E3, E4, E5, E6, E7, E8.
Qed.

Lemma wf_loadFiles paths bundleId args async s :
  wf s →
  (∀ id, bundleId = Some id →
     id ≠ "" ∧ is_Some (bundleIdCache s !! id) ∧
     ∀ l L, loaders s !! l = Some L → l_bundleId L ≠ Some id) →
  wf (loadFiles paths bundleId args async s).
Proof.
  intros [H1 H2 H3 H4 H5 H6] Hb.
  destruct (loadFiles_eq paths bundleId args async s)
    as (E1 & E2 & E3 & E4 & E5 & E6 & E7 & E8).
  simpl in *. split; rewrite ?E1, ?E2, ?E3, ?E4, ?E5, ?E6, ?E7, ?E8; try done.
  - eapply (log_ok_mono s); [by rewrite E4|rewrite E7, length_app; lia|done].
  - rewrite length_app. simpl.
    intros e [He|He]%elem_of_app.
    + specialize (H4 _ He). lia.
    + apply list_elem_of_fmap in He as (p & -> & _).
      unfold new_element. destruct (is_css p); simpl; lia.
  - intros l L id HL Hid.
    apply lookup_app_Some in HL as [HL|[_ HL]].
    + by eapply H5.
    + apply list_lookup_singleton_Some in HL as [_ <-]. simpl in Hid.
      destruct (Hb _ Hid) as (? & ? & _). done.
  - intros l1 l2 L1 L2 id HL1 HL2 Hid1 Hid2.
    apply lookup_app_Some in HL1 as [HL1|[Hl1 HL1]];
      apply lookup_app_Some in HL2 as [HL2|[Hl2 HL2]].
    + by eapply H6.
    + apply list_lookup_singleton_Some in HL2 as [_ <-]. simpl in Hid2.
      destruct (Hb _ Hid2) as (_ & _ & Hno). by destruct (Hno _ _ HL1).
    + apply list_lookup_singleton_Some in HL1 as [_ <-]. simpl in Hid1.
      destruct (Hb _ Hid1) as (_ & _ & Hno). by destruct (Hno _ _ HL2).
    + apply list_lookup_singleton_Some in HL1 as [? _].
      apply list_lookup_singleton_Some in HL2 as [? _]. lia.
Qed.

Lemma bundleId_of_Some arg1 id :
  bundleId_of arg1 = Some id → arg1 = Str id ∧ id ≠ "".
Proof.
  destruct arg1 as [|id'|o]; simpl; try done.
  case_bool_decide; [done|]. intros [= ->]. done.
Qed.

(** [bundleId in bundleIdCache] fails for the names that are neither own
    nor inherited. *)
Lemma has_false s k :
  bundleIdCache_has s k = false ↔
  bundleIdCache s !! k = None ∧ assoc k object_prototype = None.
Proof.
  unfold bundleIdCache_has. rewrite orb_false_iff, !bool_decide_eq_false.
  by rewrite <- !eq_None_not_Some.
Qed.

Lemma has_true s k :
  bundleIdCache_has s k = true ↔
  is_Some (bundleIdCache s !! k) ∨ is_Some (assoc k object_prototype).
Proof.
  unfold bundleIdCache_has. by rewrite orb_true_iff, !bool_decide_eq_true.
Qed.

Lemma wf_loadjs paths arg1 arg2 s s' :
  wf s → loadjs paths arg1 arg2 s = Returned s' → wf s'.
Proof.
  intros Hwf. unfold loadjs.
  destruct (bundleId_of arg1) as [id|] eqn:Hid.
  - destruct (bundleIdCache_has s id) eqn:Hhas; [done|]. intros [= <-].
    assert (Hin : ¬ is_Some (bundleIdCache s !! id)).
    { apply has_false in Hhas as [-> _]. by intros [? ?]. }
    apply bundleId_of_Some in Hid as [_ Hne].
    apply wf_loadFiles.
    + destruct Hwf as [H1 H2 H3 H4 H5 H6]. split; simpl; try done.
      intros l L id' HL Hid'. destruct (H5 _ _ _ HL Hid') as [? [b Hb]].
      split; [done|]. destruct (decide (id = id')) as [->|?].
      * rewrite lookup_insert_eq. eauto.
      * rewrite lookup_insert_ne by done. eauto.
    + intros id' [= <-]. simpl. split; [done|]. split.
      * rewrite lookup_insert_eq. eauto.
      * intros l L HL Hb. destruct Hin.
        by destruct (wf_loader_ids _ Hwf _ _ _ HL Hb).
  - intros [= <-]. by apply wf_loadFiles.
Qed.

Lemma wf_emit e s : wf s → event_ok s e → wf (emit e s).
Proof.
  intros [H1 H2 H3 H4 H5 H6] He. split; simpl; try done.
  apply Forall_app. split; [done|]. by constructor.
Qed.

Lemma wf_success_or_fail args xs s : wf s → wf (success_or_fail args xs s).
Proof.
  intros [H1 H2 H3 H4 H5 H6]. rewrite success_or_fail_eq. split; simpl; try done.
  apply Forall_app. split; [done|]. apply (user_events_ok s).
Qed.

Lemma wf_loadjs_callback bundleId args r s :
  wf s → wf (loadjs_callback bundleId args r s).
Proof. intros ?. by apply wf_publish, wf_success_or_fail. Qed.

(** * Following one waiter *)

Lemma calls_app w t1 t2 : calls w (t1 ++ t2) = calls w t1 ++ calls w t2.
Proof.
  induction t1 as [|e t1 IH]; [done|].
  destruct e; simpl; try done. case_decide; simpl; by rewrite IH.
Qed.

Lemma calls_none w t : (∀ d, CallbackFn w d ∉ t) → calls w t = [].
Proof.
  induction t as [|e t IH]; intros Hn; [done|].
  assert (calls w t = []) as Ht.
  { apply IH. intros d Hd. apply (Hn d). by right. }
  destruct e; simpl; try done. case_decide; [|done].
  subst. destruct (Hn depsNotFound). by left.
Qed.

Lemma calls_user_events w args xs : calls w (user_events args xs) = [].
Proof.
  apply calls_none. intros d Hd.
  destruct (user_events_user _ _ _ Hd) as [[f ?]|(f & ys & ?)]; done.
Qed.

Lemma calls_fn_events w W :
  calls w (fn_events w W) = if w_numWaiting W =? 0 then [w_depsNotFound W] else [].
Proof.
  unfold fn_events. destruct (w_numWaiting W =? 0); [|done].
  simpl. rewrite decide_True by done. by rewrite calls_user_events.
Qed.

Lemma occ_cons {A} `{EqDecision A} (x y : A) l :
  occ x (y :: l) = if decide (y = x) then S (occ x l) else occ x l.
Proof. unfold occ. rewrite filter_cons. by case_decide. Qed.

Lemma occ_app {A} `{EqDecision A} (x : A) l1 l2 :
  occ x (l1 ++ l2) = (occ x l1 + occ x l2)%nat.
Proof. unfold occ. by rewrite filter_app, length_app. Qed.

Lemma occ_not_in {A} `{EqDecision A} (x : A) l : x ∉ l → occ x l = 0%nat.
Proof.
  induction l as [|y l IH]; [done|].
  intros Hn. rewrite occ_cons. rewrite decide_False by set_solver.
  apply IH. set_solver.
Qed.

Lemma subscribe_fn_other w fn bundleId r s :
  fn ≠ w →
  waiters (subscribe_fn fn bundleId r s) !! w = waiters s !! w ∧
  calls w (log (subscribe_fn fn bundleId r s)) = calls w (log s).
Proof.
  intros Hne. split.
  - destruct (waiters s !! fn) as [W|] eqn:HW.
    + rewrite (subscribe_fn_eq _ _ _ _ _ HW). simpl.
      by rewrite list_lookup_insert_ne.
    + by rewrite subscribe_fn_dangling.
  - destruct (subscribe_fn_log fn bundleId r s) as (t & -> & _ & Ht & _).
    rewrite calls_app, (calls_none w t), app_nil_r; [done|].
    intros d Hd. apply Hne. symmetry. by eapply Ht.
Qed.

(** What a drain of the queue [q] does to the waiter [w]: one decrement per
    occurrence of [w], and a call of its callback when the counter reaches
    zero. *)
Lemma has_length_ext s s' v :
  arrays s' = arrays s → has_length s' v = has_length s v.
Proof. intros Ha. destruct v; simpl; try done. unfold array_at. by rewrite Ha. Qed.

Lemma foldl_fn_waiter w cb bundleId r q s N D :
  waiters s !! w = Some (Waiter N D cb) →
  Z.of_nat (occ w q) ≤ N →
  let s' := foldl (λ s fn, subscribe_fn fn bundleId r s) s q in
  let k := occ w q in
  let D' := D ++ (if has_length s r then replicate k bundleId else []) in
  waiters s' !! w = Some (Waiter (N - Z.of_nat k) D' cb) ∧
  calls w (log s') =
    calls w (log s) ++ (if decide (k ≠ 0%nat ∧ N = Z.of_nat k) then [D'] else []).
Proof.
  revert s N D. induction q as [|fn q IH]; intros s N D HW Hk; simpl.
  - unfold occ. simpl. rewrite Z.sub_0_r.
    replace (D ++ (if has_length s r then [] else [])) with D
      by (destruct (has_length _ _); by rewrite app_nil_r).
    by rewrite app_nil_r.
  - rewrite occ_cons in *. destruct (decide (fn = w)) as [->|Hne].
    + pose proof (subscribe_fn_eq w bundleId r s _ HW) as Heq. simpl in Heq.
      set (W' := fn_waiter (has_length s r) bundleId (Waiter N D cb)) in *.
      assert (HW' : waiters (subscribe_fn w bundleId r s) !! w =
                    Some (Waiter (N - 1) (w_depsNotFound W') cb)).
      { rewrite Heq. simpl. rewrite list_lookup_insert_eq; [done|].
        by eapply lookup_lt_Some. }
      assert (Harr : arrays (subscribe_fn w bundleId r s) = arrays s)
        by apply subscribe_fn_frame.
      destruct (IH _ _ _ HW') as [IH1 IH2]; [lia|].
      rewrite (has_length_ext _ _ _ Harr) in IH1, IH2.
      assert (HD : ∀ k, w_depsNotFound W' ++
                 (if has_length s r then replicate k bundleId else []) =
               D ++ (if has_length s r
                     then replicate (S k) bundleId else [])).
      { intros k. unfold W'. simpl. destruct (has_length _ _); [|done].
        by rewrite <- app_assoc. }
      rewrite HD in IH1, IH2. split.
      * rewrite IH1. do 2 f_equal. lia.
      * rewrite IH2, Heq. simpl. rewrite calls_app, calls_fn_events.
        rewrite <- app_assoc. f_equal. unfold W' at 1. simpl.
        destruct (N - 1 =? 0) eqn:HN.
        -- apply Z.eqb_eq in HN. assert (occ w q = 0%nat) as Hz by lia.
           rewrite Hz. rewrite decide_False by (by intros [? _]).
           rewrite decide_True by (split; [done|lia]).
           simpl. f_equal. unfold W'. simpl.
           destruct (has_length _ _); [done|by rewrite app_nil_r].
        -- apply Z.eqb_neq in HN. simpl.
           destruct (decide (occ w q ≠ 0%nat ∧ N - 1 = Z.of_nat (occ w q))) as [[? ?]|Hn].
           ++ rewrite decide_True by (split; [done|lia]). done.
           ++ rewrite decide_False; [done|]. intros [_ HNk]. apply Hn. split; lia.
    + destruct (subscribe_fn_other w fn bundleId r s Hne) as [E1 E2].
      assert (Harr : arrays (subscribe_fn fn bundleId r s) = arrays s)
        by apply subscribe_fn_frame.
      rewrite <- E1 in HW. destruct (IH _ _ _ HW Hk) as [IH1 IH2].
      rewrite (has_length_ext _ _ _ Harr) in IH1, IH2. by rewrite <- E2.
Qed.

Lemma filter_add_length {T} `{EqDecision T} (A B : T → Prop)
    `{∀ x, Decision (A x)} `{∀ x, Decision (B x)} (a : T) (l : list T) :
  ¬ A a → (∀ x, B x ↔ A x ∨ x = a) →
  length (filter B l) = (length (filter A l) + occ a l)%nat.
Proof.
  intros Ha HB. induction l as [|x l IH]; [done|].
  rewrite !filter_cons, occ_cons.
  destruct (decide (x = a)) as [->|Hne].
  - rewrite decide_True by (apply HB; by right).
    rewrite decide_False by done. simpl. lia.
  - destruct (decide (A x)) as [HA|HA].
    + rewrite decide_True by (apply HB; by left). simpl. lia.
    + rewrite decide_False; [done|]. intros [?| ?]%HB; done.
Qed.

Lemma filter_occ_le {T} `{EqDecision T} (A : T → Prop)
    `{∀ x, Decision (A x)} (a : T) (l : list T) :
  ¬ A a → (length (filter A l) + occ a l ≤ length l)%nat.
Proof.
  intros Ha. induction l as [|x l IH]; [done|].
  rewrite filter_cons, occ_cons. destruct (decide (x = a)) as [->|Hne].
  - rewrite decide_False by done. simpl. lia.
  - destruct (decide (A x)); simpl; lia.
Qed.

Lemma filter_add_perm {T} `{EqDecision T} (A B : T → Prop) (G : T → bool)
    `{∀ x, Decision (A x)} `{∀ x, Decision (B x)} (a : T) (l : list T) :
  ¬ A a → (∀ x, B x ↔ A x ∨ x = a) →
  filter (λ x, B x ∧ G x = true) l ≡ₚ
  filter (λ x, A x ∧ G x = true) l ++ (if G a then replicate (occ a l) a else []).
Proof.
  intros Ha HB. induction l as [|x l IH].
  - simpl. by destruct (G a).
  - rewrite !filter_cons, occ_cons.
    destruct (decide (x = a)) as [->|Hne].
    + rewrite (decide_False (P := A a ∧ G a = true)) by (by intros [? _]).
      destruct (G a) eqn:HG.
      * rewrite decide_True by (split; [apply HB; by right|done]).
        simpl. rewrite IH. by rewrite Permutation_middle.
      * rewrite decide_False by (intros [_ ?]; done).
        rewrite IH. done.
    + destruct (decide (A x ∧ G x = true)) as [[HA HG]|Hn].
      * rewrite decide_True by (split; [apply HB; by left|done]).
        simpl. by rewrite IH.
      * rewrite decide_False; [done|].
        intros [[?| ?]%HB ?]; [|done]. by apply Hn.
Qed.

(** [publish] with an id that is a non-empty string. *)
Lemma publish_eq bundleId r s :
  bundleId ≠ "" →
  state_of (publish (Some bundleId) r s) =
    let s1 := bundleResultCache_put bundleId r s in
    match bundleCallbackQueue s !! bundleId with
    | None | Some [] => s1
    | Some q =>
      set_bundleCallbackQueue (<[bundleId := []]> (bundleCallbackQueue s))
        (foldl (λ s fn, subscribe_fn fn bundleId (VArray r) s) s1 q)
    end.
Proof.
  intros Hne. rewrite publish_state by (by apply bool_decide_eq_false_2).
  destruct (bundleCallbackQueue s !! bundleId) as [q|]; [|done].
  rewrite publish_loop_foldl. destruct q; [done|]. simpl.
  by destruct (put_frame bundleId r s) as (_ & -> & _).
Qed.

Lemma publish_falsy bundleId r s :
  falsy bundleId = true → state_of (publish bundleId r s) = s.
Proof. intros Hf. by rewrite publish_state_falsy. Qed.

Lemma falsy_false bundleId :
  falsy bundleId = false → ∃ id, bundleId = Some id ∧ id ≠ "".
Proof.
  destruct bundleId as [id|]; simpl; [|done].
  intros ?%bool_decide_eq_false. eauto.
Qed.

Lemma foldl_fn_proto q bundleId r s :
  bundleResultCache_proto (foldl (λ s fn, subscribe_fn fn bundleId r s) s q) =
  bundleResultCache_proto s.
Proof.
  revert s. induction q as [|fn q IH]; intros s; simpl; [done|].
  by rewrite IH, subscribe_fn_proto.
Qed.

(** What [publish] leaves alone; the result cache is the one that the
    assignment produced. *)
Lemma publish_frame bundleId r s :
  let s' := state_of (publish (Some bundleId) r s) in
  bundleId ≠ "" →
  bundleIdCache s' = bundleIdCache s ∧
  bundleResultCache s' = bundleResultCache (bundleResultCache_put bundleId r s) ∧
  (∀ id, id ≠ bundleId → bundleCallbackQueue s' !! id = bundleCallbackQueue s !! id) ∧
  default [] (bundleCallbackQueue s' !! bundleId) = [] ∧
  arrays s' = arrays s ∧
  loaders s' = loaders s ∧
  doc_head s' = doc_head s ∧
  length (waiters s') = length (waiters s).
Proof.
  intros s' Hne. unfold s'. rewrite publish_eq by done. cbv zeta.
  destruct (put_frame bundleId r s) as (P1 & P2 & P3 & P4 & P5 & P6 & P7).
  simpl in P1, P2, P3, P4, P5, P6, P7.
  destruct (bundleCallbackQueue s !! bundleId) as [[|fn q]|] eqn:Hq;
    [rewrite P1, P2, P3, P4, P5, P6; by rewrite Hq|
    |rewrite P1, P2, P3, P4, P5, P6; by rewrite Hq].
  remember (fn :: q) as l eqn:Hl.
  destruct (foldl_fn_frame l bundleId (VArray r) (bundleResultCache_put bundleId r s))
    as (E1 & E2 & E3 & E4 & E5 & E6 & E7 & _).
  simpl in *. rewrite E1, E2, E4, E5, E6, E7, lookup_insert_eq, P1, P3, P4, P5, P6.
  repeat split; try done. intros id Hid. by rewrite lookup_insert_ne.
Qed.

Lemma publish_proto bundleId r s :
  bundleId ≠ "" →
  bundleResultCache_proto (state_of (publish (Some bundleId) r s)) =
  bundleResultCache_proto (bundleResultCache_put bundleId r s).
Proof.
  intros Hne. rewrite publish_eq by done. cbv zeta.
  destruct (bundleCallbackQueue s !! bundleId) as [[|fn q]|]; try done.
  remember (fn :: q) as l. simpl. by rewrite foldl_fn_proto.
Qed.

(** [publish] makes [bundleId] settled unless the assignment went to the
    setter of [__proto__]. *)
Lemma publish_settled_iff bundleId r s x :
  bundleId ≠ "" →
  settled (state_of (publish (Some bundleId) r s)) x ↔
  settled s x ∨
  (x = bundleId ∧ assoc bundleId object_prototype ≠ Some ProtoAccessor).
Proof.
  intros Hne. unfold settled.
  destruct (publish_frame bundleId r s Hne) as (_ & -> & _).
  destruct (put_cases bundleId r s) as [(-> & _ & H)|(-> & Hn & Ha & _)].
  - destruct (decide (x = bundleId)) as [->|Hx].
    + rewrite lookup_insert_eq. split; [|eauto]. intros _. by destruct H; [left|right].
    + rewrite lookup_insert_ne by done. split; [by left|]. by intros [?|[? _]].
  - split; [by left|]. intros [?|[-> ?]]; done.
Qed.

Lemma winv_frame w total cb G P s s' :
  winv w total cb G P s →
  waiters s' !! w = waiters s !! w →
  (∀ id, settled s' id ↔ settled s id) →
  calls w (log s') = calls w (log s) →
  (∀ id, ¬ settled s id →
     occ w (default [] (bundleCallbackQueue s' !! id)) =
     occ w (default [] (bundleCallbackQueue s !! id))) →
  winv w total cb G P s'.
Proof.
  intros [(D & HW & HD & HC) HL HQ] Ew Es Ec Eq.
  assert (Hn : nsettled s' P = nsettled s P).
  { unfold nsettled. by rewrite (list_filter_iff (settled s') (settled s)). }
  split; [|done|].
  - exists D. rewrite Ew, Hn, Ec. split; [done|]. split; [|done].
    rewrite HD. apply reflexive_eq, list_filter_iff. intros id. by rewrite Es.
  - intros id Hid. rewrite Eq by (by rewrite <- Es). apply HQ. by rewrite <- Es.
Qed.

Lemma nsettled_le s P : (nsettled s P ≤ length P)%nat.
Proof. apply length_filter. Qed.

(** Closures that are not in the queue are not called by the drain. *)
Lemma foldl_fn_other w q bundleId r s :
  w ∉ q →
  let s' := foldl (λ s fn, subscribe_fn fn bundleId r s) s q in
  waiters s' !! w = waiters s !! w ∧ calls w (log s') = calls w (log s).
Proof.
  revert s. induction q as [|fn q IH]; intros s Hw; simpl; [done|].
  apply not_elem_of_cons in Hw as [Hne Hw].
  destruct (IH (subscribe_fn fn bundleId r s) Hw) as [-> ->].
  apply subscribe_fn_other. done.
Qed.

Lemma occ_zero_not_in {A} `{EqDecision A} (x : A) l : occ x l = 0%nat → x ∉ l.
Proof.
  induction l as [|y l IH]; intros Ho Hin; [by apply elem_of_nil in Hin|].
  rewrite occ_cons in Ho. destruct (decide (y = x)) as [->|Hne]; [lia|].
  apply elem_of_cons in Hin as [->|Hin]; [done|]. by apply IH.
Qed.

Lemma publish_absent w bundleId r s :
  bundleId ≠ "" →
  occ w (default [] (bundleCallbackQueue s !! bundleId)) = 0%nat →
  let s' := state_of (publish (Some bundleId) r s) in
  waiters s' !! w = waiters s !! w ∧ calls w (log s') = calls w (log s).
Proof.
  intros Hne Ho%occ_zero_not_in. cbv zeta. rewrite publish_eq by done. cbv zeta.
  destruct (put_frame bundleId r s) as (_ & _ & _ & P4 & _ & _ & P7).
  simpl in P4, P7.
  destruct (bundleCallbackQueue s !! bundleId) as [[|fn q]|];
    [by rewrite P4, P7| |by rewrite P4, P7].
  remember (fn :: q) as l. simpl in Ho.
  destruct (foldl_fn_other w l bundleId (VArray r)
              (bundleResultCache_put bundleId r s) Ho) as [E1 E2].
  simpl. by rewrite E1, E2, P4, P7.
Qed.

Lemma plain_not_inherited k : plain k → assoc k object_prototype = None.
Proof. by intros (? & _). Qed.

Lemma winv_publish w total cb G P bundleId r s :
  wf s →
  Forall plain P →
  winv w total cb G P s →
  (∀ id, bundleId = Some id → id ≠ "" → id ∈ P → ¬ settled s id →
         G id = nonempty (array_at s r)) →
  winv w total cb G P (state_of (publish bundleId r s)).
Proof.
  intros Hwf Hplain Hinv HG.
  destruct (falsy bundleId) eqn:Hf; [by rewrite publish_falsy|].
  apply falsy_false in Hf as (id & -> & Hne).
  destruct (publish_frame id r s Hne) as (E1 & E2 & E3 & E4 & E5 & E6 & E7 & E8).
  destruct (decide (settled s id)) as [Hs|Hs].
  - (* the id was settled already: its queue is empty *)
    assert (Heq : state_of (publish (Some id) r s) = bundleResultCache_put id r s).
    { rewrite publish_eq by done. simpl.
      destruct (bundleCallbackQueue s !! id) as [q|] eqn:Hq; [|done].
      by rewrite (wf_settled_queue _ Hwf _ _ Hs Hq). }
    rewrite Heq.
    destruct (put_frame id r s) as (_ & P2 & _ & P4 & _ & _ & P7).
    simpl in P2, P4, P7.
    eapply winv_frame; [done|by rewrite P4| |by rewrite P7|by rewrite P2].
    intros id'. split; [|apply put_settled].
    by intros [->|?]%put_settled_inv.
  - assert (Hcase : assoc id object_prototype = Some ProtoAccessor ∨
                    assoc id object_prototype ≠ Some ProtoAccessor).
    { destruct (assoc id object_prototype) as [[]|]; auto. }
    destruct Hcase as [Hacc|Hacc].
    { (* the assignment went to the setter of __proto__: no id of [P] settles *)
      assert (Hnot : id ∉ P).
      { intros Hin. rewrite Forall_forall in Hplain.
        by rewrite (plain_not_inherited _ (Hplain _ Hin)) in Hacc. }
      assert (Ho : occ w (default [] (bundleCallbackQueue s !! id)) = 0%nat).
      { rewrite (winv_queue _ _ _ _ _ _ Hinv id Hs). by apply occ_not_in. }
      destruct (publish_absent w id r s Hne Ho) as [Ew Ec].
      eapply winv_frame; [done|done| |done|].
      - intros x. rewrite publish_settled_iff by done.
        split; [by intros [?|[_ ?]]|by left].
      - intros id' Hid'. destruct (decide (id' = id)) as [->|Hne'].
        + by rewrite E4, Ho.
        + by rewrite E3. }
    (* the id settles now: its queue is drained *)
    destruct Hinv as [(D & HW & HD & HC) HL HQ].
    set (s' := state_of (publish (Some id) r s)) in *.
    assert (Hset : ∀ x, settled s' x ↔ settled s x ∨ x = id).
    { intros x. unfold s'. rewrite publish_settled_iff by done.
      split; [by intros [?|[? _]]; auto|by intros [?|?]; auto]. }
    assert (Hn : nsettled s' P = (nsettled s P + occ id P)%nat).
    { unfold nsettled. by apply filter_add_length. }
    pose proof (filter_occ_le (settled s) id P Hs) as Hle.
    fold (nsettled s P) in Hle.
    set (q := default [] (bundleCallbackQueue s !! id)).
    assert (Hk : occ w q = occ id P) by (by apply HQ).
    set (s1 := bundleResultCache_put id r s).
    destruct (put_frame id r s) as (_ & _ & P3 & P4 & _ & _ & P7).
    fold s1 in P3, P4, P7. simpl in P3, P4, P7.
    assert (Hfold : waiters s' =
                      waiters (foldl (λ s fn, subscribe_fn fn id (VArray r) s) s1 q) ∧
                    log s' =
                      log (foldl (λ s fn, subscribe_fn fn id (VArray r) s) s1 q)).
    { unfold s', q. rewrite publish_eq by done. simpl. fold s1.
      by destruct (bundleCallbackQueue s !! id) as [[|fn q0]|]. }
    destruct Hfold as [Fw Fl].
    rewrite <- P4 in HW.
    destruct (foldl_fn_waiter w cb id (VArray r) q s1 _ _ HW) as [HW' HC']; [lia|].
    simpl in HW', HC'. rewrite <- Fw in HW'. rewrite <- Fl in HC'.
    rewrite P7 in HC'.
    replace (array_at s1 r) with (array_at s r) in *
      by (unfold array_at; by rewrite P3).
    split; [|done|].
    + eexists. split; [|split].
      * rewrite HW'. do 2 f_equal. lia.
      * rewrite (filter_add_perm (settled s) (settled s') G id P Hs Hset).
        rewrite Hk. rewrite HD.
        destruct (decide (id ∈ P)) as [Hin|Hin].
        -- by rewrite (HG id eq_refl Hne Hin Hs).
        -- rewrite (occ_not_in id P Hin). simpl.
           by destruct (G id), (nonempty (array_at s r)).
      * rewrite HC', HC. rewrite Hk, Hn.
        destruct (decide (occ id P = 0%nat)) as [Hz|Hz].
        -- rewrite Hz, Nat.add_0_r.
           rewrite (decide_False (P := 0%nat ≠ 0%nat ∧ _)) by (by intros [? _]).
           rewrite app_nil_r.
           replace (D ++ (if nonempty (array_at s r) then replicate 0 id else []))
             with D by (destruct (nonempty _); by rewrite app_nil_r).
           done.
        -- rewrite (decide_False (P := nsettled s P = total ∧ _)) by (intros [? _]; lia).
           simpl. apply decide_ext. lia.
    + intros id' Hid'. rewrite E3; [apply HQ|]; intros ?; apply Hid', Hset; auto.
Qed.

(** * The per-path callback of [loadFiles] in closed form *)

Lemma loadFiles_fn_eq l path result dp s L :
  loaders s !! l = Some L →
  loadFiles_fn l path result dp s =
    if terminal result dp then
      let s2 := resolved l L path result dp s in
      if l_numWaiting L - 1 =? 0
      then loadjs_callback (l_bundleId L) (l_args L) (l_pathsNotFound L)
             (emit (LoadCallback l (array_at s2 (l_pathsNotFound L))) s2)
      else s2
    else s.
Proof.
  intros HL. unfold loadFiles_fn, resolved, terminal, failing, array_at, push.
  rewrite HL. destruct (String.eqb result "e") eqn:He.
  - apply String.eqb_eq in He. subst result. simpl. done.
  - destruct (String.eqb result "b"), dp; simpl; done.
Qed.

Lemma loadFiles_fn_dangling l path result dp s :
  loaders s !! l = None → loadFiles_fn l path result dp s = s.
Proof. intros HL. unfold loadFiles_fn. by rewrite HL. Qed.

Lemma resolved_frame l L path result dp s :
  let s' := resolved l L path result dp s in
  bundleIdCache s' = bundleIdCache s ∧
  bundleResultCache s' = bundleResultCache s ∧
  bundleCallbackQueue s' = bundleCallbackQueue s ∧
  waiters s' = waiters s ∧
  doc_head s' = doc_head s ∧
  log s' = log s ∧
  length (loaders s') = length (loaders s) ∧
  length (arrays s') = length (arrays s).
Proof.
  unfold resolved. destruct (failing result dp); simpl;
    rewrite ?length_insert, ?length_alter; done.
Qed.

Lemma resolved_proto l L path result dp s :
  bundleResultCache_proto (resolved l L path result dp s) = bundleResultCache_proto s.
Proof. unfold resolved. by destruct (failing result dp). Qed.

Lemma wf_resolved l L path result dp s :
  wf s → loaders s !! l = Some L → wf (resolved l L path result dp s).
Proof.
  intros Hwf HL. unfold resolved.
  set (s1 := if failing result dp then _ else s).
  assert (Hwf1 : wf s1 ∧ loaders s1 = loaders s).
  { unfold s1. destruct (failing result dp); [|done].
    split; [by apply wf_push|done]. }
  destruct Hwf1 as [[H1 H2 H3 H4 H5 H6] HL1]. clearbody s1. rewrite HL1 in *.
  split; simpl; rewrite ?length_insert; try done.
  - eapply (log_ok_mono s1); [done|simpl; rewrite HL1, length_insert; lia|done].
  - intros l' L' id HL' Hid. destruct (decide (l' = l)) as [->|Hne].
    + rewrite list_lookup_insert_eq in HL' by (by eapply lookup_lt_Some).
      injection HL' as <-. simpl in Hid. by eapply H5.
    + rewrite list_lookup_insert_ne in HL' by done. by eapply H5.
  - assert (Hsame : ∀ l' L', <[l:=Loader (l_numWaiting L - 1) (l_pathsNotFound L)
                                  (l_bundleId L) (l_args L)]> (loaders s) !! l' = Some L' →
                             ∃ L'', loaders s !! l' = Some L'' ∧ l_bundleId L'' = l_bundleId L').
    { intros l' L' HL'. destruct (decide (l' = l)) as [->|Hne].
      - rewrite list_lookup_insert_eq in HL' by (by eapply lookup_lt_Some).
        injection HL' as <-. eauto.
      - rewrite list_lookup_insert_ne in HL' by done. eauto. }
    intros l1 l2 L1 L2 id HL1' HL2' Hid1 Hid2.
    destruct (Hsame _ _ HL1') as (L1' & ? & E1).
    destruct (Hsame _ _ HL2') as (L2' & ? & E2).
    eapply (H6 l1 l2 L1' L2' id); [done|done|congruence|congruence].
Qed.

Lemma wf_loadFiles_fn l path result dp s : wf s → wf (loadFiles_fn l path result dp s).
Proof.
  intros Hwf. destruct (loaders s !! l) as [L|] eqn:HL.
  - rewrite (loadFiles_fn_eq _ _ _ _ _ _ HL).
    destruct (terminal result dp); [|done]. cbv zeta.
    pose proof (wf_resolved l L path result dp s Hwf HL) as Hwf2.
    destruct (l_numWaiting L - 1 =? 0); [|done].
    apply wf_loadjs_callback, wf_emit; [done|].
    destruct (resolved_frame l L path result dp s) as (_ & _ & _ & _ & _ & _ & E & _).
    unfold event_ok. rewrite E. by eapply lookup_lt_Some.
  - by rewrite loadFiles_fn_dangling.
Qed.

Lemma wf_done bundleId s : wf s → wf (done bundleId s).
Proof. intros ?. by apply wf_publish, wf_set_arrays. Qed.

Lemma wf_step o s : wf s → wf (step o s).
Proof.
  intros Hwf. destruct o as [paths arg1 arg2|deps args|bundleId|k ev]; simpl.
  - destruct (loadjs paths arg1 arg2 s) eqn:Hl; [|done]. by eapply wf_loadjs.
  - by apply wf_subscribe.
  - by apply wf_done.
  - destruct (doc_head s !! k); [|done]. by apply wf_loadFiles_fn.
Qed.


Lemma reachable_wf s : reachable s → wf s.
Proof. induction 1; [apply wf_init|by apply wf_step]. Qed.

Lemma reachable_run ops s : reachable s → reachable (run ops s).
Proof.
  revert s. induction ops as [|o ops IH]; intros s Hs; [done|].
  apply IH. by constructor.
Qed.


(** * The waiter invariant along a run *)

Lemma winv_lookup w total cb G P s :
  winv w total cb G P s → (w < length (waiters s))%nat.
Proof. intros [(D & HW & _) _ _]. by eapply lookup_lt_Some. Qed.

Lemma winv_subscribe_body_other w total cb G P w' bundleId s :
  w' ≠ w →
  winv w total cb G P s → winv w total cb G P (subscribe_body w' bundleId s).
Proof.
  intros Hne Hinv. rewrite subscribe_body_eq.
  destruct (truthy (bundleResultCache_get s bundleId)) eqn:Hc.
  - set (r := bundleResultCache_get s bundleId).
    destruct (subscribe_fn_other w w' bundleId r s Hne) as [E1 E2].
    destruct (subscribe_fn_frame w' bundleId r s) as (_ & F2 & F3 & _).
    simpl in *. eapply winv_frame; [done|done| |done|].
    + intros id. unfold settled. by rewrite F2.
    + intros id _. by rewrite F3.
  - eapply winv_frame; [done|done|done|done|]. simpl.
    intros id _. destruct (decide (id = bundleId)) as [->|?].
    + rewrite lookup_insert_eq. simpl. rewrite occ_app.
      unfold occ at 2. rewrite filter_cons, decide_False by done. simpl. lia.
    + by rewrite lookup_insert_ne.
Qed.

Lemma subscribe_frame bundleIds callbackFn s :
  let s' := subscribe bundleIds callbackFn s in
  bundleIdCache s' = bundleIdCache s ∧
  bundleResultCache s' = bundleResultCache s ∧
  arrays s' = arrays s ∧
  loaders s' = loaders s ∧
  doc_head s' = doc_head s ∧
  length (waiters s') = S (length (waiters s)).
Proof.
  cbv zeta. rewrite subscribe_eq.
  set (s0 := set_waiters _ s).
  assert (H0 : bundleIdCache s0 = bundleIdCache s ∧
               bundleResultCache s0 = bundleResultCache s ∧
               arrays s0 = arrays s ∧ loaders s0 = loaders s ∧
               doc_head s0 = doc_head s ∧
               length (waiters s0) = S (length (waiters s))).
  { simpl. rewrite length_app. simpl. repeat split; try done. lia. }
  clearbody s0.
  revert s0 H0. induction (reverse (listify bundleIds)) as [|x l IH];
    intros s0 H0; simpl; [done|].
  apply IH. destruct H0 as (E1 & E2 & E3 & E4 & E5 & E6).
  rewrite subscribe_body_length. rewrite subscribe_body_eq.
  destruct (truthy (bundleResultCache_get s0 x)); [|done].
  destruct (subscribe_fn_frame (length (waiters s)) x (bundleResultCache_get s0 x) s0)
    as (F1 & F2 & F3 & F4 & F5 & F6 & F7).
  simpl in *. by rewrite F1, F2, F4, F5, F6.
Qed.

Lemma winv_subscribe_other w total cb G P bundleIds callbackFn s :
  winv w total cb G P s → winv w total cb G P (subscribe bundleIds callbackFn s).
Proof.
  intros Hinv. pose proof (winv_lookup _ _ _ _ _ _ Hinv) as Hlt.
  rewrite subscribe_eq.
  assert (Hne : length (waiters s) ≠ w) by lia.
  set (s0 := set_waiters _ s).
  assert (H0 : winv w total cb G P s0).
  { eapply winv_frame; [done| |done|done|done].
    simpl. by rewrite lookup_app_l. }
  clearbody s0. revert s0 H0.
  induction (reverse (listify bundleIds)) as [|x l IH]; intros s0 H0; simpl; [done|].
  apply IH. by apply winv_subscribe_body_other.
Qed.

(** Registering one more id for the waiter itself. *)
Lemma winv_subscribe_body w total cb G P bundleId s :
  plain bundleId →
  winv w total cb G P s →
  (length P < total)%nat →
  (settled s bundleId → G bundleId = failed_in s bundleId) →
  winv w total cb G (bundleId :: P) (subscribe_body w bundleId s).
Proof.
  intros Hplain [(D & HW & HD & HC) HL HQ] Hlen HG.
  pose proof (nsettled_le s P) as Hns.
  rewrite decide_False in HC by (intros [? _]; lia).
  rewrite subscribe_body_eq, (get_plain _ _ Hplain).
  destruct (bundleResultCache s !! bundleId) as [r|] eqn:Hc; simpl.
  - assert (Hs : settled s bundleId) by (unfold settled; rewrite Hc; eauto).
    specialize (HG Hs). unfold failed_in in HG. rewrite Hc in HG.
    rewrite (subscribe_fn_eq _ _ _ _ _ HW). cbv zeta.
    change (has_length s (VArray r)) with (nonempty (array_at s r)).
    set (W' := fn_waiter _ _ _).
    assert (Hn : nsettled (set_log (log s ++ fn_events w W')
                            (set_waiters (<[w:=W']> (waiters s)) s)) (bundleId :: P) =
                 S (nsettled s P)).
    { unfold nsettled. rewrite filter_cons, decide_True by done. done. }
    split.
    + exists (w_depsNotFound W'). rewrite Hn. simpl.
      rewrite list_lookup_insert_eq by (by eapply lookup_lt_Some).
      split; [|split].
      * unfold W', fn_waiter. simpl. do 2 f_equal. lia.
      * rewrite filter_cons. unfold W', fn_waiter. simpl. rewrite <- HG.
        destruct (G bundleId).
        -- rewrite decide_True by done.
           rewrite <- Permutation_cons_append. by constructor.
        -- rewrite decide_False by (by intros [_ ?]). done.
      * rewrite calls_app, HC, calls_fn_events. simpl.
        destruct (Z.of_nat total - Z.of_nat (nsettled s P) - 1 =? 0) eqn:HN.
        -- apply Z.eqb_eq in HN. rewrite decide_True by lia. done.
        -- apply Z.eqb_neq in HN. rewrite decide_False by (intros [? _]; lia). done.
    + simpl. lia.
    + simpl. intros id Hid. rewrite occ_cons.
      rewrite decide_False by (intros ->; done). by apply HQ.
  - assert (Hs : ¬ settled s bundleId) by (unfold settled; rewrite Hc; by intros [? ?]).
    assert (Hn : nsettled (set_bundleCallbackQueue
                   (<[bundleId:=default [] (bundleCallbackQueue s !! bundleId) ++ [w]]>
                      (bundleCallbackQueue s)) s) (bundleId :: P) = nsettled s P).
    { unfold nsettled. rewrite filter_cons, decide_False by done. done. }
    split.
    + exists D. rewrite Hn. simpl. split; [done|]. split.
      * rewrite filter_cons, decide_False by (by intros [? _]). done.
      * rewrite HC. rewrite decide_False by (intros [? _]; lia). done.
    + simpl. lia.
    + simpl. intros id Hid. rewrite occ_cons.
      destruct (decide (bundleId = id)) as [<-|Hne].
      * rewrite lookup_insert_eq. simpl. rewrite occ_app, (HQ _ Hs).
        unfold occ at 2. rewrite filter_cons, decide_True by done. simpl. lia.
      * rewrite lookup_insert_ne by done. by apply HQ.
Qed.

Lemma subscribe_body_frame w bundleId s :
  let s' := subscribe_body w bundleId s in
  bundleResultCache s' = bundleResultCache s ∧ arrays s' = arrays s.
Proof.
  rewrite subscribe_body_eq.
  destruct (truthy (bundleResultCache_get s bundleId)); [|done].
  destruct (subscribe_fn_frame w bundleId (bundleResultCache_get s bundleId) s)
    as (_ & F2 & _ & F4 & _). done.
Qed.

Lemma failed_in_ext s s' bundleId :
  bundleResultCache s' = bundleResultCache s → arrays s' = arrays s →
  failed_in s' bundleId = failed_in s bundleId.
Proof. intros E1 E2. unfold failed_in, array_at. by rewrite E1, E2. Qed.

Lemma winv_subscribe_loop w total cb G L P s :
  Forall plain L →
  winv w total cb G P s →
  (length P + length L ≤ total)%nat →
  (∀ id, id ∈ L → settled s id → G id = failed_in s id) →
  winv w total cb G (reverse L ++ P)
    (foldl (λ s' bundleId, subscribe_body w bundleId s') s L).
Proof.
  revert P s. induction L as [|x L IH]; intros P s Hpl Hinv Hlen HG; [done|].
  simpl in *. rewrite reverse_cons, <- app_assoc. simpl.
  destruct (subscribe_body_frame w x s) as [E1 E2].
  apply Forall_cons in Hpl as [Hx Hpl].
  apply IH; [done| | |].
  - apply winv_subscribe_body; [done|done|lia|]. apply HG. by left.
  - simpl. lia.
  - intros id Hid Hs. unfold settled in Hs. rewrite E1 in Hs.
    rewrite (failed_in_ext s (subscribe_body w x s)) by done.
    apply HG; [by right|done].
Qed.

(** The invariant holds right after the waiter's own [subscribe]. *)
Lemma winv_subscribe_new bundleIds cb G s :
  wf s →
  Forall plain (listify bundleIds) →
  (∀ id, id ∈ listify bundleIds → settled s id → G id = failed_in s id) →
  winv (length (waiters s)) (length (listify bundleIds)) cb G (listify bundleIds)
    (subscribe bundleIds cb s).
Proof.
  intros Hwf Hplain HG. rewrite subscribe_eq.
  set (w := length (waiters s)). set (ids := listify bundleIds) in *.
  set (s0 := set_waiters _ s).
  assert (H0 : winv w (length ids) cb G [] s0).
  { split.
    - exists []. simpl. split; [|split].
      + rewrite lookup_app_r by done. fold w. rewrite Nat.sub_diag. simpl.
        do 2 f_equal. unfold nsettled. simpl. lia.
      + done.
      + rewrite decide_False.
        * apply calls_none. intros d Hd.
          pose proof (wf_log _ Hwf) as Hlog. rewrite Forall_forall in Hlog.
          specialize (Hlog _ Hd). simpl in Hlog. fold w in Hlog. lia.
        * unfold nsettled. simpl. intros [? ?]. congruence.
    - simpl. lia.
    - intros id _. simpl. unfold occ at 2. simpl. apply occ_not_in.
      destruct (bundleCallbackQueue s !! id) as [q|] eqn:Hq; simpl.
      + intros Hin. pose proof (wf_queue_refs _ Hwf _ _ _ Hq Hin). fold w in H. lia.
      + apply not_elem_of_nil. }
  assert (Hpr : Forall plain (reverse ids)) by (by apply Forall_reverse).
  pose proof (winv_subscribe_loop w (length ids) cb G (reverse ids) [] s0 Hpr H0) as Hl.
  rewrite reverse_involutive, app_nil_r in Hl. apply Hl.
  - simpl. by rewrite length_reverse.
  - intros id Hid Hs. rewrite elem_of_reverse in Hid.
    rewrite (failed_in_ext s s0) by done. by apply HG.
Qed.

Lemma settled_failed_when_settled bundleId s ops :
  settled s bundleId → failed_when_settled bundleId s ops = failed_in s bundleId.
Proof. intros Hs. destruct ops; simpl; [done|]. by rewrite decide_True. Qed.

Lemma loadjs_frame paths arg1 arg2 s s' :
  loadjs paths arg1 arg2 s = Returned s' →
  bundleResultCache s' = bundleResultCache s ∧
  bundleCallbackQueue s' = bundleCallbackQueue s ∧
  waiters s' = waiters s ∧
  log s' = log s.
Proof.
  unfold loadjs. destruct (bundleId_of arg1) as [id|].
  - destruct (bundleIdCache_has s id); [done|]. intros [= <-].
    match goal with |- context [loadFiles ?p ?b ?a ?y ?s0] =>
      destruct (loadFiles_eq p b a y s0) as (E1 & E2 & E3 & E4 & E5 & _)
    end.
    simpl in *. by rewrite E2, E3, E4, E5.
  - intros [= <-].
    match goal with |- context [loadFiles ?p ?b ?a ?y ?s0] =>
      destruct (loadFiles_eq p b a y s0) as (E1 & E2 & E3 & E4 & E5 & _)
    end.
    simpl in *. by rewrite E2, E3, E4, E5.
Qed.

Lemma loadFiles_proto paths bundleId args async s :
  bundleResultCache_proto (loadFiles paths bundleId args async s) =
  bundleResultCache_proto s.
Proof.
  unfold loadFiles. set (s0 := set_loaders _ _).
  change (bundleResultCache_proto s) with (bundleResultCache_proto s0).
  clearbody s0. revert s0.
  induction (listify paths) as [|x l IH]; intros s0; simpl; [done|].
  by rewrite IH.
Qed.

Lemma loadjs_proto paths arg1 arg2 s s' :
  loadjs paths arg1 arg2 s = Returned s' →
  bundleResultCache_proto s' = bundleResultCache_proto s.
Proof.
  unfold loadjs. destruct (bundleId_of arg1) as [id'|].
  - destruct (bundleIdCache_has s id'); [done|]. intros [= <-].
    by rewrite loadFiles_proto.
  - intros [= <-]. by rewrite loadFiles_proto.
Qed.

(** [publish] seen from the state it produces. *)
Lemma put_insert k r s :
  assoc k object_prototype ≠ Some ProtoAccessor →
  bundleResultCache_put k r s =
    set_bundleResultCache (<[k := r]> (bundleResultCache s)) s.
Proof.
  intros Ha. unfold bundleResultCache_put.
  destruct (bundleResultCache s !! k); [done|].
  by destruct (assoc k object_prototype) as [[]|].
Qed.

Lemma put_insert_plain k r s :
  plain k →
  bundleResultCache_put k r s =
    set_bundleResultCache (<[k := r]> (bundleResultCache s)) s.
Proof.
  intros Hp. apply put_insert. by rewrite (plain_not_inherited _ Hp).
Qed.

Lemma winv_publish_post w total cb G P bundleId r s :
  wf s →
  Forall plain P →
  winv w total cb G P s →
  (∀ id, id ∈ P → ¬ settled s id → settled (state_of (publish bundleId r s)) id →
         G id = failed_in (state_of (publish bundleId r s)) id) →
  winv w total cb G P (state_of (publish bundleId r s)).
Proof.
  intros Hwf Hplain Hinv HG. apply winv_publish; [done|done|done|].
  intros id -> Hne Hin Hs.
  destruct (publish_frame id r s Hne) as (_ & E2 & _ & _ & E5 & _).
  rewrite Forall_forall in Hplain.
  rewrite (put_insert_plain _ _ _ (Hplain _ Hin)) in E2.
  change (bundleResultCache (set_bundleResultCache ?m s)) with m in E2.
  rewrite HG; [|done|done|].
  - unfold failed_in, array_at. by rewrite E2, lookup_insert_eq, E5.
  - unfold settled. rewrite E2, lookup_insert_eq. eauto.
Qed.

Lemma winv_loadFiles_fn w total cb G P l path result dp s :
  wf s →
  Forall plain P →
  winv w total cb G P s →
  (∀ id, id ∈ P → ¬ settled s id → settled (loadFiles_fn l path result dp s) id →
         G id = failed_in (loadFiles_fn l path result dp s) id) →
  winv w total cb G P (loadFiles_fn l path result dp s).
Proof.
  intros Hwf Hplain Hinv. destruct (loaders s !! l) as [L|] eqn:HL.
  - rewrite (loadFiles_fn_eq _ _ _ _ _ _ HL).
    destruct (terminal result dp); [|done]. cbv zeta.
    pose proof (wf_resolved l L path result dp s Hwf HL) as Hwf2.
    destruct (resolved_frame l L path result dp s)
      as (E1 & E2 & E3 & E4 & E5 & E6 & E7 & E8).
    set (s2 := resolved l L path result dp s) in *.
    assert (Hinv2 : winv w total cb G P s2).
    { eapply winv_frame; [done|by rewrite E4| |by rewrite E6|].
      - intros id. unfold settled. by rewrite E2.
      - intros id _. by rewrite E3. }
    clearbody s2.
    destruct (l_numWaiting L - 1 =? 0); [|done].
    unfold loadjs_callback.
    set (s3 := success_or_fail _ _ _).
    assert (Hwf3 : wf s3).
    { apply wf_success_or_fail, wf_emit; [done|].
      unfold event_ok. rewrite E7. by eapply lookup_lt_Some. }
    assert (E : bundleResultCache s3 = bundleResultCache s ∧
                bundleCallbackQueue s3 = bundleCallbackQueue s ∧
                waiters s3 = waiters s ∧
                calls w (log s3) = calls w (log s)).
    { unfold s3. rewrite success_or_fail_eq. simpl.
      rewrite E2, E3, E4, E6. repeat split; try done.
      by rewrite !calls_app, calls_user_events, !app_nil_r. }
    destruct E as (F2 & F3 & F4 & F6).
    intros HG. apply winv_publish_post; [done|done| |].
    + eapply winv_frame; [exact Hinv|by rewrite F4| |done|].
      * intros id. unfold settled. by rewrite F2.
      * intros id _. by rewrite F3.
    + intros id Hin Hs. apply HG; [done|]. unfold settled in *. by rewrite <- F2.
  - by rewrite loadFiles_fn_dangling.
Qed.

Lemma winv_step w total cb G P o s :
  wf s →
  Forall plain P →
  winv w total cb G P s →
  (∀ id, id ∈ P → ¬ settled s id → settled (step o s) id →
         G id = failed_in (step o s) id) →
  winv w total cb G P (step o s).
Proof.
  intros Hwf Hplain Hinv. destruct o as [paths arg1 arg2|deps args|bundleId|k ev]; simpl.
  - destruct (loadjs paths arg1 arg2 s) as [s'|] eqn:Hl; [|done]. intros _.
    destruct (loadjs_frame _ _ _ _ _ Hl) as (E1 & E2 & E3 & E4).
    eapply winv_frame; [done|by rewrite E3| |by rewrite E4|].
    + intros id. unfold settled. by rewrite E1.
    + intros id _. by rewrite E2.
  - intros _. unfold ready. by apply winv_subscribe_other.
  - unfold done, done_completion. intros HG.
    apply winv_publish_post; [by apply wf_set_arrays|done| |done].
    eapply winv_frame; [done|done|done|done|done].
  - destruct (doc_head s !! k) as [e|]; [|done].
    unfold onevent. by apply winv_loadFiles_fn.
Qed.

(** The result cache only grows. *)
Lemma publish_settled bundleId r s id :
  settled s id → settled (state_of (publish bundleId r s)) id.
Proof.
  intros Hs. destruct (falsy bundleId) eqn:Hf; [by rewrite publish_falsy|].
  apply falsy_false in Hf as (id' & -> & Hne).
  rewrite publish_settled_iff by done. by left.
Qed.

Lemma loadFiles_fn_settled l path result dp s id :
  settled s id → settled (loadFiles_fn l path result dp s) id.
Proof.
  intros Hs. destruct (loaders s !! l) as [L|] eqn:HL.
  - rewrite (loadFiles_fn_eq _ _ _ _ _ _ HL).
    destruct (terminal result dp); [|done]. cbv zeta.
    destruct (resolved_frame l L path result dp s) as (_ & E2 & _).
    set (s2 := resolved l L path result dp s) in *. clearbody s2.
    destruct (l_numWaiting L - 1 =? 0).
    + unfold loadjs_callback. apply publish_settled.
      rewrite success_or_fail_eq. unfold settled in *. simpl. by rewrite E2.
    + unfold settled. by rewrite E2.
  - by rewrite loadFiles_fn_dangling.
Qed.

Lemma settled_step o s id : settled s id → settled (step o s) id.
Proof.
  intros Hs. destruct o as [paths arg1 arg2|deps args|bundleId|k ev]; simpl.
  - destruct (loadjs paths arg1 arg2 s) as [s'|] eqn:Hl; [|done].
    destruct (loadjs_frame _ _ _ _ _ Hl) as (E1 & _).
    unfold settled. by rewrite E1.
  - destruct (subscribe_frame deps args s) as (_ & E2 & _).
    unfold settled, ready. by rewrite E2.
  - unfold done, done_completion. by apply publish_settled.
  - destruct (doc_head s !! k) as [e|]; [|done].
    by apply loadFiles_fn_settled.
Qed.

Lemma settled_run ops s id : settled s id → settled (run ops s) id.
Proof.
  revert s. induction ops as [|o ops IH]; intros s Hs; [done|].
  apply IH. by apply settled_step.
Qed.

Lemma winv_run w total cb P ops s G :
  wf s →
  Forall plain P →
  winv w total cb G P s →
  (∀ id, id ∈ P → ¬ settled s id → G id = failed_when_settled id s ops) →
  winv w total cb G P (run ops s).
Proof.
  revert s. induction ops as [|o ops IH]; intros s Hwf Hplain Hinv HG; [done|].
  simpl. apply IH; [|done| |].
  - by apply wf_step.
  - apply winv_step; [done|done|done|].
    intros id Hin Hs Hs'. rewrite (HG id Hin Hs). simpl.
    rewrite decide_False by done. by apply settled_failed_when_settled.
  - intros id Hin Hs'.
    assert (Hs : ¬ settled s id) by (intros ?; by apply Hs', settled_step).
    rewrite (HG id Hin Hs). simpl. by rewrite decide_False.
Qed.

Lemma filter_iff_in {T} (P1 P2 : T → Prop)
    `{∀ x, Decision (P1 x)} `{∀ x, Decision (P2 x)} (l : list T) :
  (∀ x, x ∈ l → P1 x ↔ P2 x) → filter P1 l = filter P2 l.
Proof.
  induction l as [|x l IH]; intros Hiff; [done|].
  rewrite !filter_cons. rewrite IH by (intros y Hy; apply Hiff; by right).
  apply decide_ext, Hiff. by left.
Qed.

Lemma filter_all {T} (P : T → Prop) `{∀ x, Decision (P x)} (l : list T) :
  (∀ x, x ∈ l → P x) → filter P l = l.
Proof.
  induction l as [|x l IH]; intros Hall; [done|].
  rewrite filter_cons, decide_True by (apply Hall; by left).
  f_equal. apply IH. intros y Hy. apply Hall. by right.
Qed.

(** * The registry: [subscribe] and [ready] *)

(** X15.  A waiter registered by [subscribe] (that is, by [loadjs.ready])
    for a non-empty list of plain bundle ids has its callback called
    exactly once, and only once every requested id has settled: as long as
    some id has no cached result the callback has not been called, and in
    every later state in which all ids are settled it has been called
    exactly once.  The argument of that call lists the requested ids whose
    result was a non-empty list of failed paths when they settled (each id
    as often as it was requested, in the order of settlement). *)
Theorem subscribe_callback_once (s : state) (bundleIds : str_or_list)
    (callbackFn : options) (ops : list op) :
  reachable s →
  listify bundleIds ≠ [] →
  Forall plain (listify bundleIds) →
  let w := length (waiters s) in
  let s1 := subscribe bundleIds callbackFn s in
  let s' := run ops s1 in
  ((∃ id, id ∈ listify bundleIds ∧ ¬ settled s' id) → calls w (log s') = []) ∧
  ((∀ id, id ∈ listify bundleIds → settled s' id) →
     ∃ depsNotFound,
       calls w (log s') = [depsNotFound] ∧
       depsNotFound ≡ₚ
         filter (λ id, failed_when_settled id s1 ops = true) (listify bundleIds)).
Proof.
  intros Hreach Hne Hplain w s1 s'.
  set (ids := listify bundleIds) in *.
  set (G := λ id, failed_when_settled id s1 ops).
  pose proof (reachable_wf _ Hreach) as Hwf.
  destruct (subscribe_frame bundleIds callbackFn s) as (_ & E2 & E3 & _).
  assert (H1 : winv w (length ids) callbackFn G ids s1).
  { apply winv_subscribe_new; [done|done|]. intros id Hin Hs. unfold G.
    rewrite settled_failed_when_settled.
    - by apply failed_in_ext.
    - unfold settled, s1. by rewrite E2. }
  assert (H' : winv w (length ids) callbackFn G ids s').
  { apply winv_run; [by apply wf_subscribe|done|done|done]. }
  destruct H' as [(D & HW & HD & HC) _ _].
  split.
  - intros (id & Hin & Hid). rewrite HC. rewrite decide_False; [done|].
    intros [Hn _]. unfold nsettled in Hn.
    pose proof (length_filter_lt (settled s') ids id Hin Hid). lia.
  - intros Hall. exists D. split.
    + rewrite HC. rewrite decide_True; [done|]. split.
      * unfold nsettled. by rewrite filter_all.
      * by destruct ids.
    + rewrite HD. apply reflexive_eq, filter_iff_in.
      intros id Hin. unfold G. split; [by intros [_ ?]|]. split; [by apply Hall|done].
Qed.

(** C9.  [subscribe] (and [ready]) with an empty list of bundle ids: the
    wait count starts at zero, nothing is queued and nothing is called,
    and the waiter's callback is never called afterwards either. *)
Theorem subscribe_empty_never_calls (s : state) (callbackFn : options)
    (ops : list op) :
  reachable s →
  let w := length (waiters s) in
  let s1 := ready (Many []) callbackFn s in
  waiters s1 !! w = Some (Waiter 0 [] callbackFn) ∧
  log s1 = log s ∧
  bundleCallbackQueue s1 = bundleCallbackQueue s ∧
  calls w (log (run ops s1)) = [].
Proof.
  intros Hreach w s1. pose proof (reachable_wf _ Hreach) as Hwf.
  assert (H1 : winv w 0 callbackFn (λ _, false) [] s1).
  { apply (winv_subscribe_new (Many []) callbackFn (λ _, false) s Hwf).
    - constructor.
    - intros id Hin. by apply elem_of_nil in Hin. }
  repeat split.
  - unfold s1, ready, subscribe. simpl. by rewrite list_lookup_middle.
  - pose proof (winv_run w 0 callbackFn [] ops s1 (λ _, false)) as Hrun.
    destruct Hrun as [(D & _ & _ & HC) _ _].
    + by apply wf_subscribe.
    + constructor.
    + done.
    + intros id Hin. by apply elem_of_nil in Hin.
    + rewrite HC. rewrite decide_False; [done|]. by intros [_ ?].
Qed.

(** * Frames of the remaining operations *)

Lemma publish_frame_any bundleId r s :
  let s' := state_of (publish bundleId r s) in
  bundleIdCache s' = bundleIdCache s ∧
  arrays s' = arrays s ∧
  loaders s' = loaders s ∧
  doc_head s' = doc_head s ∧
  length (waiters s') = length (waiters s).
Proof.
  cbv zeta. destruct (falsy bundleId) eqn:Hf; [by rewrite publish_falsy|].
  apply falsy_false in Hf as (id & -> & Hne).
  destruct (publish_frame id r s Hne) as (E1 & _ & _ & _ & E5 & E6 & E7 & E8).
  done.
Qed.

Lemma loadFiles_fn_frame l path result dp s :
  let s' := loadFiles_fn l path result dp s in
  bundleIdCache s' = bundleIdCache s ∧
  doc_head s' = doc_head s ∧
  length (loaders s') = length (loaders s) ∧
  length (waiters s') = length (waiters s) ∧
  length (arrays s') = length (arrays s).
Proof.
  cbv zeta. destruct (loaders s !! l) as [L|] eqn:HL.
  - rewrite (loadFiles_fn_eq _ _ _ _ _ _ HL).
    destruct (terminal result dp); [|done]. cbv zeta.
    destruct (resolved_frame l L path result dp s)
      as (E1 & E2 & E3 & E4 & E5 & E6 & E7 & E8).
    set (s2 := resolved l L path result dp s) in *. clearbody s2.
    destruct (l_numWaiting L - 1 =? 0).
    + unfold loadjs_callback.
      match goal with |- context [publish ?b ?r ?s0] =>
        destruct (publish_frame_any b r s0) as (F1 & F2 & F3 & F4 & F5)
      end.
      simpl in *. rewrite F1, F2, F3, F4, F5.
      rewrite success_or_fail_eq. simpl. by rewrite E1, E4, E5, E7, E8.
    + by rewrite E1, E4, E5, E7, E8.
  - by rewrite loadFiles_fn_dangling.
Qed.

Lemma idcache_step o s id :
  is_Some (bundleIdCache s !! id) → is_Some (bundleIdCache (step o s) !! id).
Proof.
  intros Hs. destruct o as [paths arg1 arg2|deps args|bundleId|k ev]; simpl.
  - destruct (loadjs paths arg1 arg2 s) as [s'|] eqn:Hl; [|done].
    revert Hl. unfold loadjs. destruct (bundleId_of arg1) as [id'|].
    + destruct (bundleIdCache_has s id'); [done|]. intros [= <-].
      match goal with |- context [loadFiles ?p ?b ?a ?y ?s0] =>
        destruct (loadFiles_eq p b a y s0) as (E1 & _)
      end.
      simpl in *. rewrite E1. destruct (decide (id' = id)) as [->|?].
      * rewrite lookup_insert_eq. eauto.
      * by rewrite lookup_insert_ne.
    + intros [= <-].
      match goal with |- context [loadFiles ?p ?b ?a ?y ?s0] =>
        destruct (loadFiles_eq p b a y s0) as (E1 & _)
      end.
      simpl in *. by rewrite E1.
  - destruct (subscribe_frame deps args s) as (E1 & _). unfold ready. by rewrite E1.
  - unfold done, done_completion.
    match goal with |- context [publish ?b ?r ?s0] =>
      destruct (publish_frame_any b r s0) as (F1 & _)
    end.
    cbv zeta in F1. by rewrite F1.
  - destruct (doc_head s !! k) as [e|]; [|done]. unfold onevent.
    match goal with |- context [loadFiles_fn ?l ?p ?r ?d ?s0] =>
      destruct (loadFiles_fn_frame l p r d s0) as (F1 & _)
    end.
    simpl in *. by rewrite F1.
Qed.

Lemma idcache_run ops s id :
  is_Some (bundleIdCache s !! id) → is_Some (bundleIdCache (run ops s) !! id).
Proof.
  revert s. induction ops as [|o ops IH]; intros s Hs; [done|].
  apply IH. by apply idcache_step.
Qed.

(** * [loadjs]: bundle ids *)

(** X16.  For a bundle id (a non-empty string): [loadjs] throws when
    [bundleId in bundleIdCache] holds, without changing anything; otherwise
    the call records the id before [loadFiles] dispatches anything; and so,
    after a call that registered the id, every later call with the same id
    throws and leaves the state, with the first call's loader and elements,
    as it was. *)
Theorem loadjs_duplicate_id (s : state) (id : string) (paths : str_or_list)
    (arg2 : option options) :
  id ≠ "" →
  (bundleIdCache_has s id = true →
     loadjs paths (Str id) arg2 s = Thrown "LoadJS" ∧
     step (OpLoad paths (Str id) arg2) s = s) ∧
  (bundleIdCache_has s id = false →
     let s0 := set_bundleIdCache (<[id := true]> (bundleIdCache s)) s in
     let args := default no_options arg2 in
     doc_head s0 = doc_head s ∧
     loadjs paths (Str id) arg2 s =
       Returned (loadFiles paths (Some id) args (async args) s0) ∧
     ∀ s1 ops paths' arg2',
       loadjs paths (Str id) arg2 s = Returned s1 →
       bundleIdCache s1 !! id = Some true ∧
       loadjs paths' (Str id) arg2' (run ops s1) = Thrown "LoadJS" ∧
       step (OpLoad paths' (Str id) arg2') (run ops s1) = run ops s1).
Proof.
  intros Hne.
  assert (Hb : bundleId_of (Str id) = Some id).
  { simpl. by rewrite bool_decide_eq_false_2. }
  assert (Hthrow : ∀ s' p a, bundleIdCache_has s' id = true →
            loadjs p (Str id) a s' = Thrown "LoadJS").
  { intros s' p a Hs. unfold loadjs. rewrite Hb. by rewrite Hs. }
  split.
  - intros Hs. split; [by apply Hthrow|]. simpl. by rewrite Hthrow.
  - intros Hnone. cbv zeta.
    assert (Hret : loadjs paths (Str id) arg2 s =
              Returned (loadFiles paths (Some id) (default no_options arg2)
                          (async (default no_options arg2))
                          (set_bundleIdCache (<[id := true]> (bundleIdCache s)) s))).
    { unfold loadjs, args_of. rewrite Hb. by rewrite Hnone. }
    split; [done|]. split; [done|].
    intros s1 ops paths' arg2'. rewrite Hret. intros [= <-].
    match goal with |- context [loadFiles ?p ?b ?a ?y ?s0] =>
      destruct (loadFiles_eq p b a y s0) as (E1 & _)
    end.
    simpl in E1.
    assert (Hin : bundleIdCache (loadFiles paths (Some id) (default no_options arg2)
                    (async (default no_options arg2))
                    (set_bundleIdCache (<[id := true]> (bundleIdCache s)) s)) !! id
                  = Some true).
    { by rewrite E1, lookup_insert_eq. }
    split; [done|].
    assert (Hs : is_Some (bundleIdCache (run ops (loadFiles paths (Some id)
                    (default no_options arg2) (async (default no_options arg2))
                    (set_bundleIdCache (<[id := true]> (bundleIdCache s)) s))) !! id)).
    { apply idcache_run. rewrite Hin. eauto. }
    assert (Hs' : bundleIdCache_has (run ops (loadFiles paths (Some id)
                    (default no_options arg2) (async (default no_options arg2))
                    (set_bundleIdCache (<[id := true]> (bundleIdCache s)) s))) id = true).
    { apply has_true. by left. }
    split; [by apply Hthrow|]. simpl. by rewrite Hthrow.
Qed.

Lemma accessor_name k :
  assoc k object_prototype = Some ProtoAccessor → k = "__proto__".
Proof.
  intros Ha%assoc_Some. unfold object_prototype in Ha.
  do 11 (apply elem_of_cons in Ha as [Ha|Ha]; [discriminate Ha|]).
  apply list_elem_of_singleton in Ha. by injection Ha.
Qed.

Lemma get_after_put k r s :
  bundleResultCache_get (bundleResultCache_put k r s) k = VArray r.
Proof.
  unfold bundleResultCache_put.
  destruct (bundleResultCache s !! k) eqn:Hk.
  - apply get_own. simpl. by rewrite lookup_insert_eq.
  - destruct (assoc k object_prototype) as [[n|]|] eqn:Ha;
      try (apply get_own; simpl; by rewrite lookup_insert_eq).
    assert (Hap : assoc k array_prototype = None).
    { by rewrite (accessor_name _ Ha). }
    unfold bundleResultCache_get.
    change (bundleResultCache (set_bundleResultCache_proto (Some r) s))
      with (bundleResultCache s).
    change (bundleResultCache_proto (set_bundleResultCache_proto (Some r) s))
      with (Some r).
    rewrite Hk, (object_member_not_array_own _ _ _ Ha), Hap.
    unfold object_member. by rewrite Ha.
Qed.

Lemma get_ext s s' k :
  bundleResultCache s' = bundleResultCache s →
  bundleResultCache_proto s' = bundleResultCache_proto s →
  arrays s' = arrays s →
  bundleResultCache_get s' k = bundleResultCache_get s k.
Proof.
  intros E1 E2 E3. unfold bundleResultCache_get, array_at. by rewrite E1, E2, E3.
Qed.

Lemma publish_get id r s :
  id ≠ "" →
  bundleResultCache_get (state_of (publish (Some id) r s)) id = VArray r.
Proof.
  intros Hne. destruct (publish_frame id r s Hne) as (_ & E2 & _ & _ & E5 & _).
  rewrite <- (get_after_put id r s). apply get_ext; [done| |].
  - by apply publish_proto.
  - rewrite E5. by destruct (put_frame id r s) as (_ & _ & -> & _).
Qed.

(** X17.  [publish] does nothing when the id is absent or the empty
    string.  Otherwise it assigns the array to [bundleResultCache[id]], so
    that a lookup of the id yields it, then calls the closures of the queue
    that the id owns from the front of the queue to its end, each with the
    id and the array, and leaves that queue empty; this is the state in
    which the call ends, and the call ends by throwing exactly when the id
    owns no queue and names an inherited method with parameters.
    [subscribe] adds a closure at the end of the queue whenever the lookup
    of the result is falsy, so the order is that of registration. *)
Theorem publish_drains_fifo (bundleId : option string) (pathsNotFound : nat)
    (s : state) :
  (falsy bundleId = true → publish bundleId pathsNotFound s = Normal s) ∧
  (∀ id, bundleId = Some id → id ≠ "" →
     let q := default [] (bundleCallbackQueue s !! id) in
     let s1 := bundleResultCache_put id pathsNotFound s in
     let s2 := foldl (λ s fn, subscribe_fn fn id (VArray pathsNotFound) s) s1 q in
     let s' := state_of (publish bundleId pathsNotFound s) in
     bundleResultCache_get s' id = VArray pathsNotFound ∧
     default [] (bundleCallbackQueue s' !! id) = [] ∧
     s' = match q with
          | [] => s1
          | _ :: _ =>
            set_bundleCallbackQueue (<[id := []]> (bundleCallbackQueue s)) s2
          end ∧
     publish bundleId pathsNotFound s =
       match bundleCallbackQueue s !! id, assoc id object_prototype with
       | None, Some (Method (S _)) => Abrupt "TypeError" s'
       | _, _ => Normal s'
       end) ∧
  (∀ w id, truthy (bundleResultCache_get s id) = false →
     bundleCallbackQueue (subscribe_body w id s) !! id =
       Some (default [] (bundleCallbackQueue s !! id) ++ [w])).
Proof.
  split; [apply publish_state_falsy|]. split.
  - intros id -> Hne. cbv zeta.
    destruct (publish_frame id pathsNotFound s Hne) as (_ & E2 & _ & E4 & _).
    split; [by apply publish_get|]. split; [done|]. split.
    + rewrite publish_eq by done. cbv zeta.
      by destruct (bundleCallbackQueue s !! id) as [[|fn q]|].
    + unfold publish, falsy, bundleCallbackQueue_get.
      rewrite bool_decide_eq_false_2 by done.
      destruct (bundleCallbackQueue s !! id) as [q|]; [done|].
      destruct (assoc id object_prototype) as [[[|n]|]|]; done.
  - intros w id Hc. rewrite subscribe_body_eq, Hc. simpl.
    by rewrite lookup_insert_eq.
Qed.

(** * Resolutions of the paths of one load *)

Lemma failing_terminal result dp : failing result dp = true → terminal result dp = true.
Proof.
  unfold failing, terminal. destruct (String.eqb result "e") eqn:He.
  - apply String.eqb_eq in He. by subst.
  - by destruct (String.eqb result "b"), dp.
Qed.

Lemma run_app ops1 ops2 s : run (ops1 ++ ops2) s = run ops2 (run ops1 s).
Proof. apply foldl_app. Qed.

(** Events that are not terminal change nothing. *)
Lemma run_fires_nonterminal evs s :
  Forall (λ kev, fire_terminal (doc_head s) kev = false) evs →
  run (fires evs) s = s.
Proof.
  induction 1 as [|[k ev] evs Hk _ IH]; [done|].
  simpl. unfold fire_terminal in Hk. simpl in Hk.
  destruct (doc_head s !! k) as [e|]; [|done].
  unfold onevent. destruct (loaders s !! el_callbackFn e) as [L|] eqn:HL.
  - rewrite (loadFiles_fn_eq _ _ _ _ _ _ HL), Hk. done.
  - by rewrite loadFiles_fn_dangling.
Qed.

Lemma failed_paths_cons h k ev evs :
  failed_paths h ((k, ev) :: evs) =
    match h !! k with
    | Some e =>
      if failing (event_result e ev) (defaultPrevented ev)
      then el_path e :: failed_paths h evs else failed_paths h evs
    | None => failed_paths h evs
    end.
Proof.
  unfold failed_paths. cbn. destruct (h !! k) as [e|]; [|done].
  by destruct (failing _ _).
Qed.

Lemma failed_paths_nonterminal h evs :
  Forall (λ kev, fire_terminal h kev = false) evs → failed_paths h evs = [].
Proof.
  induction 1 as [|[k ev] evs Hk _ IH]; [done|].
  rewrite failed_paths_cons, IH.
  unfold fire_terminal in Hk. simpl in Hk.
  destruct (h !! k) as [e|]; [|done].
  destruct (failing _ _) eqn:Hf; [|done].
  apply failing_terminal in Hf. congruence.
Qed.

Lemma filter_nil_Forall_false {T} (f : T → bool) (l : list T) :
  length (filter (λ x, f x = true) l) = 0%nat → Forall (λ x, f x = false) l.
Proof.
  induction l as [|x l IH]; [constructor|].
  rewrite filter_cons. destruct (f x) eqn:Hx.
  - rewrite decide_True by done. done.
  - rewrite decide_False by done. intros Hl. constructor; [done|by apply IH].
Qed.

Lemma nterminal_cons h k ev evs e :
  h !! k = Some e →
  nterminal h ((k, ev) :: evs) =
    ((if terminal (event_result e ev) (defaultPrevented ev) then 1 else 0)
     + nterminal h evs)%nat.
Proof.
  intros He. unfold nterminal. rewrite filter_cons.
  assert (Hf : fire_terminal h (k, ev) =
               terminal (event_result e ev) (defaultPrevented ev)).
  { unfold fire_terminal. simpl. by rewrite He. }
  destruct (terminal _ _).
  - by rewrite decide_True.
  - rewrite decide_False; [done|]. by rewrite Hf.
Qed.

(** One terminal event that does not exhaust the counter. *)
Lemma onevent_pending l r bundleId args e ev s n xs :
  loaders s !! l = Some (Loader n r bundleId args) →
  arrays s !! r = Some xs →
  el_callbackFn e = l →
  terminal (event_result e ev) (defaultPrevented ev) = true →
  n - 1 ≠ 0 →
  let s' := onevent e ev s in
  loaders s' !! l = Some (Loader (n - 1) r bundleId args) ∧
  arrays s' !! r =
    Some (xs ++ if failing (event_result e ev) (defaultPrevented ev)
                then [el_path e] else []) ∧
  bundleIdCache s' = bundleIdCache s ∧
  bundleResultCache s' = bundleResultCache s ∧
  bundleCallbackQueue s' = bundleCallbackQueue s ∧
  waiters s' = waiters s ∧
  doc_head s' = doc_head s ∧
  log s' = log s.
Proof.
  intros HL Hr Hl Hterm Hn. cbv zeta. unfold onevent. rewrite Hl.
  rewrite (loadFiles_fn_eq _ _ _ _ _ _ HL), Hterm. cbv zeta.
  cbn [l_numWaiting l_pathsNotFound l_bundleId l_args].
  apply Z.eqb_neq in Hn. rewrite Hn.
  unfold resolved, push. cbn [l_numWaiting l_pathsNotFound l_bundleId l_args].
  destruct (failing _ _); cbn.
  - rewrite list_lookup_insert_eq by (by eapply lookup_lt_Some).
    rewrite list_lookup_alter_eq, Hr. done.
  - rewrite list_lookup_insert_eq by (by eapply lookup_lt_Some).
    rewrite Hr, app_nil_r. done.
Qed.

Lemma onevent_nonterminal e ev s :
  terminal (event_result e ev) (defaultPrevented ev) = false →
  onevent e ev s = s.
Proof.
  intros Hterm. unfold onevent.
  destruct (loaders s !! el_callbackFn e) as [L|] eqn:HL.
  - by rewrite (loadFiles_fn_eq _ _ _ _ _ _ HL), Hterm.
  - by rewrite loadFiles_fn_dangling.
Qed.

Lemma nonterminal_not_failing result dp :
  terminal result dp = false → failing result dp = false.
Proof.
  intros Ht. destruct (failing result dp) eqn:Hf; [|done].
  apply failing_terminal in Hf. congruence.
Qed.

(** While fewer terminal events than paths have arrived, only the counter
    and the array of failed paths change. *)
Lemma run_fires_pending l r bundleId args evs s n xs :
  loaders s !! l = Some (Loader n r bundleId args) →
  arrays s !! r = Some xs →
  Forall (targets (doc_head s) l) evs →
  Z.of_nat (nterminal (doc_head s) evs) < n →
  let s' := run (fires evs) s in
  loaders s' !! l =
    Some (Loader (n - Z.of_nat (nterminal (doc_head s) evs)) r bundleId args) ∧
  arrays s' !! r = Some (xs ++ failed_paths (doc_head s) evs) ∧
  bundleIdCache s' = bundleIdCache s ∧
  bundleResultCache s' = bundleResultCache s ∧
  bundleCallbackQueue s' = bundleCallbackQueue s ∧
  waiters s' = waiters s ∧
  doc_head s' = doc_head s ∧
  log s' = log s.
Proof.
  intros HL Hr Ht. revert s n xs HL Hr Ht.
  induction evs as [|[k ev] evs IH]; intros s n xs HL Hr Ht Hc.
  - cbn. rewrite Z.sub_0_r, app_nil_r. done.
  - apply Forall_cons in Ht as [(e & He & Hl) Ht]. simpl in He.
    rewrite (nterminal_cons _ _ _ _ _ He) in *.
    rewrite failed_paths_cons, He.
    cbn [fires map run foldl step fst snd]. rewrite He.
    destruct (terminal (event_result e ev) (defaultPrevented ev)) eqn:Hterm.
    + destruct (onevent_pending l r bundleId args e ev s n xs HL Hr Hl Hterm)
        as (E1 & E2 & E3 & E4 & E5 & E6 & E7 & E8); [lia|].
      set (s2 := onevent e ev s) in *. clearbody s2.
      rewrite <- E7 in Ht, Hc.
      destruct (IH s2 _ _ E1 E2 Ht) as (F1 & F2 & F3 & F4 & F5 & F6 & F7 & F8); [lia|].
      fold (fires evs). fold (run (fires evs) s2).
      rewrite F1, F2, F3, F4, F5, F6, F7, F8, E3, E4, E5, E6, E7, E8.
      repeat split; try done.
      * do 2 f_equal. lia.
      * f_equal. rewrite <- app_assoc. by destruct (failing _ _).
    + rewrite (onevent_nonterminal _ _ _ Hterm).
      rewrite (nonterminal_not_failing _ _ Hterm).
      apply IH; [done|done|done|lia].
Qed.

(** The terminal event that exhausts the counter calls the callback of
    [loadjs]. *)
Lemma onevent_complete l r bundleId args e ev s xs :
  loaders s !! l = Some (Loader 1 r bundleId args) →
  arrays s !! r = Some xs →
  el_callbackFn e = l →
  terminal (event_result e ev) (defaultPrevented ev) = true →
  let ys := xs ++ if failing (event_result e ev) (defaultPrevented ev)
                  then [el_path e] else [] in
  ∃ s2,
    onevent e ev s =
      loadjs_callback bundleId args r (emit (LoadCallback l ys) s2) ∧
    arrays s2 !! r = Some ys ∧
    bundleIdCache s2 = bundleIdCache s ∧
    bundleResultCache s2 = bundleResultCache s ∧
    bundleCallbackQueue s2 = bundleCallbackQueue s ∧
    waiters s2 = waiters s ∧
    doc_head s2 = doc_head s ∧
    log s2 = log s.
Proof.
  intros HL Hr Hl Hterm. cbv zeta.
  exists (resolved l (Loader 1 r bundleId args) (el_path e) (event_result e ev)
            (defaultPrevented ev) s).
  unfold onevent. rewrite Hl.
  rewrite (loadFiles_fn_eq _ _ _ _ _ _ HL), Hterm. cbv zeta.
  cbn [l_numWaiting l_pathsNotFound l_bundleId l_args Z.sub Z.add Z.opp Z.pos_sub Z.eqb].
  assert (Ha : arrays (resolved l (Loader 1 r bundleId args) (el_path e)
                 (event_result e ev) (defaultPrevented ev) s) !! r =
               Some (xs ++ if failing (event_result e ev) (defaultPrevented ev)
                           then [el_path e] else [])).
  { unfold resolved, push. cbn. destruct (failing _ _); cbn.
    - by rewrite list_lookup_alter_eq, Hr.
    - by rewrite Hr, app_nil_r. }
  split.
  - unfold array_at. by rewrite Ha.
  - split; [done|].
    destruct (resolved_frame l (Loader 1 r bundleId args) (el_path e)
                (event_result e ev) (defaultPrevented ev) s)
      as (E1 & E2 & E3 & E4 & E5 & E6 & _). done.
Qed.

Lemma run_fires_complete l r bundleId args evs s n xs :
  loaders s !! l = Some (Loader n r bundleId args) →
  arrays s !! r = Some xs →
  Forall (targets (doc_head s) l) evs →
  Z.of_nat (nterminal (doc_head s) evs) = n →
  0 < n →
  let ys := xs ++ failed_paths (doc_head s) evs in
  ∃ s2,
    run (fires evs) s =
      loadjs_callback bundleId args r (emit (LoadCallback l ys) s2) ∧
    arrays s2 !! r = Some ys ∧
    bundleIdCache s2 = bundleIdCache s ∧
    bundleResultCache s2 = bundleResultCache s ∧
    bundleCallbackQueue s2 = bundleCallbackQueue s ∧
    waiters s2 = waiters s ∧
    doc_head s2 = doc_head s ∧
    log s2 = log s.
Proof.
  intros HL Hr Ht. revert s n xs HL Hr Ht.
  induction evs as [|[k ev] evs IH]; intros s n xs HL Hr Ht Hc Hn.
  - cbn in Hc. lia.
  - apply Forall_cons in Ht as [(e & He & Hl) Ht]. simpl in He.
    rewrite (nterminal_cons _ _ _ _ _ He) in Hc.
    cbv zeta. rewrite failed_paths_cons, He.
    cbn [fires map run foldl step fst snd]. rewrite He.
    fold (fires evs). fold (run (fires evs) (onevent e ev s)).
    destruct (terminal (event_result e ev) (defaultPrevented ev)) eqn:Hterm.
    + destruct (decide (n = 1)) as [->|Hn1].
      * (* the last terminal event *)
        assert (Hz : nterminal (doc_head s) evs = 0%nat) by lia.
        apply filter_nil_Forall_false in Hz.
        destruct (onevent_complete l r bundleId args e ev s xs HL Hr Hl Hterm)
          as (s2 & Heq & Ha & E1 & E2 & E3 & E4 & E5 & E6).
        cbv zeta in *.
        rewrite (failed_paths_nonterminal _ _ Hz).
        rewrite run_fires_nonterminal.
        -- exists s2. rewrite Heq.
           replace (if failing (event_result e ev) (defaultPrevented ev)
                    then [el_path e] else [])
             with (if failing (event_result e ev) (defaultPrevented ev)
                   then [el_path e] else ([] : list string)) in * by done.
           destruct (failing _ _); done.
        -- unfold onevent.
           match goal with |- context [loadFiles_fn ?l' ?p ?res ?d ?s0] =>
             destruct (loadFiles_fn_frame l' p res d s0) as (_ & F2 & _)
           end.
           simpl in F2. by rewrite F2.
      * destruct (onevent_pending l r bundleId args e ev s n xs HL Hr Hl Hterm)
          as (E1 & E2 & E3 & E4 & E5 & E6 & E7 & E8); [lia|].
        set (s1 := onevent e ev s) in *. clearbody s1.
        rewrite <- E7 in Ht, Hc.
        destruct (IH s1 _ _ E1 E2 Ht) as (s2 & Heq & Ha & F1 & F2 & F3 & F4 & F5 & F6);
          [lia|lia|].
        cbv zeta in *. exists s2. rewrite Heq, E7.
        rewrite <- E3, <- E4, <- E5, <- E6, <- E8.
        assert (Hys : (xs ++ (if failing (event_result e ev) (defaultPrevented ev)
                              then [el_path e] else [])) ++ failed_paths (doc_head s) evs =
                      xs ++ (if failing (event_result e ev) (defaultPrevented ev)
                             then el_path e :: failed_paths (doc_head s) evs
                             else failed_paths (doc_head s) evs)).
        { rewrite <- app_assoc. by destruct (failing _ _). }
        rewrite E7 in Ha, F5. rewrite Hys in *. done.
    + rewrite (onevent_nonterminal _ _ _ Hterm).
      rewrite (nonterminal_not_failing _ _ Hterm).
      apply (IH s n xs); [done|done|done|lia|done].
Qed.

(** The state [loadjs] returns. *)
Lemma loadjs_returned paths arg1 arg2 s s1 :
  loadjs paths arg1 arg2 s = Returned s1 →
  let l := length (loaders s) in
  let r := length (arrays s) in
  let args := args_of arg1 arg2 in
  loaders s1 !! l =
    Some (Loader (Z.of_nat (length (listify paths))) r (bundleId_of arg1) args) ∧
  arrays s1 !! r = Some [] ∧
  bundleIdCache s1 =
    match bundleId_of arg1 with
    | Some id => <[id := true]> (bundleIdCache s)
    | None => bundleIdCache s
    end ∧
  bundleResultCache s1 = bundleResultCache s ∧
  bundleCallbackQueue s1 = bundleCallbackQueue s ∧
  waiters s1 = waiters s ∧
  doc_head s1 = doc_head s ++ map (new_element l (async args)) (listify paths) ∧
  log s1 = log s.
Proof.
  unfold loadjs. cbv zeta.
  assert (H : ∀ s0, loaders s0 = loaders s → arrays s0 = arrays s →
            let s' := loadFiles paths (bundleId_of arg1) (args_of arg1 arg2)
                        (async (args_of arg1 arg2)) s0 in
            loaders s' !! length (loaders s) =
              Some (Loader (Z.of_nat (length (listify paths))) (length (arrays s))
                      (bundleId_of arg1) (args_of arg1 arg2)) ∧
            arrays s' !! length (arrays s) = Some [] ∧
            bundleIdCache s' = bundleIdCache s0 ∧
            bundleResultCache s' = bundleResultCache s0 ∧
            bundleCallbackQueue s' = bundleCallbackQueue s0 ∧
            waiters s' = waiters s0 ∧
            doc_head s' = doc_head s0 ++
              map (new_element (length (loaders s)) (async (args_of arg1 arg2)))
                (listify paths) ∧
            log s' = log s0).
  { intros s0 EL EA. cbv zeta.
    destruct (loadFiles_eq paths (bundleId_of arg1) (args_of arg1 arg2)
                (async (args_of arg1 arg2)) s0)
      as (E1 & E2 & E3 & E4 & E5 & E6 & E7 & E8).
    simpl in *. rewrite E1, E2, E3, E4, E5, E6, E7, E8, EL, EA.
    by rewrite !list_lookup_middle. }
  destruct (bundleId_of arg1) as [id|] eqn:Hb.
  - destruct (bundleIdCache_has s id); [done|]. intros [= <-].
    exact (H (set_bundleIdCache (<[id:=true]> (bundleIdCache s)) s) eq_refl eq_refl).
  - intros [= <-]. exact (H s eq_refl eq_refl).
Qed.

(** * [loadFiles]: the wait counter *)

(** C2.  [loadFiles] starts a loader whose wait counter is the number of
    paths and whose array of failed paths is empty.  A resolution ['b']
    that was not default-prevented changes nothing.  A resolution ['b'] that
    was default-prevented and a resolution ['e'] append the path to the array
    and decrement the counter; a resolution ['l'] only decrements it.  After
    a decrement the callback is called exactly when the counter is zero.
    So, while fewer terminal events than paths have arrived at the elements
    of a load, the counter is the number of paths minus the number of those
    events, the array holds the paths that failed, and nothing has been
    called. *)
Theorem loadFiles_wait_counter :
  (∀ paths bundleId args async s,
     let s' := loadFiles paths bundleId args async s in
     loaders s' !! length (loaders s) =
       Some (Loader (Z.of_nat (length (listify paths))) (length (arrays s))
               bundleId args) ∧
     arrays s' !! length (arrays s) = Some []) ∧
  (∀ l L path dp s,
     loaders s !! l = Some L →
     let r := l_pathsNotFound L in
     let counted s0 :=
       let s2 := set_loaders
                   (<[l := Loader (l_numWaiting L - 1) r (l_bundleId L) (l_args L)]>
                      (loaders s0)) s0 in
       if decide (l_numWaiting L - 1 = 0)
       then loadjs_callback (l_bundleId L) (l_args L) r
              (emit (LoadCallback l (array_at s2 r)) s2)
       else s2 in
     loadFiles_fn l path "b" false s = s ∧
     loadFiles_fn l path "b" true s = counted (push r path s) ∧
     loadFiles_fn l path "e" dp s = counted (push r path s) ∧
     loadFiles_fn l path "l" dp s = counted s) ∧
  (∀ paths arg1 arg2 s s1 evs,
     loadjs paths arg1 arg2 s = Returned s1 →
     let l := length (loaders s) in
     let n := length (listify paths) in
     Forall (targets (doc_head s1) l) evs →
     (nterminal (doc_head s1) evs < n)%nat →
     let s' := run (fires evs) s1 in
     loaders s' !! l =
       Some (Loader (Z.of_nat n - Z.of_nat (nterminal (doc_head s1) evs))
               (length (arrays s)) (bundleId_of arg1) (args_of arg1 arg2)) ∧
     arrays s' !! length (arrays s) = Some (failed_paths (doc_head s1) evs) ∧
     log s' = log s).
Proof.
  split; [|split].
  - intros paths bundleId args async s. cbv zeta.
    destruct (loadFiles_eq paths bundleId args async s)
      as (_ & _ & _ & _ & _ & E6 & E7 & _).
    simpl in *. rewrite E6, E7. by rewrite !list_lookup_middle.
  - intros l L path dp s HL. cbv zeta.
    rewrite !(loadFiles_fn_eq _ _ _ _ _ _ HL).
    unfold resolved, terminal, failing. cbn.
    destruct (decide (l_numWaiting L - 1 = 0)) as [Hz|Hz].
    + rewrite (proj2 (Z.eqb_eq _ _) Hz). by destruct dp.
    + rewrite (proj2 (Z.eqb_neq _ _) Hz). by destruct dp.
  - intros paths arg1 arg2 s s1 evs Hl. cbv zeta. intros Ht Hc.
    destruct (loadjs_returned _ _ _ _ _ Hl) as (E1 & E2 & _ & _ & _ & _ & _ & E8).
    destruct (run_fires_pending _ _ _ _ evs s1 _ _ E1 E2 Ht)
      as (F1 & F2 & _ & _ & _ & _ & _ & F8); [lia|].
    cbv zeta in *. by rewrite F1, F2, F8.
Qed.

Lemma publish_log bundleId r s :
  ∃ t, log (state_of (publish bundleId r s)) = log s ++ t ∧
       ∀ l d, LoadCallback l d ∉ t.
Proof.
  destruct (falsy bundleId) eqn:Hf.
  - rewrite publish_falsy by done. exists []. rewrite app_nil_r. split; [done|].
    intros l d Hd. by apply elem_of_nil in Hd.
  - apply falsy_false in Hf as (id & -> & Hne). rewrite publish_eq by done. cbv zeta.
    destruct (put_frame id r s) as (_ & _ & _ & _ & _ & _ & P7). simpl in P7.
    destruct (bundleCallbackQueue s !! id) as [[|fn q]|].
    1, 3: exists []; rewrite P7, app_nil_r; split; [done|];
          intros l d Hd; by apply elem_of_nil in Hd.
    remember (fn :: q) as q' eqn:Hq'.
    destruct (foldl_fn_frame q' id (VArray r) (bundleResultCache_put id r s))
      as (_ & _ & _ & _ & _ & _ & _ & t & Et & _ & _ & Hl).
    exists t. cbv zeta in Et. simpl in *. by rewrite Et, P7.
Qed.

Lemma failed_paths_none h evs :
  Forall (λ kev, fire_failing h kev = false) evs → failed_paths h evs = [].
Proof.
  induction 1 as [|[k ev] evs Hk _ IH]; [done|].
  rewrite failed_paths_cons, IH. unfold fire_failing in Hk. simpl in Hk.
  destruct (h !! k) as [e|]; [|done]. by rewrite Hk.
Qed.

(** * [loadjs]: completion *)

(** Events at the elements of a load without bundle id leave the
    prototype of the result cache alone. *)
Lemma onevent_proto_anonymous l r args e ev s n :
  loaders s !! l = Some (Loader n r None args) →
  el_callbackFn e = l →
  bundleResultCache_proto (onevent e ev s) = bundleResultCache_proto s ∧
  doc_head (onevent e ev s) = doc_head s ∧
  ∃ n', loaders (onevent e ev s) !! l = Some (Loader n' r None args).
Proof.
  intros HL Hl. unfold onevent. rewrite Hl.
  pose proof (lookup_lt_Some _ _ _ HL) as Hlt.
  destruct (loadFiles_fn_frame l (el_path e) (event_result e ev) (defaultPrevented ev) s)
    as (_ & -> & _).
  rewrite (loadFiles_fn_eq _ _ _ _ _ _ HL).
  destruct (terminal _ _); [|eauto]. cbv zeta.
  assert (H2 : loaders (resolved l (Loader n r None args) (el_path e)
                 (event_result e ev) (defaultPrevented ev) s) !! l =
               Some (Loader (n - 1) r None args)).
  { unfold resolved.
    destruct (failing (event_result e ev) (defaultPrevented ev)); simpl;
      by rewrite list_lookup_insert_eq. }
  pose proof (resolved_proto l (Loader n r None args) (el_path e)
                (event_result e ev) (defaultPrevented ev) s) as H3.
  set (s2 := resolved _ _ _ _ _ s) in *. clearbody s2.
  cbn [l_numWaiting l_pathsNotFound l_bundleId l_args].
  destruct (_ =? 0).
  - unfold loadjs_callback. simpl. rewrite success_or_fail_eq. simpl. eauto.
  - eauto.
Qed.

Lemma run_fires_proto_anonymous l r args evs s n :
  loaders s !! l = Some (Loader n r None args) →
  Forall (targets (doc_head s) l) evs →
  bundleResultCache_proto (run (fires evs) s) = bundleResultCache_proto s.
Proof.
  revert s n. induction evs as [|[k ev] evs IH]; intros s n HL Ht; [done|].
  apply Forall_cons in Ht as [(e & He & Hl) Ht]. simpl in He.
  cbn [fires map run foldl step fst snd]. rewrite He.
  destruct (onevent_proto_anonymous l r args e ev s n HL Hl) as (Ep & Eh & n' & HL').
  fold (fires evs). fold (run (fires evs) (onevent e ev s)).
  rewrite <- Ep. eapply IH; [done|by rewrite Eh].
Qed.

(** C8, as the code has it.  A load without a bundle id (the second
    parameter is not a non-empty string) whose (at least one) paths all
    resolve without a failure calls the [success] function of the object
    passed as second parameter, if there is one; a third parameter is not
    looked at, so that nothing is called when the second parameter is
    [undefined] or the empty string.  Neither the call of [loadjs] nor
    the events change [bundleIdCache], [bundleResultCache] (or its
    prototype) or [bundleCallbackQueue]. *)
Theorem anonymous_load_leaves_registry (s s1 : state) (paths : str_or_list)
    (arg1 : jsval) (arg2 : option options) (evs : list (nat * dom_event)) :
  bundleId_of arg1 = None →
  loadjs paths arg1 arg2 s = Returned s1 →
  let l := length (loaders s) in
  Forall (targets (doc_head s1) l) evs →
  listify paths ≠ [] →
  nterminal (doc_head s1) evs = length (listify paths) →
  Forall (λ kev, fire_failing (doc_head s1) kev = false) evs →
  let s' := run (fires evs) s1 in
  log s' = log s ++ LoadCallback l [] ::
    match arg1 with
    | Obj o => match success o with Some f => [Success f] | None => [] end
    | _ => []
    end ∧
  (bundleIdCache s1 = bundleIdCache s ∧
   bundleResultCache s1 = bundleResultCache s ∧
   bundleResultCache_proto s1 = bundleResultCache_proto s ∧
   bundleCallbackQueue s1 = bundleCallbackQueue s) ∧
  (bundleIdCache s' = bundleIdCache s ∧
   bundleResultCache s' = bundleResultCache s ∧
   bundleResultCache_proto s' = bundleResultCache_proto s ∧
   bundleCallbackQueue s' = bundleCallbackQueue s).
Proof.
  intros Hb Hl l Ht Hne Hc Hok s'.
  pose proof (loadjs_proto _ _ _ _ _ Hl) as Ep.
  assert (Ep' : bundleResultCache_proto s' = bundleResultCache_proto s).
  { destruct (loadjs_returned _ _ _ _ _ Hl) as (E1 & _).
    rewrite Hb in E1. unfold s'.
    by rewrite (run_fires_proto_anonymous _ _ _ _ _ _ E1 Ht). }
  assert (Hargs : match success (args_of arg1 arg2) with
                  | Some f => [Success f] | None => [] end =
                  match arg1 with
                  | Obj o => match success o with Some f => [Success f] | None => [] end
                  | _ => []
                  end).
  { unfold args_of. rewrite Hb. by destruct arg1. }
  rewrite <- Hargs. clear Hargs.
  destruct (loadjs_returned _ _ _ _ _ Hl) as (E1 & E2 & E3 & E4 & E5 & _ & _ & E8).
  destruct (run_fires_complete _ _ _ _ evs s1 _ _ E1 E2 Ht)
    as (s2 & Heq & Ha & F1 & F2 & F3 & F4 & F5 & F6); [lia| |].
  { destruct (listify paths); [done|]. simpl. lia. }
  cbv zeta in *. rewrite Hb in *.
  rewrite (failed_paths_none _ _ Hok) in *. simpl in Heq, Ha.
  unfold loadjs_callback, publish in Heq.
  rewrite success_or_fail_eq in Heq. unfold array_at in Heq. simpl in Heq.
  rewrite Ha in Heq. simpl in Heq.
  split.
  - unfold s'. rewrite Heq. simpl. rewrite F6, E8.
    rewrite <- app_assoc. simpl. unfold user_events. simpl. done.
  - split; [done|]. split; [|split; [|split]]; try done.
    + unfold s'. rewrite Heq. simpl. by rewrite F1, E3.
    + unfold s'. rewrite Heq. simpl. by rewrite F2.
    + unfold s'. rewrite Heq. simpl. by rewrite F3.
Qed.

(** * A load with no paths *)

Lemma subscribe_body_queue_log w bundleId s id :
  default [] (bundleCallbackQueue s !! id) `prefix_of`
    default [] (bundleCallbackQueue (subscribe_body w bundleId s) !! id) ∧
  ∃ t, log (subscribe_body w bundleId s) = log s ++ t ∧ ∀ l d, LoadCallback l d ∉ t.
Proof.
  rewrite subscribe_body_eq.
  destruct (truthy (bundleResultCache_get s bundleId)).
  - set (r := bundleResultCache_get s bundleId).
    destruct (subscribe_fn_frame w bundleId r s) as (_ & _ & E3 & _).
    destruct (subscribe_fn_log w bundleId r s) as (t & Et & _ & _ & Hl).
    simpl in E3. rewrite E3. split; [done|]. eauto.
  - simpl. split.
    + destruct (decide (bundleId = id)) as [->|Hne].
      * rewrite lookup_insert_eq. simpl. by apply prefix_app_r.
      * by rewrite lookup_insert_ne.
    + exists []. rewrite app_nil_r. split; [done|].
      intros l d Hd. by apply elem_of_nil in Hd.
Qed.

Lemma subscribe_queue_log bundleIds callbackFn s id :
  default [] (bundleCallbackQueue s !! id) `prefix_of`
    default [] (bundleCallbackQueue (subscribe bundleIds callbackFn s) !! id) ∧
  ∃ t, log (subscribe bundleIds callbackFn s) = log s ++ t ∧
       ∀ l d, LoadCallback l d ∉ t.
Proof.
  rewrite subscribe_eq. set (s0 := set_waiters _ s).
  assert (H0 : default [] (bundleCallbackQueue s !! id) `prefix_of`
                 default [] (bundleCallbackQueue s0 !! id) ∧
               ∃ t, log s0 = log s ++ t ∧ ∀ l d, LoadCallback l d ∉ t).
  { split; [done|]. exists []. simpl. rewrite app_nil_r. split; [done|].
    intros l d Hd. by apply elem_of_nil in Hd. }
  clearbody s0. revert s0 H0.
  induction (reverse (listify bundleIds)) as [|x L IH]; intros s0 H0; [done|].
  simpl. apply IH. destruct H0 as (Hp & t & Et & Hl).
  destruct (subscribe_body_queue_log (length (waiters s)) x s0 id)
    as (Hp' & t' & Et' & Hl').
  split; [by etrans|]. exists (t ++ t'). rewrite Et', Et, app_assoc. split; [done|].
  intros l d [Hd|Hd]%elem_of_app; [by eapply Hl|by eapply Hl'].
Qed.





(** * [done] and the recorded results *)

Lemma done_result bundleId s :
  bundleId ≠ "" →
  bundleResultCache_get (done bundleId s) bundleId = VArray (length (arrays s)) ∧
  arrays (done bundleId s) = arrays s ++ [[]] ∧
  bundleIdCache (done bundleId s) = bundleIdCache s.
Proof.
  intros Hne. unfold done, done_completion.
  split; [by apply publish_get|].
  match goal with |- context [publish ?b ?r ?s0] =>
    destruct (publish_frame bundleId r s0 Hne) as (E1 & _ & _ & _ & E5 & _)
  end.
  by rewrite E1, E5.
Qed.

(** [done] creates an own entry unless the id is [__proto__]. *)
Lemma done_result_own bundleId s :
  bundleId ≠ "" →
  settled s bundleId ∨ assoc bundleId object_prototype ≠ Some ProtoAccessor →
  bundleResultCache (done bundleId s) !! bundleId = Some (length (arrays s)).
Proof.
  intros Hne Hown. unfold done, done_completion.
  match goal with |- context [publish ?b ?r ?s0] =>
    destruct (publish_frame bundleId r s0 Hne) as (_ & E2 & _);
    destruct (put_cases bundleId r s0) as [(E & _)|(_ & Hn & Ha & _)]
  end.
  - rewrite E2, E. simpl. by rewrite lookup_insert_eq.
  - destruct Hown as [[r Hr]|Hna]; [|done]. simpl in Hn. congruence.
Qed.

Lemma recorded_done bundleId s :
  bundleId ≠ "" → recorded (done bundleId s) bundleId = Some [].
Proof.
  intros Hne. unfold recorded.
  destruct (done_result bundleId s Hne) as (-> & -> & _).
  by rewrite list_lookup_middle.
Qed.

Lemma subscribe_proto bundleIds callbackFn s :
  bundleResultCache_proto (subscribe bundleIds callbackFn s) =
  bundleResultCache_proto s.
Proof.
  rewrite subscribe_eq. set (s0 := set_waiters _ s).
  change (bundleResultCache_proto s) with (bundleResultCache_proto s0).
  clearbody s0. revert s0.
  induction (reverse (listify bundleIds)) as [|x l IH]; intros s0; simpl; [done|].
  rewrite IH, subscribe_body_eq.
  destruct (truthy (bundleResultCache_get s0 x)); [|done].
  apply subscribe_fn_proto.
Qed.

Lemma subscribe_get bundleIds callbackFn s k :
  bundleResultCache_get (subscribe bundleIds callbackFn s) k =
  bundleResultCache_get s k.
Proof.
  destruct (subscribe_frame bundleIds callbackFn s) as (_ & E2 & E3 & _).
  apply get_ext; [done|apply subscribe_proto|done].
Qed.

Lemma array_own_value xs k v :
  array_own xs k = Some v → (∃ n, v = VNumber n) ∨ (∃ x, v = VString x).
Proof.
  unfold array_own. destruct (String.eqb k "length"); [intros [= <-]; eauto|].
  destruct (array_index k) as [i|]; [|done].
  destruct (i <? _)%N; [|done].
  destruct (xs !! N.to_nat i) eqn:E; simpl; [intros [= <-]; eauto|done].
Qed.

(** An array is found under a name only as an own entry or through the
    getter of [__proto__]. *)
Lemma get_array_inv s id r :
  bundleResultCache_get s id = VArray r →
  bundleResultCache s !! id = Some r ∨
  (bundleResultCache s !! id = None ∧
   assoc id object_prototype = Some ProtoAccessor ∧
   bundleResultCache_proto s = Some r).
Proof.
  unfold bundleResultCache_get, object_member.
  destruct (bundleResultCache s !! id) eqn:Hown; [intros [= ->]; by left|].
  destruct (bundleResultCache_proto s) as [a|].
  - destruct (array_own _ id) as [v|] eqn:Ho.
    { intros ->. apply array_own_value in Ho as [[n ?]|[x ?]]; done. }
    destruct (assoc id array_prototype); [done|].
    destruct (assoc id object_prototype) as [[]|]; try done.
    intros [= ->]. by right.
  - by destruct (assoc id object_prototype) as [[]|].
Qed.

Lemma recorded_None s id :
  (∀ r, bundleResultCache_get s id ≠ VArray r) → recorded s id = None.
Proof.
  intros Hn. unfold recorded.
  destruct (bundleResultCache_get s id) as [|r| | | |] eqn:E; try done.
  by destruct (Hn r).
Qed.

(** The result recorded for a name other than the one assigned to is not
    affected by the assignment. *)
Lemma recorded_put_other k r s id :
  id ≠ k → recorded (bundleResultCache_put k r s) id = recorded s id.
Proof.
  intros Hne.
  destruct (put_frame k r s) as (_ & _ & P3 & _). simpl in P3.
  destruct (put_cases k r s) as [(E1 & E2 & _)|(E1 & Hn & Ha & E2)].
  - unfold recorded, bundleResultCache_get, array_at.
    rewrite E1, E2, P3. by rewrite lookup_insert_ne.
  - apply accessor_name in Ha as Hk.
    destruct (bundleResultCache s !! id) as [r0|] eqn:Hid.
    + unfold recorded, bundleResultCache_get. by rewrite E1, Hid, P3.
    + rewrite !recorded_None; [done| |].
      * intros r' [?|(_ & Hid' & _)]%get_array_inv; [congruence|].
        apply accessor_name in Hid'. congruence.
      * intros r' [Ho|(_ & Hid' & _)]%get_array_inv.
        -- rewrite E1 in Ho. congruence.
        -- apply accessor_name in Hid'. congruence.
Qed.

Lemma recorded_ext s s' k :
  bundleResultCache s' = bundleResultCache s →
  bundleResultCache_proto s' = bundleResultCache_proto s →
  arrays s' = arrays s →
  recorded s' k = recorded s k.
Proof.
  intros E1 E2 E3. unfold recorded. by rewrite (get_ext s s' k), E3.
Qed.

(** The prototype of [bundleResultCache], once an array, stays one. *)
Lemma proto_step o s :
  is_Some (bundleResultCache_proto s) → is_Some (bundleResultCache_proto (step o s)).
Proof.
  assert (Hpub : ∀ b r s0, is_Some (bundleResultCache_proto s0) →
            is_Some (bundleResultCache_proto (state_of (publish b r s0)))).
  { intros b r s0 H0. destruct (falsy b) eqn:Hf; [by rewrite publish_falsy|].
    apply falsy_false in Hf as (id & -> & Hne). rewrite publish_proto by done.
    destruct (put_cases id r s0) as [(_ & -> & _)|(_ & _ & _ & ->)]; eauto. }
  intros Hs. destruct o as [paths arg1 arg2|deps args|bundleId|k ev]; simpl.
  - destruct (loadjs paths arg1 arg2 s) as [s'|] eqn:Hl; [|done].
    by rewrite (loadjs_proto _ _ _ _ _ Hl).
  - unfold ready. by rewrite subscribe_proto.
  - unfold done, done_completion. by apply Hpub.
  - destruct (doc_head s !! k) as [e|]; [|done]. unfold onevent.
    destruct (loaders s !! el_callbackFn e) as [L|] eqn:HL;
      [|by rewrite loadFiles_fn_dangling].
    rewrite (loadFiles_fn_eq _ _ _ _ _ _ HL).
    destruct (terminal _ _); [|done]. cbv zeta.
    assert (H2 : is_Some (bundleResultCache_proto
                   (resolved (el_callbackFn e) L (el_path e) (event_result e ev)
                      (defaultPrevented ev) s))).
    { unfold resolved. by destruct (failing _ _). }
    destruct (l_numWaiting L - 1 =? 0); [|done].
    unfold loadjs_callback. apply Hpub. by rewrite success_or_fail_eq.
Qed.

(** A name whose lookup yields an array keeps doing so. *)
Lemma get_array_step o s id r :
  bundleResultCache_get s id = VArray r →
  ∃ r', bundleResultCache_get (step o s) id = VArray r'.
Proof.
  intros Hg. destruct (bundleResultCache s !! id) as [r0|] eqn:Hown.
  - destruct (settled_step o s id) as [r' Hr']; [by eexists|].
    exists r'. by apply get_own.
  - (* only the getter of [__proto__] yields an array that is not own *)
    assert (Hacc : assoc id object_prototype = Some ProtoAccessor ∧
                   is_Some (bundleResultCache_proto s)).
    { apply get_array_inv in Hg as [?|(_ & ? & ?)]; [congruence|eauto]. }
    destruct Hacc as [Ha Hp].
    destruct (proto_step o s Hp) as [a' Ha'].
    destruct (bundleResultCache (step o s) !! id) as [r1|] eqn:Hown'.
    + exists r1. by apply get_own.
    + exists a'. unfold bundleResultCache_get, object_member.
      rewrite Hown', Ha', (object_member_not_array_own _ _ _ Ha).
      rewrite (accessor_name _ Ha). done.
Qed.

(** C6, as the code has it.  Once a lookup of a bundle id in the result
    cache yields a published array it keeps yielding one: no operation
    removes a result.  [ready] does not change the recorded results, and a
    publication for another id does not change the result recorded for
    this one.  A later publication for the same id, however, replaces the
    recorded result; [done] replaces it with an empty list.  A [ready]
    that comes later is served from the array that is recorded then: its
    callback is told that the id failed exactly when that array is not
    empty at that time. *)
Theorem published_result_until_republished :
  (∀ s ops id r,
     bundleResultCache_get s id = VArray r →
     ∃ r', bundleResultCache_get (run ops s) id = VArray r') ∧
  (∀ s deps args id, recorded (ready deps args s) id = recorded s id) ∧
  (∀ s id id' r, id' ≠ id →
     recorded (state_of (publish (Some id') r s)) id = recorded s id) ∧
  (∀ s id r, id ≠ "" →
     bundleResultCache_get (state_of (publish (Some id) r s)) id = VArray r) ∧
  (∀ s id, id ≠ "" → recorded (done id s) id = Some []) ∧
  (∀ s id r args,
     bundleResultCache_get s id = VArray r →
     let depsNotFound := if nonempty (array_at s r) then [id] else [] in
     log (ready (One id) args s) =
       log s ++ CallbackFn (length (waiters s)) depsNotFound ::
         user_events args depsNotFound).
Proof.
  split; [|split; [|split; [|split; [|split]]]].
  - intros s ops. revert s. induction ops as [|o ops IH]; intros s id r Hg; [eauto|].
    destruct (get_array_step o s id r Hg) as [r' Hr']. simpl. by eapply IH.
  - intros s deps args id. unfold ready.
    destruct (subscribe_frame deps args s) as (_ & E2 & E3 & _).
    apply recorded_ext; [done|apply subscribe_proto|done].
  - intros s id id' r Hne.
    destruct (falsy (Some id')) eqn:Hf; [by rewrite publish_falsy|].
    apply falsy_false in Hf as (? & [= <-] & Hne').
    destruct (publish_frame id' r s Hne') as (_ & E2 & _ & _ & E5 & _).
    rewrite <- (recorded_put_other id' r s id) by done.
    apply recorded_ext; [done|by apply publish_proto|].
    rewrite E5. by destruct (put_frame id' r s) as (_ & _ & -> & _).
  - intros s id r Hne. by apply publish_get.
  - intros s id Hne. by apply recorded_done.
  - intros s id r args Hg. cbv zeta. unfold ready. rewrite subscribe_eq. simpl.
    set (s0 := set_waiters _ s).
    assert (Hg0 : bundleResultCache_get s0 id = VArray r) by (by rewrite <- Hg).
    rewrite subscribe_body_eq, Hg0. simpl.
    erewrite subscribe_fn_eq; [|unfold s0; simpl; by rewrite list_lookup_middle].
    cbv zeta. change (has_length s0 (VArray r)) with (nonempty (array_at s r)).
    unfold fn_events, fn_waiter. simpl. by destruct (nonempty (array_at s r)).
Qed.

Lemma failed_when_settled_app id ops ops' s :
  ¬ settled (run ops s) id →
  failed_when_settled id s (ops ++ ops') = failed_when_settled id (run ops s) ops'.
Proof.
  revert s. induction ops as [|o ops IH]; intros s Hs; [done|].
  simpl in *. rewrite decide_False.
  - by apply IH.
  - intros Hs0. apply Hs. by apply settled_run, settled_step.
Qed.

(** X18.  [done] with a bundle id (a non-empty string) makes an empty
    array the recorded result of the id, whatever [bundleIdCache] and the
    loaders say.  A [ready] for that id that follows calls its callback at
    once, with no failed id, so [success] is called.  A waiter that [ready]
    had queued for the id before, the lookup of the id being falsy then,
    gets the same call when [done] runs; for a plain id this also holds
    when other operations came in between and the id was still
    unsettled. *)
Theorem done_satisfies_subscribers (s : state) (id : string) (args : options) :
  id ≠ "" →
  (recorded (done id s) id = Some [] ∧
   bundleIdCache (done id s) = bundleIdCache s ∧
   loaders (done id s) = loaders s ∧
   doc_head (done id s) = doc_head s) ∧
  (let s1 := done id s in
   log (ready (One id) args s1) =
     log s1 ++ CallbackFn (length (waiters s1)) [] ::
       match success args with Some f => [Success f] | None => [] end) ∧
  (reachable s → truthy (bundleResultCache_get s id) = false →
   let s1 := ready (One id) args s in
   log s1 = log s ∧
   ∃ t, log (done id s1) =
     log s ++ t ++ CallbackFn (length (waiters s)) [] ::
       match success args with Some f => [Success f] | None => [] end) ∧
  (reachable s → plain id →
   ∀ ops,
     let s2 := run ops (ready (One id) args s) in
     ¬ settled s2 id →
     calls (length (waiters s)) (log s2) = [] ∧
     calls (length (waiters s)) (log (done id s2)) = [[]]).
Proof.
  intros Hne. destruct (done_result id s Hne) as (E1 & E2 & E3).
  split; [|split; [|split]].
  - split; [by apply recorded_done|]. split; [done|]. unfold done, done_completion.
    match goal with |- context [publish ?b ?r ?s0] =>
      destruct (publish_frame_any b r s0) as (_ & _ & F3 & F4 & _)
    end.
    done.
  - cbv zeta. set (s1 := done id s) in *.
    unfold ready. rewrite subscribe_eq. simpl.
    set (s0 := set_waiters _ s1).
    assert (Hg0 : bundleResultCache_get s0 id = VArray (length (arrays s)))
      by (by rewrite <- E1).
    rewrite subscribe_body_eq, Hg0. simpl.
    erewrite subscribe_fn_eq; [|unfold s0; simpl; by rewrite list_lookup_middle].
    cbv zeta.
    assert (Hl : has_length s0 (VArray (length (arrays s))) = false).
    { simpl. unfold array_at. simpl. by rewrite E2, list_lookup_middle. }
    rewrite Hl. unfold fn_events, user_events. simpl. done.
  - intros Hreach Hs. pose proof (reachable_wf _ Hreach) as Hwf. cbv zeta.
    set (q := default [] (bundleCallbackQueue s !! id)).
    set (w := length (waiters s)).
    assert (Hs1 : ready (One id) args s =
              set_bundleCallbackQueue (<[id := q ++ [w]]> (bundleCallbackQueue s))
                (set_waiters (waiters s ++ [Waiter 1 [] args]) s)).
    { unfold ready. rewrite subscribe_eq. simpl. rewrite subscribe_body_eq.
      set (s0 := set_waiters _ s).
      assert (Hg0 : bundleResultCache_get s0 id = bundleResultCache_get s id) by done.
      by rewrite Hg0, Hs. }
    rewrite Hs1. split; [done|].
    unfold done, done_completion. rewrite publish_eq by done. cbn zeta.
    change (bundleCallbackQueue (set_arrays ?a (set_bundleCallbackQueue ?m ?s0)))
      with m.
    rewrite lookup_insert_eq.
    destruct (q ++ [w]) as [|fn q'] eqn:Hq; [by destruct q|].
    rewrite <- Hq. clear Hq. rewrite foldl_app. simpl.
    set (s0 := bundleResultCache_put _ _ _).
    destruct (put_frame id (length (arrays s))
                (set_arrays (arrays s ++ [[]])
                   (set_bundleCallbackQueue (<[id := q ++ [w]]> (bundleCallbackQueue s))
                      (set_waiters (waiters s ++ [Waiter 1 [] args]) s))))
      as (_ & _ & P3 & P4 & _ & _ & P7).
    fold s0 in P3, P4, P7. simpl in P3, P4, P7.
    assert (Hw : w ∉ q).
    { intros Hin. unfold q in Hin.
      destruct (bundleCallbackQueue s !! id) as [q0|] eqn:Hq0; simpl in Hin.
      - pose proof (wf_queue_refs _ Hwf _ _ _ Hq0 Hin). unfold w in *. lia.
      - by apply elem_of_nil in Hin. }
    destruct (foldl_fn_frame q id (VArray (length (arrays s))) s0)
      as (_ & _ & _ & F4 & _ & _ & _ & t & Et & _).
    destruct (foldl_fn_waiter w args id (VArray (length (arrays s))) q s0 1 [])
      as [HW _].
    { rewrite P4. by rewrite list_lookup_middle. }
    { rewrite (occ_not_in w q Hw). lia. }
    rewrite (occ_not_in w q Hw) in HW. cbv zeta in HW, Et, F4. simpl in HW.
    replace (if nonempty (array_at s0 (length (arrays s))) then [] else [])
      with ([] : list string) in HW by (by destruct (nonempty _)).
    exists t. rewrite (subscribe_fn_eq _ _ _ _ _ HW). cbv zeta.
    assert (Hl : has_length
                   (foldl (λ s' fn, subscribe_fn fn id (VArray (length (arrays s))) s')
                      s0 q) (VArray (length (arrays s))) = false).
    { simpl. unfold array_at. rewrite F4, P3. by rewrite list_lookup_middle. }
    rewrite Hl. simpl. rewrite Et, P7. simpl.
    unfold fn_events, user_events. simpl. by rewrite <- app_assoc.
  - intros Hreach Hplain ops s2 Hs2. pose proof (reachable_wf _ Hreach) as Hwf.
    set (s1 := ready (One id) args s) in *.
    set (G := λ id', failed_when_settled id' s1 (ops ++ [OpDone id])).
    assert (Hpl : Forall plain [id]) by (by constructor).
    assert (Hs1 : ¬ settled s1 id).
    { intros Hs1. apply Hs2. by apply settled_run. }
    assert (H1 : winv (length (waiters s)) 1 args G [id] s1).
    { apply (winv_subscribe_new (One id) args G s Hwf Hpl).
      intros id' Hin Hs. apply list_elem_of_singleton in Hin as ->.
      destruct Hs1. unfold settled, s1, ready in *.
      destruct (subscribe_frame (One id) args s) as (_ & E & _). by rewrite E. }
    assert (Hwf1 : wf s1) by (by apply wf_subscribe).
    assert (Hown : ∀ s0, bundleResultCache (done id s0) !! id =
                         Some (length (arrays s0))).
    { intros s0. apply done_result_own; [done|]. right.
      by rewrite (plain_not_inherited _ Hplain). }
    assert (HG : G id = false).
    { unfold G. rewrite failed_when_settled_app by done. fold s2. simpl.
      rewrite decide_False by done. unfold failed_in, array_at.
      destruct (done_result id s2 Hne) as (_ & F2 & _).
      rewrite Hown, F2. by rewrite list_lookup_middle. }
    pose proof (winv_run _ _ _ _ (ops ++ [OpDone id]) _ G Hwf1 Hpl H1 (λ _ _ _, eq_refl))
      as [(D & _ & HD & HC) _ _].
    assert (H2 : winv (length (waiters s)) 1 args G [id] s2).
    { apply winv_run; [done|done|done|].
      intros id' Hin Hs. apply list_elem_of_singleton in Hin as ->.
      rewrite HG. symmetry.
      destruct (failed_when_settled id s1 ops) eqn:Hf; [|done].
      exfalso. clear -Hf Hs2. unfold s2 in Hs2. revert Hf Hs2.
      generalize s1. induction ops as [|o ops IH]; intros s0 Hf Hs.
      - simpl in *. unfold failed_in, settled in *.
        destruct (bundleResultCache s0 !! id); [|done]. apply Hs. eauto.
      - simpl in *. destruct (decide (settled s0 id)) as [Hs0|Hs0].
        + apply Hs. by apply settled_run, settled_step.
        + by eapply IH. }
    destruct H2 as [(D2 & _ & _ & HC2) _ _].
    rewrite run_app in HC, HD. fold s2 in HC, HD. simpl in HC, HD.
    split.
    + rewrite HC2. rewrite decide_False; [done|]. intros [Hn _].
      unfold nsettled in Hn. rewrite filter_cons, decide_False in Hn by done. done.
    + rewrite HC.
      assert (Hsd : settled (done id s2) id).
      { unfold settled. rewrite Hown. eauto. }
      rewrite decide_True.
      * f_equal. rewrite filter_cons, decide_False in HD by (rewrite HG; by intros [_ ?]).
        simpl in HD. by apply Permutation_nil_r in HD.
      * split; [|done]. unfold nsettled. by rewrite filter_cons, decide_True.
Qed.

(** * Instances *)

(** [ready(["b1","b2"], {success, fail})], where b1 then settles without a
    failure and b2 with one failed path: one call, with [["b2"]]. *)
Lemma subscribe_callback_once_witness :
  calls 0 (log (run two_bundles
                  (subscribe (Many ["b1"; "b2"]) (Options (Some "ok") (Some "cb") None)
                     init))) = [["b2"]].
Proof.
  destruct (subscribe_callback_once init (Many ["b1"; "b2"])
              (Options (Some "ok") (Some "cb") None) two_bundles reachable_init)
    as [_ H]; [done|repeat constructor; done|].
  destruct H as (D & HC & HD).
  - intros id Hin. unfold settled.
    apply elem_of_cons in Hin as [->|Hin]; [vm_compute; eauto|].
    apply list_elem_of_singleton in Hin as ->. vm_compute. eauto.
  - vm_compute in HD. apply Permutation_singleton_r in HD. subst D. exact HC.
Defined.

(** A loader of two paths: an unprevented [beforeload] changes nothing, an
    [error] leaves one path to wait for. *)
Lemma loadFiles_wait_counter_witness :
  let s := loadFiles (Many ["a.js"; "b.js"]) None no_options None init in
  loadFiles_fn 0 "a.js" "b" false s = s ∧
  loaders (loadFiles_fn 0 "a.js" "e" false s) !! 0%nat =
    Some (Loader 1 0 None no_options).
Proof.
  intros s. destruct loadFiles_wait_counter as (_ & H & _).
  destruct (H 0%nat (Loader 2 0 None no_options) "a.js" false s eq_refl)
    as (Hb & _ & He & _).
  split; [exact Hb|]. rewrite He. reflexivity.
Defined.

(** Loading bundle id "b1" twice: the second call throws. *)
Lemma loadjs_duplicate_id_witness :
  ∃ s1, loadjs (One "a.js") (Str "b1") None init = Returned s1 ∧
        loadjs (One "x.js") (Str "b1") None s1 = Thrown "LoadJS".
Proof.
  destruct (loadjs_duplicate_id init "b1" (One "a.js") None) as [_ H]; [done|].
  destruct (H eq_refl) as (_ & Hret & Hlater).
  eexists. split; [exact Hret|].
  destruct (Hlater _ [] (One "x.js") None Hret) as (_ & Hthrow & _).
  exact Hthrow.
Defined.

(** Two waiters queued for "b1": the publication records the result and
    empties the queue. *)
Lemma publish_drains_fifo_witness :
  let s := run [OpReady (One "b1") (Options (Some "first") None None);
                OpReady (One "b1") (Options (Some "second") None None)] init in
  bundleCallbackQueue s !! "b1" = Some [0%nat; 1%nat] ∧
  bundleResultCache_get (state_of (publish (Some "b1") 0 s)) "b1" = VArray 0 ∧
  default [] (bundleCallbackQueue (state_of (publish (Some "b1") 0 s)) !! "b1") = [].
Proof.
  intros s. destruct (publish_drains_fifo (Some "b1") 0 s) as (_ & H & _).
  destruct (H "b1" eq_refl) as (Hc & Hq & _); [done|].
  split; [reflexivity|]. split; [exact Hc|exact Hq].
Defined.

(** C6 fails on the code: the result recorded for "b1" by the load, one
    failed path, is replaced by [done("b1")] with an empty list. *)
Lemma published_result_replaced_by_done :
  result_of failed_bundle "b1" = Some ["a.js"] ∧
  result_of (step (OpDone "b1") failed_bundle) "b1" = Some [].
Proof. split; vm_compute; reflexivity. Qed.

(** The failed bundle "b1": a later [ready] does not change its result and
    is told of the failure; [done("b1")] replaces the result. *)
Lemma published_result_until_republished_witness :
  recorded (ready (One "b1") no_options failed_bundle) "b1" = Some ["a.js"] ∧
  log (ready (One "b1") (Options None (Some "ko") None) failed_bundle) =
    log failed_bundle ++ [CallbackFn 0 ["b1"]; Fail "ko" ["b1"]] ∧
  recorded (done "b1" failed_bundle) "b1" = Some [].
Proof.
  destruct published_result_until_republished as (_ & H2 & _ & _ & H5 & H6).
  split; [|split].
  - rewrite H2. reflexivity.
  - rewrite (H6 failed_bundle "b1" 0%nat); reflexivity.
  - apply H5. done.
Defined.

(** [done("x")] followed by [ready("x", {success})] calls [success]. *)
Lemma done_satisfies_subscribers_witness :
  log (ready (One "x") (Options (Some "ok") None None) (done "x" init)) =
    [CallbackFn 0 []; Success "ok"].
Proof.
  destruct (done_satisfies_subscribers init "x" (Options (Some "ok") None None))
    as (_ & H & _); [done|].
  cbv zeta in H. rewrite H. reflexivity.
Defined.

(** C8 fails on the code: a script loaded as
    [loadjs("a.js", undefined, {success})] loads, and [success] is not
    called. *)
Lemma anonymous_load_third_parameter_ignored :
  let s1 := step (OpLoad (One "a.js") Undefined (Some (Options (Some "ok") None None)))
              init in
  doc_head s1 = [Script "a.js" true 0] ∧
  log (run [OpFire 0 ev_load] s1) = [LoadCallback 0 []].
Proof. split; vm_compute; reflexivity. Qed.

(** One script without a bundle id that loads: [success] of the second
    parameter is called and the registry stays empty. *)
Lemma anonymous_load_leaves_registry_witness :
  let args := Options (Some "ok") None None in
  let s1 := loadFiles (One "a.js") None args None init in
  let s' := run (fires [(0%nat, ev_load)]) s1 in
  log s' = [LoadCallback 0 []; Success "ok"] ∧
  bundleIdCache s' = ∅ ∧ bundleResultCache s' = ∅ ∧ bundleCallbackQueue s' = ∅.
Proof.
  intros args s1 s'.
  destruct (anonymous_load_leaves_registry init s1 (One "a.js") (Obj args) None
              [(0%nat, ev_load)] eq_refl eq_refl)
    as (Hlog & _ & H1 & H2 & _ & H3).
  - repeat constructor; eexists; split; reflexivity.
  - done.
  - reflexivity.
  - repeat constructor.
  - split; [exact Hlog|]. split; [exact H1|]. split; [exact H2|exact H3].
Defined.

(** [ready([], ...)] and then [done("x")]: no call. *)
Lemma subscribe_empty_never_calls_witness :
  calls 0 (log (run [OpDone "x"] (ready (Many []) (Options (Some "ok") None None) init)))
    = [].
Proof.
  destruct (subscribe_empty_never_calls init (Options (Some "ok") None None)
              [OpDone "x"] reachable_init) as (_ & _ & _ & H).
  exact H.
Defined.



(** C3 fails on the code: with [loadjs("a.js", undefined, {success, fail})]
    the script fails to load, the callback of the load is called, and
    neither [success] nor [fail] is. *)
Lemma loadjs_third_parameter_ignored :
  let s1 := step (OpLoad (One "a.js") Undefined
                    (Some (Options (Some "ok") (Some "ko") None))) init in
  doc_head s1 = [Script "a.js" true 0] ∧
  log (run [OpFire 0 ev_error] s1) = [LoadCallback 0 ["a.js"]].
Proof. split; vm_compute; reflexivity. Qed.

(** ** Bundle ids that name members of [Object.prototype] *)

(** C1 at the id ["constructor"], on the initial state: the callback is
    called at once, with the id as failed, although nothing was published
    for the id: the lookup finds the inherited function [Object], whose
    [length] is 1. *)
Theorem subscribe_inherited_name_called_at_once :
  let s1 := ready (One "constructor") (Options (Some "ok") (Some "ko") None) init in
  bundleResultCache init !! "constructor" = None ∧
  log s1 = [CallbackFn 0 ["constructor"]; Fail "ko" ["constructor"]] ∧
  bundleResultCache s1 !! "constructor" = None ∧
  bundleCallbackQueue s1 !! "constructor" = None.
Proof. repeat split; vm_compute; reflexivity. Qed.

(** C4 at the id ["constructor"]: the first [loadjs] with the id throws,
    although no call has used the id, and the id is not recorded. *)
Theorem loadjs_inherited_name_throws :
  bundleIdCache init !! "constructor" = None ∧
  loadjs (One "a.js") (Str "constructor") None init = Thrown "LoadJS" ∧
  step (OpLoad (One "a.js") (Str "constructor") None) init = init.
Proof. repeat split; vm_compute; reflexivity. Qed.

(** C5 at the id ["constructor"], which owns no queue: [publish] stores
    the array and then takes the inherited function for the queue; its
    [length] is 1 and it has no element [0], so the call throws. *)
Theorem publish_inherited_name_throws :
  let s := set_arrays [[]] init in
  bundleCallbackQueue s !! "constructor" = None ∧
  publish (Some "constructor") 0 s =
    Abrupt "TypeError" (set_bundleResultCache {["constructor" := 0%nat]} s).
Proof. split; vm_compute; reflexivity. Qed.

(** C7 at the id ["constructor"]: a [ready] before [done] is not queued
    but answered at once, with a failure; [done] then records the empty
    array and throws, calling nobody. *)
Theorem done_inherited_name_throws :
  let s1 := ready (One "constructor") (Options (Some "ok") (Some "ko") None) init in
  log s1 = [CallbackFn 0 ["constructor"]; Fail "ko" ["constructor"]] ∧
  ∃ s2, done_completion "constructor" s1 = Abrupt "TypeError" s2 ∧
        log s2 = log s1 ∧
        result_of s2 "constructor" = Some [].
Proof.
  split; [vm_compute; reflexivity|].
  eexists. split; [vm_compute; reflexivity|]. split; vm_compute; reflexivity.
Qed.

(** * Further properties of the loader *)

(** ** Elements and events *)

Lemma substring_skip (p s : string) (m : nat) :
  String.substring (String.length p) m (p +:+ s) = String.substring 0 m s.
Proof. induction p as [|c p IH]; [done|]. simpl. exact IH. Qed.

Lemma substring_all (s : string) (m : nat) :
  (String.length s ≤ m)%nat → String.substring 0 m s = s.
Proof.
  revert m. induction s as [|c s IH]; intros m Hm; [by destruct m|].
  destruct m as [|m]; simpl in *; [lia|]. f_equal. apply IH. lia.
Qed.

Lemma substring_split (s : string) (k : nat) :
  (k ≤ String.length s)%nat →
  s = String.substring 0 k s +:+ String.substring k (String.length s - k) s.
Proof.
  revert k. induction s as [|c s IH]; intros k Hk.
  - simpl in Hk. assert (k = 0%nat) as -> by lia. done.
  - destruct k as [|k]; simpl.
    + change ("" +:+ ?x) with x. f_equal. symmetry. by apply substring_all.
    + change (String c ?x +:+ ?y) with (String c (x +:+ y)).
      f_equal. apply IH. simpl in Hk. lia.
Qed.

Lemma length_append (p s : string) :
  String.length (p +:+ s) = (String.length p + String.length s)%nat.
Proof. induction p as [|c p IH]; [done|]. simpl. by rewrite IH. Qed.

(** X1.  [/\.css$/]: a path is taken for a style sheet exactly when it ends
    with the four characters [.css]. *)
Theorem is_css_suffix (path : string) :
  is_css path = true ↔ ∃ p, path = p +:+ ".css".
Proof.
  unfold is_css. rewrite String.eqb_eq. split.
  - intros Hs. destruct (le_lt_dec 4 (String.length path)) as [Hl|Hl].
    + exists (String.substring 0 (String.length path - 4) path).
      pose proof (substring_split path (String.length path - 4)) as Hsp.
      replace (String.length path - (String.length path - 4))%nat with 4%nat in Hsp by lia.
      rewrite Hs in Hsp. apply Hsp. lia.
    + replace (String.length path - 4)%nat with 0%nat in Hs by lia.
      rewrite substring_all in Hs by lia. exists "". by rewrite Hs.
  - intros [p ->]. rewrite length_append. simpl.
    replace (String.length p + 4 - 4)%nat with (String.length p) by lia.
    by rewrite substring_skip.
Qed.

(** X2.  A [loadjs] that returns has appended one element per path, in the
    order of the paths and after the elements that were there: a [link]
    with [rel = "stylesheet"] for a path that ends in [.css], a [script]
    otherwise, whose [async] attribute is [args.async], or [true] when
    that is absent.  The handler of each new element reports to the loader
    created by this call. *)
Theorem loadjs_dispatches_each_path (s s1 : state) (paths : str_or_list)
    (arg1 : jsval) (arg2 : option options) :
  loadjs paths arg1 arg2 s = Returned s1 →
  ∃ new,
    doc_head s1 = doc_head s ++ new ∧
    map el_path new = listify paths ∧
    Forall (λ e,
      el_callbackFn e = length (loaders s) ∧
      match e with
      | Link rel href _ => rel = "stylesheet" ∧ is_css href = true
      | Script src a _ =>
        is_css src = false ∧ a = default true (async (args_of arg1 arg2))
      end) new.
Proof.
  intros Hl. destruct (loadjs_returned _ _ _ _ _ Hl) as (_ & _ & _ & _ & _ & _ & E7 & _).
  eexists. split; [exact E7|]. clear E7. split.
  - induction (listify paths) as [|p ps IH]; [done|]. simpl. rewrite IH.
    f_equal. unfold new_element. by destruct (is_css p).
  - apply Forall_forall. intros e He.
    apply list_elem_of_fmap in He as (p & -> & _).
    unfold new_element. destruct (is_css p) eqn:Hp; done.
Qed.

(** X3.  What the handler of an element makes of an event.  On a browser
    with [hideFocus], every event at a style-sheet element whose sheet is
    empty or cannot be read counts as a failure, whatever its type.
    Otherwise an [error] event and a default-prevented [beforeload] count
    as failures, a [load] event counts as a success, and a [beforeload]
    that was not prevented does not count at all. *)
Theorem event_classification (e : element) (ev : dom_event) :
  let unreadable :=
    el_isCss e && hideFocus ev &&
    match cssText ev with
    | Some t => Nat.eqb (String.length t) 0
    | None => true
    end in
  failing (event_result e ev) (defaultPrevented ev) =
    unreadable ||
    match ev_type ev with
    | Error => true
    | Beforeload => defaultPrevented ev
    | Load => false
    end ∧
  terminal (event_result e ev) (defaultPrevented ev) =
    unreadable ||
    match ev_type ev with
    | Beforeload => defaultPrevented ev
    | _ => true
    end.
Proof.
  unfold event_result, failing, terminal.
  destruct (el_isCss e), (hideFocus ev), (cssText ev) as [t|], (ev_type ev),
    (defaultPrevented ev); simpl;
    try destruct (Nat.eqb (String.length t) 0); done.
Qed.

(** X12.  [loadjs] throws in one case only: the second argument is a
    non-empty string for which [bundleId in bundleIdCache] holds, that is,
    a string that an earlier call has recorded in [bundleIdCache] or the
    name of a member of [Object.prototype]; the error is
    [Error("LoadJS")].  It never throws for an object, for [undefined] or
    for the empty string. *)
Theorem loadjs_throws_iff (s : state) (paths : str_or_list) (arg1 : jsval)
    (arg2 : option options) (msg : string) :
  loadjs paths arg1 arg2 s = Thrown msg ↔
  msg = "LoadJS" ∧
  ∃ id, arg1 = Str id ∧ id ≠ "" ∧
        (is_Some (bundleIdCache s !! id) ∨ is_Some (assoc id object_prototype)).
Proof.
  unfold loadjs. split.
  - destruct (bundleId_of arg1) as [id|] eqn:Hb; [|done].
    apply bundleId_of_Some in Hb as [-> Hne].
    destruct (bundleIdCache_has s id) eqn:Hhas; [|done]. intros [= <-].
    apply has_true in Hhas. eauto.
  - intros (-> & id & -> & Hne & Hs). simpl.
    rewrite bool_decide_eq_false_2 by done.
    by rewrite (proj2 (has_true s id) Hs).
Qed.

(** ** The callback of a load over a whole run *)

Lemma load_calls_app l t1 t2 :
  load_calls l (t1 ++ t2) = load_calls l t1 ++ load_calls l t2.
Proof.
  induction t1 as [|e t1 IH]; [done|].
  destruct e; simpl; try done. case_decide; simpl; by rewrite IH.
Qed.

Lemma load_calls_none l t : (∀ d, LoadCallback l d ∉ t) → load_calls l t = [].
Proof.
  induction t as [|e t IH]; intros Hn; [done|].
  assert (load_calls l t = []) as Ht.
  { apply IH. intros d Hd. apply (Hn d). by right. }
  destruct e; simpl; try done. case_decide; [|done].
  subst. destruct (Hn pathsNotFound). by left.
Qed.

Lemma load_calls_user_events l args xs : load_calls l (user_events args xs) = [].
Proof.
  apply load_calls_none. intros d Hd.
  destruct (user_events_user _ _ _ Hd) as [[f ?]|(f & ys & ?)]; done.
Qed.

Lemma loadjs_loaders paths arg1 arg2 s s1 :
  loadjs paths arg1 arg2 s = Returned s1 →
  loaders s1 = loaders s ++
    [Loader (Z.of_nat (length (listify paths))) (length (arrays s))
       (bundleId_of arg1) (args_of arg1 arg2)].
Proof.
  unfold loadjs. destruct (bundleId_of arg1) as [id|].
  - destruct (bundleIdCache_has _ _); [done|]. intros [= <-].
    match goal with |- context [loadFiles ?p ?b ?a ?y ?s0] =>
      destruct (loadFiles_eq p b a y s0) as (_ & _ & _ & _ & _ & _ & F7 & _)
    end.
    exact F7.
  - intros [= <-].
    match goal with |- context [loadFiles ?p ?b ?a ?y ?s0] =>
      destruct (loadFiles_eq p b a y s0) as (_ & _ & _ & _ & _ & _ & F7 & _)
    end.
    exact F7.
Qed.

Lemma load_calls_inv_frame s s' :
  load_calls_inv s →
  loaders s' = loaders s →
  (∃ t, log s' = log s ++ t ∧ ∀ l d, LoadCallback l d ∉ t) →
  load_calls_inv s'.
Proof.
  intros Hinv EL (t & Et & Ht) l. rewrite EL, Et, load_calls_app.
  rewrite (load_calls_none l t) by (intros d; apply Ht). rewrite app_nil_r.
  apply Hinv.
Qed.

Lemma load_calls_inv_step o s :
  wf s → load_calls_inv s → load_calls_inv (step o s).
Proof.
  intros Hwf Hinv. destruct o as [paths arg1 arg2|deps args|bundleId|k ev]; simpl.
  - destruct (loadjs paths arg1 arg2 s) as [s'|] eqn:Hl; [|done].
    destruct (loadjs_returned _ _ _ _ _ Hl) as (_ & _ & _ & _ & _ & _ & _ & E8).
    pose proof (loadjs_loaders _ _ _ _ _ Hl) as EL.
    intros l. rewrite E8, EL. split; [apply Hinv|].
    intros L HL Hpos. apply lookup_app_Some in HL as [HL|[Hge _]].
    + by eapply Hinv.
    + apply load_calls_none. intros d Hd.
      pose proof (wf_log _ Hwf) as Hlog. rewrite Forall_forall in Hlog.
      specialize (Hlog _ Hd). simpl in Hlog. lia.
  - destruct (subscribe_frame deps args s) as (_ & _ & _ & E4 & _).
    destruct (subscribe_queue_log deps args s "") as (_ & Hlog).
    by eapply load_calls_inv_frame.
  - unfold done, done_completion.
    match goal with |- context [publish ?b ?r ?s0] =>
      destruct (publish_frame_any b r s0) as (_ & _ & F3 & _);
      pose proof (publish_log b r s0) as Hlog
    end.
    by eapply load_calls_inv_frame.
  - destruct (doc_head s !! k) as [e|]; [|done]. unfold onevent.
    set (l' := el_callbackFn e).
    destruct (loaders s !! l') as [L'|] eqn:HL'; [|by rewrite loadFiles_fn_dangling].
    rewrite (loadFiles_fn_eq _ _ _ _ _ _ HL').
    destruct (terminal _ _); [|done]. cbv zeta.
    destruct (resolved_frame l' L' (el_path e) (event_result e ev) (defaultPrevented ev) s)
      as (_ & _ & _ & _ & _ & E6 & _).
    assert (EL : loaders (resolved l' L' (el_path e) (event_result e ev)
                   (defaultPrevented ev) s) =
                 <[l' := Loader (l_numWaiting L' - 1) (l_pathsNotFound L')
                           (l_bundleId L') (l_args L')]> (loaders s)).
    { unfold resolved. simpl.
      destruct (failing (event_result e ev) (defaultPrevented ev)); done. }
    set (s2 := resolved _ _ _ _ _ s) in *. clearbody s2.
    assert (Hlook : ∀ l L, loaders s2 !! l = Some L →
              (l = l' ∧ l_numWaiting L = l_numWaiting L' - 1) ∨
              (l ≠ l' ∧ loaders s !! l = Some L)).
    { intros l L. rewrite EL. destruct (decide (l = l')) as [->|Hne].
      - rewrite list_lookup_insert_eq by (by eapply lookup_lt_Some).
        intros [= <-]. by left.
      - rewrite list_lookup_insert_ne by done. by right. }
    destruct (Z.eqb_spec (l_numWaiting L' - 1) 0) as [Hz|Hz].
    + unfold loadjs_callback.
      match goal with |- context [publish ?b ?r ?s0] =>
        destruct (publish_frame_any b r s0) as (_ & _ & F3 & _);
        destruct (publish_log b r s0) as (t & Et & Ht)
      end.
      rewrite success_or_fail_eq in *. simpl in *.
      intros l. rewrite Et, F3, E6.
      rewrite !load_calls_app, load_calls_user_events, app_nil_r.
      rewrite (load_calls_none l t) by (intros d; apply Ht). rewrite app_nil_r.
      simpl. destruct (decide (l' = l)) as [<-|Hne].
      * destruct (Hinv l') as [_ H0]. rewrite (H0 L' HL') by lia. simpl.
        split; [lia|]. intros L HL Hpos.
        destruct (Hlook _ _ HL) as [[_ Hn]|[? _]]; [lia|done].
      * rewrite app_nil_r. destruct (Hinv l) as [H1 H0]. split; [done|].
        intros L HL Hpos.
        destruct (Hlook _ _ HL) as [[-> _]|[_ HL0]]; [done|by eapply H0].
    + intros l. rewrite E6. destruct (Hinv l) as [H1 H0]. split; [done|].
      intros L HL Hpos.
      destruct (Hlook _ _ HL) as [[-> Hn]|[_ HL0]]; [|by eapply H0].
      apply (H0 L' HL'). lia.
Qed.

(** * One load among other operations *)

Lemma loadFiles_fn_log l path result dp s :
  ∃ t, log (loadFiles_fn l path result dp s) = log s ++ t ∧
       ∀ l' d, LoadCallback l' d ∈ t → l' = l.
Proof.
  destruct (loaders s !! l) as [L|] eqn:HL.
  - rewrite (loadFiles_fn_eq _ _ _ _ _ _ HL).
    destruct (terminal result dp).
    2: { exists []. rewrite app_nil_r. split; [done|].
         intros l' d Hd. by apply elem_of_nil in Hd. }
    cbv zeta.
    destruct (resolved_frame l L path result dp s) as (_ & _ & _ & _ & _ & E6 & _).
    set (s2 := resolved l L path result dp s) in *. clearbody s2.
    destruct (l_numWaiting L - 1 =? 0).
    + unfold loadjs_callback.
      match goal with |- context [publish ?b ?r ?s0] =>
        destruct (publish_log b r s0) as (t & Et & Ht)
      end.
      rewrite success_or_fail_eq in *. simpl in *. rewrite Et, E6.
      eexists. rewrite <- !app_assoc. split; [done|].
      intros l' d Hd. apply elem_of_app in Hd as [Hd|Hd].
      * apply list_elem_of_singleton in Hd. congruence.
      * apply elem_of_app in Hd as [Hd|Hd]; [|by destruct (Ht _ _ Hd)].
        destruct (user_events_user _ _ _ Hd) as [[f ?]|(f & ys & ?)]; done.
    + exists []. rewrite app_nil_r, E6. split; [done|].
      intros l' d Hd. by apply elem_of_nil in Hd.
  - rewrite loadFiles_fn_dangling by done. exists []. rewrite app_nil_r.
    split; [done|]. intros l' d Hd. by apply elem_of_nil in Hd.
Qed.

(** The closure of a load keeps the array of every loader and touches the
    environment and the array of its own loader only. *)
Lemma loadFiles_fn_refs l path result dp s :
  let s' := loadFiles_fn l path result dp s in
  (∀ l' L', loaders s' !! l' = Some L' →
     ∃ L0, loaders s !! l' = Some L0 ∧ l_pathsNotFound L0 = l_pathsNotFound L') ∧
  (∀ l', l' ≠ l → loaders s' !! l' = loaders s !! l') ∧
  (∀ r, (∀ L, loaders s !! l = Some L → l_pathsNotFound L ≠ r) →
        arrays s' !! r = arrays s !! r).
Proof.
  cbv zeta. destruct (loaders s !! l) as [L|] eqn:HL.
  2: { rewrite loadFiles_fn_dangling by done. split; [eauto|]. by split. }
  rewrite (loadFiles_fn_eq _ _ _ _ _ _ HL).
  destruct (terminal result dp); [|split; [eauto|]; by split]. cbv zeta.
  assert (H2 : loaders (resolved l L path result dp s) =
               <[l := Loader (l_numWaiting L - 1) (l_pathsNotFound L)
                        (l_bundleId L) (l_args L)]> (loaders s) ∧
               ∀ r, l_pathsNotFound L ≠ r →
                    arrays (resolved l L path result dp s) !! r = arrays s !! r).
  { unfold resolved, push. destruct (failing result dp); simpl; (split; [done|]).
    - intros r Hr. by rewrite list_lookup_alter_ne.
    - done. }
  destruct H2 as [EL EA].
  assert (H3 : ∀ s3, loaders s3 = loaders (resolved l L path result dp s) →
                     arrays s3 = arrays (resolved l L path result dp s) →
    (∀ l' L', loaders s3 !! l' = Some L' →
       ∃ L0, loaders s !! l' = Some L0 ∧ l_pathsNotFound L0 = l_pathsNotFound L') ∧
    (∀ l', l' ≠ l → loaders s3 !! l' = loaders s !! l') ∧
    (∀ r, (∀ L0, Some L = Some L0 → l_pathsNotFound L0 ≠ r) →
          arrays s3 !! r = arrays s !! r)).
  { intros s3 E3 E4. rewrite E3, E4, EL. split; [|split].
    - intros l' L'. destruct (decide (l' = l)) as [->|Hne].
      + rewrite list_lookup_insert_eq by (by eapply lookup_lt_Some).
        intros [= <-]. eauto.
      + rewrite list_lookup_insert_ne by done. eauto.
    - intros l' Hne. by rewrite list_lookup_insert_ne.
    - intros r Hr. apply EA. by apply Hr. }
  destruct (l_numWaiting L - 1 =? 0);
    [|exact (H3 (resolved l L path result dp s) eq_refl eq_refl)].
  unfold loadjs_callback.
  match goal with |- context [publish ?b ?r ?s0] =>
    destruct (publish_frame_any b r s0) as (_ & F2 & F3 & _);
    apply (H3 (state_of (publish b r s0)))
  end.
  - cbv zeta in F3. rewrite F3. by rewrite success_or_fail_eq.
  - cbv zeta in F2. rewrite F2. by rewrite success_or_fail_eq.
Qed.

Lemma arrays_ok_step o s : arrays_ok s → arrays_ok (step o s).
Proof.
  intros Hok. destruct o as [paths arg1 arg2|deps args|bundleId|k ev]; simpl.
  - destruct (loadjs paths arg1 arg2 s) as [s'|] eqn:Hl; [|done].
    destruct (loadjs_returned _ _ _ _ _ Hl) as (_ & E2 & _).
    pose proof (loadjs_loaders _ _ _ _ _ Hl) as EL.
    intros l L. rewrite EL. intros [HL|[_ HL]]%lookup_app_Some.
    + pose proof (Hok _ _ HL). pose proof (lookup_lt_Some _ _ _ E2). lia.
    + apply list_lookup_singleton_Some in HL as [_ <-]. simpl.
      by eapply lookup_lt_Some.
  - destruct (subscribe_frame deps args s) as (_ & _ & E3 & E4 & _).
    intros l L. unfold ready. rewrite E3, E4. apply Hok.
  - unfold done, done_completion.
    match goal with |- context [publish ?b ?r ?s0] =>
      destruct (publish_frame_any b r s0) as (_ & F2 & F3 & _)
    end.
    cbv zeta in F2, F3. intros l L. rewrite F2, F3. simpl. rewrite length_app.
    intros HL. pose proof (Hok _ _ HL). lia.
  - destruct (doc_head s !! k) as [e|]; [|done]. unfold onevent.
    match goal with |- context [loadFiles_fn ?l' ?p ?res ?d ?s0] =>
      destruct (loadFiles_fn_refs l' p res d s0) as (R1 & _);
      destruct (loadFiles_fn_frame l' p res d s0) as (_ & _ & _ & _ & R5)
    end.
    cbv zeta in R1, R5. intros l L HL. rewrite R5.
    destruct (R1 _ _ HL) as (L0 & HL0 & <-). by eapply Hok.
Qed.

Lemma reachable_arrays_ok s : reachable s → arrays_ok s.
Proof.
  induction 1 as [|o s _ IH]; [|by apply arrays_ok_step].
  intros l L Hl. simpl in Hl. by destruct l.
Qed.

Lemma log_step o s : ∃ t, log (step o s) = log s ++ t.
Proof.
  destruct o as [paths arg1 arg2|deps args|bundleId|k ev]; simpl.
  - destruct (loadjs paths arg1 arg2 s) as [s'|] eqn:Hl.
    + destruct (loadjs_returned _ _ _ _ _ Hl) as (_ & _ & _ & _ & _ & _ & _ & E8).
      exists []. by rewrite E8, app_nil_r.
    + exists []. by rewrite app_nil_r.
  - destruct (subscribe_queue_log deps args s "") as (_ & t & Et & _). eauto.
  - unfold done, done_completion.
    match goal with |- context [publish ?b ?r ?s0] =>
      destruct (publish_log b r s0) as (t & Et & _)
    end.
    eauto.
  - destruct (doc_head s !! k) as [e|]; [|exists []; by rewrite app_nil_r].
    unfold onevent.
    match goal with |- context [loadFiles_fn ?l' ?p ?res ?d ?s0] =>
      destruct (loadFiles_fn_log l' p res d s0) as (t & Et & _)
    end.
    eauto.
Qed.

Lemma log_run ops s : ∃ t, log (run ops s) = log s ++ t.
Proof.
  revert s. induction ops as [|o ops IH]; intros s.
  - exists []. by rewrite app_nil_r.
  - simpl. destruct (IH (step o s)) as (t & ->).
    destruct (log_step o s) as (t0 & ->). exists (t0 ++ t). by rewrite app_assoc.
Qed.

Lemma hit_Some h l o e ev :
  hit h l o = Some (e, ev) →
  ∃ k, o = OpFire k ev ∧ h !! k = Some e ∧ el_callbackFn e = l.
Proof.
  destruct o as [| | |k ev']; simpl; try done.
  destruct (h !! k) as [e'|] eqn:He; [|done].
  case_decide; [|done]. intros [= <- <-]. eauto.
Qed.

(** An operation that is not a terminal event of the load leaves the load
    as it is; a terminal event that is not the last one is counted. *)
Lemma tracked_step h l r bundleId args n F o s :
  tracked h l r bundleId args n F s →
  (hit_terminal h l o = true → n - 1 ≠ 0) →
  tracked h l r bundleId args
    (if hit_terminal h l o then n - 1 else n)
    (F ++ match hit_failed_path h l o with Some p => [p] | None => [] end)
    (step o s).
Proof.
  intros [HL HA Hh Hnew Hal Hc] Hn.
  pose proof (lookup_lt_Some _ _ _ HL) as Hlt.
  pose proof (lookup_lt_Some _ _ _ HA) as Hrt.
  destruct (hit h l o) as [[e ev]|] eqn:Hhit.
  - (* an event at an element of the load *)
    destruct (hit_Some _ _ _ _ _ Hhit) as (k & -> & He & Hl).
    unfold hit_terminal, hit_failed_path in *. rewrite Hhit in *.
    assert (He' : doc_head s !! k = Some e).
    { by eapply prefix_lookup_Some. }
    simpl. rewrite He'.
    destruct (terminal (event_result e ev) (defaultPrevented ev)) eqn:Hterm.
    + destruct (onevent_pending l r bundleId args e ev s n F HL HA Hl Hterm)
        as (E1 & E2 & _ & _ & _ & _ & E7 & E8); [by apply Hn|].
      split; rewrite ?E7, ?E8; try done.
      * rewrite E2. by destruct (failing _ _).
      * intros l' L' HL' Hne.
        unfold onevent in HL'. rewrite Hl in HL'.
        destruct (loadFiles_fn_refs l (el_path e) (event_result e ev)
                    (defaultPrevented ev) s) as (_ & R2 & _).
        cbv zeta in R2. rewrite R2 in HL' by done. by eapply Hal.
    + rewrite (onevent_nonterminal _ _ _ Hterm).
      rewrite (nonterminal_not_failing _ _ Hterm), app_nil_r. by split.
  - (* any other operation *)
    unfold hit_terminal, hit_failed_path. rewrite Hhit, app_nil_r.
    destruct o as [paths arg1 arg2|deps args'|id|k ev]; simpl.
    + destruct (loadjs paths arg1 arg2 s) as [s'|] eqn:Hl; [|by split].
      destruct (loadjs_returned _ _ _ _ _ Hl) as (_ & E2 & _ & _ & _ & _ & E7 & E8).
      pose proof (loadjs_loaders _ _ _ _ _ Hl) as EL.
      assert (EA : arrays s' !! r = Some F).
      { revert Hl. unfold loadjs. destruct (bundleId_of arg1).
        - destruct (bundleIdCache_has _ _); [done|]. intros [= <-].
          match goal with |- context [loadFiles ?p ?b ?a ?y ?s0] =>
            destruct (loadFiles_eq p b a y s0) as (_ & _ & _ & _ & _ & F6 & _)
          end.
          simpl in F6. rewrite F6. by rewrite lookup_app_l.
        - intros [= <-].
          match goal with |- context [loadFiles ?p ?b ?a ?y ?s0] =>
            destruct (loadFiles_eq p b a y s0) as (_ & _ & _ & _ & _ & F6 & _)
          end.
          simpl in F6. rewrite F6. by rewrite lookup_app_l. }
      split; rewrite ?E8; try done.
      * rewrite EL. by rewrite lookup_app_l.
      * rewrite E7. by apply prefix_app_r.
      * intros k e. rewrite E7. intros [He|[_ He]]%lookup_app_Some Hk.
        -- by eapply Hnew.
        -- apply list_elem_of_lookup_2, list_elem_of_fmap in He as (p & -> & _).
           unfold new_element. destruct (is_css p); simpl; lia.
      * intros l' L'. rewrite EL. intros [HL'|[_ HL']]%lookup_app_Some Hne.
        -- by eapply Hal.
        -- apply list_lookup_singleton_Some in HL' as [_ <-]. simpl. lia.
    + destruct (subscribe_frame deps args' s) as (_ & _ & E3 & E4 & E5 & _).
      destruct (subscribe_queue_log deps args' s "") as (_ & t & Et & Ht).
      unfold ready. split; rewrite ?E3, ?E4, ?E5; try done.
      rewrite Et. intros d [Hd|Hd]%elem_of_app; [by eapply Hc|by eapply Ht].
    + unfold done, done_completion.
      match goal with |- context [publish ?b ?r0 ?s0] =>
        destruct (publish_frame_any b r0 s0) as (_ & F2 & F3 & F4 & _);
        destruct (publish_log b r0 s0) as (t & Et & Ht)
      end.
      cbv zeta in F2, F3, F4.
      split; rewrite ?F2, ?F3, ?F4; try done.
      * simpl. by rewrite lookup_app_l.
      * rewrite Et.
        intros d [Hd|Hd]%elem_of_app; [by eapply Hc|by eapply Ht].
    + destruct (doc_head s !! k) as [e|] eqn:He; [|by split].
      assert (Hne : el_callbackFn e ≠ l).
      { intros Hl. simpl in Hhit.
        destruct (decide (k < length h)%nat) as [Hk|Hk].
        - destruct (lookup_lt_is_Some_2 h k Hk) as [e' He'].
          pose proof (prefix_lookup_Some _ _ _ _ He' Hh) as He2.
          rewrite He in He2. injection He2 as <-.
          rewrite He' in Hhit. by rewrite decide_True in Hhit.
        - apply (Hnew k e He); [lia|done]. }
      unfold onevent. set (l' := el_callbackFn e) in *.
      destruct (loadFiles_fn_refs l' (el_path e) (event_result e ev)
                  (defaultPrevented ev) s) as (R1 & R2 & R3).
      destruct (loadFiles_fn_frame l' (el_path e) (event_result e ev)
                  (defaultPrevented ev) s) as (_ & G2 & _).
      destruct (loadFiles_fn_log l' (el_path e) (event_result e ev)
                  (defaultPrevented ev) s) as (t & Et & Ht).
      cbv zeta in R1, R2, R3, G2.
      split; rewrite ?G2; try done.
      * rewrite R2 by done. done.
      * rewrite R3; [done|]. intros L' HL'. by eapply Hal.
      * intros l'' L'' HL'' Hne''.
        destruct (R1 _ _ HL'') as (L0 & HL0 & <-). by eapply Hal.
      * rewrite Et. intros d [Hd|Hd]%elem_of_app; [by eapply Hc|].
        apply Hne. by rewrite (Ht _ _ Hd).
Qed.

Lemma nhits_cons h l o ops :
  nhits h l (o :: ops) = ((if hit_terminal h l o then 1 else 0) + nhits h l ops)%nat.
Proof.
  unfold nhits. rewrite filter_cons.
  destruct (hit_terminal h l o); [by rewrite decide_True|by rewrite decide_False].
Qed.

Lemma nhits_app h l ops1 ops2 :
  nhits h l (ops1 ++ ops2) = (nhits h l ops1 + nhits h l ops2)%nat.
Proof. unfold nhits. by rewrite filter_app, length_app. Qed.

Lemma hit_failed_app h l ops1 ops2 :
  hit_failed h l (ops1 ++ ops2) = hit_failed h l ops1 ++ hit_failed h l ops2.
Proof. apply omap_app. Qed.

Lemma tracked_run h l r bundleId args n F ops s :
  tracked h l r bundleId args n F s →
  Z.of_nat (nhits h l ops) < n →
  tracked h l r bundleId args (n - Z.of_nat (nhits h l ops))
    (F ++ hit_failed h l ops) (run ops s).
Proof.
  revert s n F. induction ops as [|o ops IH]; intros s n F Ht Hn.
  - simpl. unfold nhits. simpl. by rewrite Z.sub_0_r, app_nil_r.
  - rewrite nhits_cons in *. simpl.
    pose proof (tracked_step h l r bundleId args n F o s Ht) as Hs.
    unfold hit_failed. simpl. fold (hit_failed h l ops).
    destruct (hit_terminal h l o) eqn:Hterm.
    + assert (Ht' := Hs ltac:(lia)).
      pose proof (IH _ _ _ Ht' ltac:(lia)) as Hr.
      replace (n - Z.of_nat (1 + nhits h l ops)) with (n - 1 - Z.of_nat (nhits h l ops))
        by lia.
      destruct (hit_failed_path h l o); simpl in *; by rewrite <- app_assoc in Hr.
    + assert (Ht' := Hs ltac:(done)).
      pose proof (IH _ _ _ Ht' ltac:(lia)) as Hr.
      assert (Hnone : hit_failed_path h l o = None).
      { unfold hit_terminal, hit_failed_path in *.
        destruct (hit h l o) as [[e ev]|]; [|done].
        by rewrite (nonterminal_not_failing _ _ Hterm). }
      rewrite Hnone in *. simpl in *. by rewrite app_nil_r in Hr.
Qed.

(** The state that [loadjs] returns tracks the new loader. *)
Lemma loadjs_tracked paths arg1 arg2 s s1 :
  wf s → arrays_ok s →
  loadjs paths arg1 arg2 s = Returned s1 →
  tracked (doc_head s1) (length (loaders s)) (length (arrays s))
    (bundleId_of arg1) (args_of arg1 arg2) (Z.of_nat (length (listify paths))) [] s1.
Proof.
  intros Hwf Hok Hl.
  destruct (loadjs_returned _ _ _ _ _ Hl) as (E1 & E2 & _ & _ & _ & _ & E7 & E8).
  pose proof (loadjs_loaders _ _ _ _ _ Hl) as EL.
  split; try done.
  - intros k e He Hk. apply lookup_lt_Some in He. lia.
  - intros l' L'. rewrite EL. intros [HL'|[Hge HL']]%lookup_app_Some Hne.
    + pose proof (Hok _ _ HL'). lia.
    + apply list_lookup_singleton_Some in HL' as [? _]. lia.
  - intros d Hd. rewrite E8 in Hd.
    pose proof (wf_log _ Hwf) as Hlog. rewrite Forall_forall in Hlog.
    specialize (Hlog _ Hd). simpl in Hlog. lia.
Qed.

Lemma load_calls_inv_reachable s : reachable s → load_calls_inv s.
Proof.
  induction 1 as [|o s Hs IH].
  - intros l. simpl. split; [lia|done].
  - apply load_calls_inv_step; [by apply reachable_wf|done].
Qed.

Lemma load_calls_single l d t :
  (length (load_calls l ([LoadCallback l d] ++ t)) ≤ 1)%nat →
  load_calls l ([LoadCallback l d] ++ t) = [d].
Proof.
  simpl. rewrite decide_True by done. simpl.
  destruct (load_calls l t); simpl; [done|lia].
Qed.

(** C3, as the code has it.  Take a load of at least one path, made in any
    reachable state, and any operations after it (calls of the interface
    and events at any element) among which the terminal events at the
    elements of this load are one short of the number of its paths.  So far
    the callback of the load has not been called.  The next terminal event
    at one of its elements makes [loadjs] call its callback, once: it calls
    [args.success()] if no path failed and [args.fail(failedPaths)]
    otherwise (nothing, if the function is absent), and only then
    publishes the bundle: at the time of the call the result cache, the
    queues and the waiters are still those from before.  Whatever follows,
    the callback is not called again.  [args] is the third parameter when
    the second is a bundle id (a non-empty string); otherwise it is the
    second parameter when that is an object, and empty else: a third
    parameter after [undefined] or the empty string is not looked at. *)
Theorem loadjs_callback_before_publish (s s1 : state) (paths : str_or_list)
    (arg1 : jsval) (arg2 : option options) (ops ops' : list op)
    (k : nat) (ev : dom_event) (e : element) :
  reachable s →
  loadjs paths arg1 arg2 s = Returned s1 →
  let l := length (loaders s) in
  let r := length (arrays s) in
  let args := args_of arg1 arg2 in
  let h := doc_head s1 in
  S (nhits h l ops) = length (listify paths) →
  h !! k = Some e →
  el_callbackFn e = l →
  terminal (event_result e ev) (defaultPrevented ev) = true →
  let s2 := run ops s1 in
  let s3 := step (OpFire k ev) s2 in
  let failed := hit_failed h l (ops ++ [OpFire k ev]) in
  load_calls l (log s2) = [] ∧
  (∃ pre,
     s3 = state_of (publish (bundleId_of arg1) r pre) ∧
     log pre = log s2 ++ LoadCallback l failed ::
       match failed with
       | [] => match success args with Some f => [Success f] | None => [] end
       | _ :: _ => match fail args with Some f => [Fail f failed] | None => [] end
       end ∧
     array_at pre r = failed ∧
     bundleResultCache pre = bundleResultCache s2 ∧
     bundleResultCache_proto pre = bundleResultCache_proto s2 ∧
     bundleCallbackQueue pre = bundleCallbackQueue s2 ∧
     waiters pre = waiters s2) ∧
  load_calls l (log (run ops' s3)) = [failed] ∧
  args = match arg1 with
         | Str id => if decide (id = "") then no_options else default no_options arg2
         | Obj o => o
         | Undefined => no_options
         end.
Proof.
  intros Hreach Hl l r args h Hn He Hcb Hterm s2 s3 failed.
  pose proof (reachable_wf _ Hreach) as Hwf.
  pose proof (loadjs_tracked _ _ _ _ _ Hwf (reachable_arrays_ok _ Hreach) Hl) as Ht1.
  fold l r args h in Ht1.
  pose proof (tracked_run h l r (bundleId_of arg1) args _ [] ops s1 Ht1) as Ht2.
  fold s2 in Ht2. simpl in Ht2.
  destruct Ht2 as [HL HA Hh _ _ Hc]; [lia|].
  replace (Z.of_nat (length (listify paths)) - Z.of_nat (nhits h l ops)) with 1 in HL
    by lia.
  assert (Hcalls : load_calls l (log s2) = []) by (by apply load_calls_none).
  assert (He2 : doc_head s2 !! k = Some e) by (by eapply prefix_lookup_Some).
  assert (Hf : failed = hit_failed h l ops ++
                 if failing (event_result e ev) (defaultPrevented ev)
                 then [el_path e] else []).
  { unfold failed. rewrite hit_failed_app. f_equal.
    unfold hit_failed, hit_failed_path. simpl. rewrite He.
    rewrite decide_True by done. by destruct (failing _ _). }
  (* the completing event *)
  set (L := Loader 1 r (bundleId_of arg1) args) in HL.
  set (s2' := resolved l L (el_path e) (event_result e ev) (defaultPrevented ev) s2).
  assert (Ha' : arrays s2' !! r = Some failed).
  { rewrite Hf. unfold s2', resolved, push. cbn. destruct (failing _ _); cbn.
    - by rewrite list_lookup_alter_eq, HA.
    - by rewrite HA, app_nil_r. }
  destruct (resolved_frame l L (el_path e) (event_result e ev) (defaultPrevented ev) s2)
    as (E1 & E2 & E3 & E4 & E5 & E6 & _).
  fold s2' in E1, E2, E3, E4, E5, E6.
  set (pre := success_or_fail args (array_at (emit (LoadCallback l failed) s2') r)
                (emit (LoadCallback l failed) s2')).
  assert (Hs3 : s3 = state_of (publish (bundleId_of arg1) r pre)).
  { unfold s3. simpl. rewrite He2. unfold onevent. rewrite Hcb.
    rewrite (loadFiles_fn_eq _ _ _ _ _ _ HL), Hterm. cbv zeta.
    cbn [L l_numWaiting l_pathsNotFound l_bundleId l_args
         Z.sub Z.add Z.opp Z.pos_sub Z.eqb].
    fold L. fold s2'. unfold loadjs_callback, pre, array_at. by rewrite Ha'. }
  pose proof (resolved_proto l L (el_path e) (event_result e ev)
                (defaultPrevented ev) s2) as E7.
  fold s2' in E7. clearbody s2'.
  assert (Hpre : pre = set_log ((log s2 ++ [LoadCallback l failed]) ++
                         user_events args failed) s2').
  { unfold pre. rewrite success_or_fail_eq. unfold array_at. simpl.
    rewrite Ha'. simpl. by rewrite E6. }
  split; [done|]. split; [|split].
  - exists pre. split; [done|]. rewrite Hpre. simpl. unfold array_at. simpl.
    rewrite Ha', E2, E3, E4, E7. simpl.
    split; [|done]. rewrite <- app_assoc. simpl. unfold user_events.
    by destruct failed.
  - assert (Hr3 : reachable (run ops' s3)).
    { apply reachable_run. unfold s3. constructor. apply reachable_run.
      assert (Hs1 : s1 = step (OpLoad paths arg1 arg2) s) by (simpl; by rewrite Hl).
      rewrite Hs1. by constructor. }
    destruct (load_calls_inv_reachable _ Hr3 l) as [Hle _].
    destruct (log_run ops' s3) as (t' & Et').
    destruct (publish_log (bundleId_of arg1) r pre) as (t & Et & _).
    rewrite <- Hs3 in Et.
    assert (Hlog : log (run ops' s3) =
              log s2 ++ [LoadCallback l failed] ++ (user_events args failed ++ t ++ t')).
    { rewrite Et', Et, Hpre. simpl. by rewrite <- !app_assoc. }
    rewrite Hlog in *. rewrite load_calls_app, Hcalls in *. simpl app at 1.
    simpl app in Hle at 1. by apply load_calls_single.
  - unfold args, args_of, bundleId_of. destruct arg1 as [|id|o]; try done.
    unfold falsy. destruct (decide (id = "")) as [->|Hne]; [done|].
    by rewrite bool_decide_eq_false_2.
Qed.

(** Three paths, the second fails, and a [ready] and a [done] for other
    ids come in between: [fail] is called once, with that path, before the
    (anonymous) publication. *)
Lemma loadjs_callback_before_publish_witness :
  let args := Options None (Some "fail") None in
  let ops := [OpFire 0 ev_load; OpReady (One "x") no_options;
              OpFire 1 ev_error; OpDone "y"] in
  ∃ s1 pre,
    loadjs (Many ["a.js"; "b.js"; "c.js"]) (Obj args) None init = Returned s1 ∧
    step (OpFire 2 ev_load) (run ops s1) = state_of (publish None 0 pre) ∧
    log pre = [LoadCallback 0 ["b.js"]; Fail "fail" ["b.js"]].
Proof.
  intros args ops.
  destruct (loadjs (Many ["a.js"; "b.js"; "c.js"]) (Obj args) None init)
    as [s1|] eqn:Hl; [|done].
  destruct (loadjs_callback_before_publish init s1 (Many ["a.js"; "b.js"; "c.js"])
              (Obj args) None ops [] 2 ev_load (Script "c.js" true 0)
              reachable_init Hl)
    as (_ & (pre & Heq & Hlog & _) & _).
  - injection Hl as <-. reflexivity.
  - injection Hl as <-. reflexivity.
  - reflexivity.
  - reflexivity.
  - exists s1, pre. split; [done|]. split; [exact Heq|].
    rewrite Hlog. injection Hl as <-. reflexivity.
Defined.

(** X4.  In every reachable state the callback that [loadjs] passes to
    [loadFiles] has been called at most once for each load, however many
    events the elements of the load have received, and it has not been
    called while the wait counter of the load is positive. *)
Theorem load_callback_at_most_once (s : state) (l : nat) :
  reachable s →
  (length (load_calls l (log s)) ≤ 1)%nat ∧
  ∀ L, loaders s !! l = Some L → 0 < l_numWaiting L → load_calls l (log s) = [].
Proof.
  intros Hreach. revert l. change (load_calls_inv s).
  induction Hreach as [|o s Hreach IH].
  - intros l. simpl. split; [lia|done].
  - apply load_calls_inv_step; [by apply reachable_wf|done].
Qed.

(** ** The registry in reachable states *)

(** X5.  The result cache holds the array of failed paths of the loader
    itself, not a copy.  When a failing resolution reaches a loader whose
    array is the recorded result of a bundle id and the resolution is not
    the one that brings the counter to zero (so, in particular, any that
    arrives after the bundle was published), the path is appended to the
    recorded result and nothing is called. *)
Theorem late_failure_extends_result (s : state) (l : nat) (L : loader)
    (id path result : string) (dp : bool) (xs : list string) :
  loaders s !! l = Some L →
  bundleResultCache s !! id = Some (l_pathsNotFound L) →
  arrays s !! l_pathsNotFound L = Some xs →
  l_numWaiting L ≠ 1 →
  failing result dp = true →
  let s' := loadFiles_fn l path result dp s in
  result_of s id = Some xs ∧
  result_of s' id = Some (xs ++ [path]) ∧
  log s' = log s.
Proof.
  intros HL Hc Ha Hn Hf. cbv zeta.
  rewrite (loadFiles_fn_eq _ _ _ _ _ _ HL), (failing_terminal _ _ Hf). cbv zeta.
  assert (Hz : (l_numWaiting L - 1 =? 0) = false) by (apply Z.eqb_neq; lia).
  rewrite Hz. unfold result_of, resolved, push. rewrite Hf. simpl.
  rewrite Hc. simpl. rewrite list_lookup_alter_eq, Ha. done.
Qed.

(** X6.  In every reachable state a bundle id that has a result has no
    closure left in its queue: whoever waits in a queue waits for an id
    that has not been published yet. *)
Theorem settled_queue_empty (s : state) (id : string) :
  reachable s →
  settled s id →
  default [] (bundleCallbackQueue s !! id) = [].
Proof.
  intros Hreach Hs. pose proof (reachable_wf _ Hreach) as Hwf.
  destruct (bundleCallbackQueue s !! id) as [q|] eqn:Hq; [|done].
  simpl. by eapply wf_settled_queue.
Qed.

(** X7.  In every reachable state the bundle id of a loader is a non-empty
    string that is recorded in [bundleIdCache], and no two loaders have the
    same bundle id: a bundle id is published by at most one load. *)
Theorem one_loader_per_bundle_id (s : state) (l1 l2 : nat) (L1 L2 : loader)
    (id : string) :
  reachable s →
  loaders s !! l1 = Some L1 →
  loaders s !! l2 = Some L2 →
  l_bundleId L1 = Some id →
  l_bundleId L2 = Some id →
  l1 = l2 ∧ id ≠ "" ∧ is_Some (bundleIdCache s !! id).
Proof.
  intros Hreach H1 H2 Hid1 Hid2. pose proof (reachable_wf _ Hreach) as Hwf.
  split; [by eapply (wf_loader_unique _ Hwf l1 l2 L1 L2 id)|].
  by eapply wf_loader_ids.
Qed.

(** X8.  When the second argument of [loadjs] is [undefined] or the empty
    string, the third argument is not looked at: the load has no bundle id
    and runs with empty options.  Its scripts are asynchronous, and when
    its (at least one) paths have resolved nothing but the internal
    callback is called: no [success], no [fail], no publication. *)
Theorem loadjs_falsy_arg1_drops_options (s s1 : state) (paths : str_or_list)
    (arg1 : jsval) (arg2 : option options) (evs : list (nat * dom_event)) :
  arg1 = Undefined ∨ arg1 = Str "" →
  loadjs paths arg1 arg2 s = Returned s1 →
  let l := length (loaders s) in
  Forall (targets (doc_head s1) l) evs →
  listify paths ≠ [] →
  nterminal (doc_head s1) evs = length (listify paths) →
  let s' := run (fires evs) s1 in
  loaders s1 !! l =
    Some (Loader (Z.of_nat (length (listify paths))) (length (arrays s)) None no_options) ∧
  doc_head s1 = doc_head s ++ map (new_element l None) (listify paths) ∧
  log s' = log s ++ [LoadCallback l (failed_paths (doc_head s1) evs)] ∧
  bundleIdCache s' = bundleIdCache s ∧
  bundleResultCache s' = bundleResultCache s ∧
  bundleCallbackQueue s' = bundleCallbackQueue s.
Proof.
  intros Harg Hl l Ht Hne Hc s'.
  assert (Hb : bundleId_of arg1 = None ∧ args_of arg1 arg2 = no_options).
  { destruct Harg as [-> | ->]; done. }
  destruct Hb as [Hb Hargs].
  destruct (loadjs_returned _ _ _ _ _ Hl) as (E1 & E2 & E3 & E4 & E5 & _ & E7 & E8).
  rewrite Hb, Hargs in *. simpl in E7.
  destruct (run_fires_complete _ _ _ _ evs s1 _ _ E1 E2 Ht)
    as (s2 & Heq & Ha & F1 & F2 & F3 & F4 & F5 & F6); [lia| |].
  { destruct (listify paths); [done|]. simpl. lia. }
  cbv zeta in *. simpl in Heq, Ha.
  unfold loadjs_callback, publish in Heq.
  rewrite success_or_fail_eq in Heq.
  assert (Hu : ∀ xs, user_events no_options xs = []).
  { intros xs. unfold user_events. by destruct (length xs). }
  rewrite Hu in Heq. simpl in Heq. rewrite app_nil_r in Heq.
  split; [done|]. split; [done|].
  unfold s'. rewrite Heq. simpl. by rewrite F1, F2, F3, F6, E3, E4, E5, E8.
Qed.

(** ** [ready] *)

Lemma subscribe_body_settled w bundleId r s :
  bundleResultCache s !! bundleId = Some r →
  subscribe_body w bundleId s = subscribe_fn w bundleId (VArray r) s.
Proof. intros Hr. by rewrite subscribe_body_eq, (get_own _ _ _ Hr). Qed.

Lemma subscribe_settled_pending w cb L s N D :
  waiters s !! w = Some (Waiter N D cb) →
  (∀ id, id ∈ L → settled s id) →
  Z.of_nat (length L) < N →
  let s' := foldl (λ s' bundleId, subscribe_body w bundleId s') s L in
  waiters s' !! w =
    Some (Waiter (N - Z.of_nat (length L))
            (D ++ filter (λ id, failed_in s id = true) L) cb) ∧
  log s' = log s ∧
  bundleCallbackQueue s' = bundleCallbackQueue s ∧
  bundleResultCache s' = bundleResultCache s ∧
  arrays s' = arrays s.
Proof.
  revert s N D. induction L as [|x L IH]; intros s N D HW Hall Hlen.
  - simpl. rewrite Z.sub_0_r, app_nil_r. done.
  - simpl in *. destruct (Hall x) as [r Hr]; [by left|].
    assert (Hb : subscribe_body w x s = subscribe_fn w x (VArray r) s).
    { by apply subscribe_body_settled. }
    pose proof (subscribe_fn_eq w x (VArray r) s _ HW) as Heq. cbv zeta in Heq.
    change (has_length s (VArray r)) with (nonempty (array_at s r)) in Heq.
    set (W' := fn_waiter (nonempty (array_at s r)) x (Waiter N D cb)) in *.
    assert (Hev : fn_events w W' = []).
    { unfold fn_events, W', fn_waiter. simpl.
      destruct (Z.eqb_spec (N - 1) 0); [lia|done]. }
    rewrite Hev, app_nil_r in Heq.
    assert (E : waiters (subscribe_body w x s) !! w =
                  Some (Waiter (N - 1) (w_depsNotFound W') cb) ∧
                log (subscribe_body w x s) = log s ∧
                bundleCallbackQueue (subscribe_body w x s) = bundleCallbackQueue s ∧
                bundleResultCache (subscribe_body w x s) = bundleResultCache s ∧
                arrays (subscribe_body w x s) = arrays s).
    { rewrite Hb, Heq. simpl.
      rewrite list_lookup_insert_eq by (by eapply lookup_lt_Some). done. }
    destruct E as (E1 & E2 & E3 & E4 & E5). clear Hb Heq.
    set (s1 := subscribe_body w x s) in *. clearbody s1.
    destruct (IH s1 _ _ E1) as (F1 & F2 & F3 & F4 & F5).
    { intros id Hin. unfold settled. rewrite E4. apply Hall. by right. }
    { lia. }
    cbv zeta in *. rewrite F1, F2, F3, F4, F5, E2, E3, E4, E5.
    repeat split; try done. f_equal.
    assert (Hfx : failed_in s x = nonempty (array_at s r)).
    { unfold failed_in. by rewrite Hr. }
    assert (Hfl : filter (λ id, failed_in s1 id = true) L =
                  filter (λ id, failed_in s id = true) L).
    { apply list_filter_iff. intros id. by rewrite (failed_in_ext s s1). }
    rewrite Hfl, filter_cons, Hfx. unfold W', fn_waiter. simpl.
    f_equal; [lia|].
    destruct (nonempty (array_at s r)).
    + rewrite decide_True by done. by rewrite <- app_assoc.
    + rewrite decide_False by done. done.
Qed.

Lemma ready_settled_state (s : state) (deps : str_or_list)
    (args : options) :
  listify deps ≠ [] →
  (∀ id, id ∈ listify deps → settled s id) →
  let depsNotFound :=
    filter (λ id, failed_in s id = true) (reverse (listify deps)) in
  let s' := ready deps args s in
  log s' = log s ++ CallbackFn (length (waiters s)) depsNotFound ::
    match depsNotFound with
    | [] => match success args with Some f => [Success f] | None => [] end
    | _ :: _ => match fail args with Some f => [Fail f depsNotFound] | None => [] end
    end ∧
  bundleCallbackQueue s' = bundleCallbackQueue s.
Proof.
  intros Hne Hall. cbv zeta. unfold ready. rewrite subscribe_eq.
  set (w := length (waiters s)). set (ids := listify deps) in *.
  set (s0 := set_waiters _ s).
  assert (HW0 : waiters s0 !! w = Some (Waiter (Z.of_nat (length ids)) [] args)).
  { unfold s0. simpl. by rewrite list_lookup_middle. }
  destruct (reverse ids) as [|x L] eqn:Hrev using rev_ind.
  { apply (f_equal reverse) in Hrev. rewrite reverse_involutive in Hrev. done. }
  clear IHL. rewrite foldl_app. simpl.
  assert (Hlen : length ids = S (length L)).
  { rewrite <- (length_reverse ids), Hrev, length_app. simpl. lia. }
  assert (Hall' : ∀ id, id ∈ L ++ [x] → settled s0 id).
  { intros id Hin. rewrite <- Hrev, elem_of_reverse in Hin. by apply Hall. }
  destruct (subscribe_settled_pending w args L s0 _ _ HW0) as (F1 & F2 & F3 & F4 & F5).
  { intros id Hin. apply Hall'. apply elem_of_app. by left. }
  { lia. }
  cbv zeta in *. set (s1 := foldl _ s0 L) in *. clearbody s1.
  destruct (Hall' x) as [r Hr]; [apply elem_of_app; right; by left|].
  rewrite (subscribe_body_settled _ _ r) by (by rewrite F4).
  rewrite (subscribe_fn_eq _ _ _ _ _ F1). simpl.
  rewrite F2, F3. simpl. split; [|done]. f_equal.
  unfold fn_events, fn_waiter. simpl.
  replace (Z.of_nat (length ids) - Z.of_nat (length L) - 1 =? 0) with true
    by (symmetry; apply Z.eqb_eq; lia).
  assert (HD : (if nonempty (array_at s1 r)
                then filter (λ id, failed_in s0 id = true) L ++ [x]
                else filter (λ id, failed_in s0 id = true) L) =
               filter (λ id, failed_in s id = true) (L ++ [x])).
  { rewrite filter_app, filter_cons. simpl.
    assert (Hfx : failed_in s x = nonempty (array_at s1 r)).
    { change (bundleResultCache s0) with (bundleResultCache s) in Hr.
      unfold failed_in, array_at. by rewrite Hr, F5. }
    rewrite Hfx. destruct (nonempty (array_at s1 r)).
    - rewrite decide_True by done. done.
    - rewrite decide_False by done. by rewrite app_nil_r. }
  rewrite HD. f_equal. unfold user_events.
  by destruct (filter (λ id, failed_in s id = true) (L ++ [x])).
Qed.

(** X9.  [ready] for ids that all have a result already (at least one id)
    calls back before it returns: its callback is called once, with the
    requested ids whose recorded result is non-empty, taken from the last
    requested id to the first, and then [success] or [fail]; no closure is
    queued. *)
Theorem ready_settled_calls_at_once (s : state) (deps : str_or_list)
    (args : options) :
  listify deps ≠ [] →
  (∀ id, id ∈ listify deps → settled s id) →
  let depsNotFound :=
    filter (λ id, failed_in s id = true) (reverse (listify deps)) in
  let s' := ready deps args s in
  log s' = log s ++ CallbackFn (length (waiters s)) depsNotFound ::
    match depsNotFound with
    | [] => match success args with Some f => [Success f] | None => [] end
    | _ :: _ => match fail args with Some f => [Fail f depsNotFound] | None => [] end
    end ∧
  bundleCallbackQueue s' = bundleCallbackQueue s.
Proof. apply ready_settled_state. Qed.

(** X10.  [done] for a bundle id that has a result already, in a reachable
    state, calls nobody: the log and the waiters stay as they are; only the
    recorded result becomes the empty list. *)
Theorem done_settled_calls_nobody (s : state) (id : string) :
  reachable s →
  id ≠ "" →
  settled s id →
  log (done id s) = log s ∧
  waiters (done id s) = waiters s ∧
  bundleCallbackQueue (done id s) = bundleCallbackQueue s ∧
  result_of (done id s) id = Some [].
Proof.
  intros Hreach Hne Hs. pose proof (reachable_wf _ Hreach) as Hwf.
  assert (Hq : bundleCallbackQueue s !! id = None ∨ bundleCallbackQueue s !! id = Some []).
  { destruct (bundleCallbackQueue s !! id) as [q|] eqn:Hq; [|by left].
    right. f_equal. by eapply wf_settled_queue. }
  assert (Heq : done id s =
            bundleResultCache_put id (length (arrays s))
              (set_arrays (arrays s ++ [[]]) s)).
  { unfold done, done_completion. rewrite publish_eq by done. cbv zeta.
    change (bundleCallbackQueue (set_arrays ?a s)) with (bundleCallbackQueue s).
    by destruct Hq as [-> | ->]. }
  destruct (put_frame id (length (arrays s)) (set_arrays (arrays s ++ [[]]) s))
    as (_ & P2 & _ & P4 & _ & _ & P7).
  rewrite <- Heq in P2, P4, P7.
  split; [done|]. split; [done|]. split; [done|].
  unfold result_of. destruct (done_result id s Hne) as (_ & E2 & _).
  rewrite done_result_own by (by auto). simpl.
  rewrite E2. by rewrite list_lookup_middle.
Qed.

(** X11.  [ready] only registers: whatever its arguments and the state, it
    leaves [bundleIdCache], the recorded results, the loaders and the
    elements of [document.head] as they are, creates exactly one waiter,
    removes no queued closure and never calls the callback of a load. *)
Theorem ready_only_registers (s : state) (deps : str_or_list) (args : options)
    (id : string) :
  let s' := ready deps args s in
  bundleIdCache s' = bundleIdCache s ∧
  bundleResultCache s' = bundleResultCache s ∧
  arrays s' = arrays s ∧
  loaders s' = loaders s ∧
  doc_head s' = doc_head s ∧
  length (waiters s') = S (length (waiters s)) ∧
  default [] (bundleCallbackQueue s !! id) `prefix_of`
    default [] (bundleCallbackQueue s' !! id) ∧
  ∃ t, log s' = log s ++ t ∧ ∀ l d, LoadCallback l d ∉ t.
Proof.
  cbv zeta. unfold ready.
  destruct (subscribe_frame deps args s) as (E1 & E2 & E3 & E4 & E5 & E6).
  destruct (subscribe_queue_log deps args s id) as (Hp & Hl).
  done.
Qed.

Lemma occ_reverse {A} `{EqDecision A} (x : A) l : occ x (reverse l) = occ x l.
Proof. unfold occ. by rewrite filter_reverse, length_reverse. Qed.

Lemma subscribe_loop_silent w cb L s N D :
  waiters s !! w = Some (Waiter N D cb) →
  Z.of_nat (length (filter (λ id, truthy (bundleResultCache_get s id) = true) L)) < N →
  let s' := foldl (λ s' bundleId, subscribe_body w bundleId s') s L in
  log s' = log s ∧
  bundleResultCache s' = bundleResultCache s ∧
  (∀ id, default [] (bundleCallbackQueue s' !! id) =
         default [] (bundleCallbackQueue s !! id) ++
         if truthy (bundleResultCache_get s id) then [] else replicate (occ id L) w) ∧
  ∃ D', waiters s' !! w =
          Some (Waiter (N - Z.of_nat (length (filter
                  (λ id, truthy (bundleResultCache_get s id) = true) L))) D' cb).
Proof.
  revert s N D. induction L as [|x L IH]; intros s N D HW Hlen.
  - simpl. split; [done|]. split; [done|]. split.
    + intros id. unfold occ. simpl. destruct (truthy _); by rewrite app_nil_r.
    + exists D. simpl. by rewrite Z.sub_0_r.
  - rewrite filter_cons in Hlen |- *. simpl. rewrite subscribe_body_eq.
    destruct (truthy (bundleResultCache_get s x)) eqn:Hs.
    + rewrite decide_True in Hlen |- * by done. simpl in Hlen.
      set (r := bundleResultCache_get s x) in *.
      pose proof (subscribe_fn_eq w x r s _ HW) as Heq. cbv zeta in Heq.
      set (W' := fn_waiter (has_length s r) x (Waiter N D cb)) in *.
      assert (Hev : fn_events w W' = []).
      { unfold fn_events, W', fn_waiter. simpl.
        destruct (Z.eqb_spec (N - 1) 0); [lia|done]. }
      rewrite Hev, app_nil_r in Heq.
      assert (E : waiters (subscribe_fn w x r s) !! w =
                    Some (Waiter (N - 1) (w_depsNotFound W') cb) ∧
                  log (subscribe_fn w x r s) = log s ∧
                  bundleCallbackQueue (subscribe_fn w x r s) = bundleCallbackQueue s ∧
                  bundleResultCache (subscribe_fn w x r s) = bundleResultCache s ∧
                  bundleResultCache_proto (subscribe_fn w x r s) =
                    bundleResultCache_proto s ∧
                  arrays (subscribe_fn w x r s) = arrays s).
      { rewrite Heq. simpl.
        rewrite list_lookup_insert_eq by (by eapply lookup_lt_Some). done. }
      destruct E as (E1 & E2 & E3 & E4 & E5 & E6). clear Heq.
      set (s1 := subscribe_fn w x r s) in *. clearbody s1.
      assert (Hget : ∀ id, bundleResultCache_get s1 id = bundleResultCache_get s id).
      { intros id. by apply get_ext. }
      assert (Hn : filter (λ id, truthy (bundleResultCache_get s1 id) = true) L =
                   filter (λ id, truthy (bundleResultCache_get s id) = true) L).
      { apply list_filter_iff. intros id. by rewrite Hget. }
      destruct (IH s1 _ _ E1) as (F1 & F2 & F3 & D' & F4); [rewrite Hn; lia|].
      cbv zeta in *. rewrite F1, F2, E2, E4. split; [done|]. split; [done|]. split.
      * intros id. rewrite F3, E3, Hget. f_equal.
        destruct (truthy (bundleResultCache_get s id)) eqn:Hi; [done|].
        rewrite occ_cons, decide_False; [done|]. intros ->.
        unfold r in Hs. congruence.
      * exists D'. rewrite F4, Hn. do 2 f_equal. simpl. lia.
    + rewrite decide_False in Hlen |- * by done.
      set (s1 := set_bundleCallbackQueue _ s).
      assert (E : waiters s1 = waiters s ∧ log s1 = log s ∧
                  bundleResultCache s1 = bundleResultCache s ∧
                  bundleCallbackQueue s1 =
                    <[x := default [] (bundleCallbackQueue s !! x) ++ [w]]>
                      (bundleCallbackQueue s)) by done.
      destruct E as (E1 & E2 & E4 & E3).
      assert (Hget : ∀ id, bundleResultCache_get s1 id = bundleResultCache_get s id)
        by done.
      clearbody s1.
      assert (Hn : filter (λ id, truthy (bundleResultCache_get s1 id) = true) L =
                   filter (λ id, truthy (bundleResultCache_get s id) = true) L).
      { apply list_filter_iff. intros id. by rewrite Hget. }
      rewrite <- E1 in HW.
      destruct (IH s1 _ _ HW) as (F1 & F2 & F3 & D' & F4); [rewrite Hn; lia|].
      cbv zeta in *. rewrite F1, F2, E2, E4. split; [done|]. split; [done|]. split.
      * intros id. rewrite F3, E3, Hget.
        destruct (truthy (bundleResultCache_get s id)) eqn:Hi.
        -- rewrite lookup_insert_ne; [done|]. intros ->. congruence.
        -- rewrite occ_cons. destruct (decide (x = id)) as [->|Hne].
           ++ rewrite lookup_insert_eq. simpl. by rewrite <- app_assoc.
           ++ by rewrite lookup_insert_ne.
      * exists D'. by rewrite F4, Hn.
Qed.

(** X13.  [ready] for ids of which at least one has a falsy lookup in
    [bundleResultCache] (no result of its own and no inherited member of
    that name) calls nothing before it returns.  It appends its closure to
    the queue of each requested id whose lookup is falsy, once for every
    time the id was requested, and leaves the queues of the other ids as
    they are. *)
Theorem ready_pending_is_silent (s : state) (deps : str_or_list)
    (args : options) (id : string) :
  (∃ id', id' ∈ listify deps ∧ truthy (bundleResultCache_get s id') = false) →
  let s' := ready deps args s in
  log s' = log s ∧
  default [] (bundleCallbackQueue s' !! id) =
    default [] (bundleCallbackQueue s !! id) ++
    if truthy (bundleResultCache_get s id) then []
    else replicate (occ id (listify deps)) (length (waiters s)).
Proof.
  intros (id' & Hin & Hid'). cbv zeta. unfold ready. rewrite subscribe_eq.
  set (w := length (waiters s)). set (ids := listify deps) in *.
  set (s0 := set_waiters _ s).
  assert (HW0 : waiters s0 !! w = Some (Waiter (Z.of_nat (length ids)) [] args)).
  { unfold s0. simpl. by rewrite list_lookup_middle. }
  assert (Hget : ∀ k, bundleResultCache_get s0 k = bundleResultCache_get s k) by done.
  destruct (subscribe_loop_silent w args (reverse ids) s0 _ _ HW0)
    as (F1 & _ & F3 & _).
  - rewrite filter_reverse, length_reverse.
    assert (Hid0 : ¬ truthy (bundleResultCache_get s0 id') = true).
    { rewrite Hget, Hid'. done. }
    pose proof (length_filter_lt
                  (λ id, truthy (bundleResultCache_get s0 id) = true) ids id' Hin Hid0).
    lia.
  - cbv zeta in *. rewrite F1, F3, occ_reverse, Hget. done.
Qed.

(** X14.  A load with a bundle id whose (at least one) paths have resolved
    records the paths that failed as the result of the id, and a [ready]
    for the id that comes afterwards calls back at once: with the id as the
    one failed dependency and then [fail], if a path failed; with no failed
    dependency and then [success], if none did.  No element is appended
    for such a [ready]. *)
Theorem load_then_ready (s s1 : state) (paths : str_or_list) (id : string)
    (arg2 : option options) (evs : list (nat * dom_event)) (args : options) :
  id ≠ "" →
  loadjs paths (Str id) arg2 s = Returned s1 →
  Forall (targets (doc_head s1) (length (loaders s))) evs →
  listify paths ≠ [] →
  nterminal (doc_head s1) evs = length (listify paths) →
  let failed := failed_paths (doc_head s1) evs in
  let s' := run (fires evs) s1 in
  let depsNotFound := match failed with [] => [] | _ :: _ => [id] end in
  result_of s' id = Some failed ∧
  log (ready (One id) args s') =
    log s' ++ CallbackFn (length (waiters s')) depsNotFound ::
      match failed with
      | [] => match success args with Some f => [Success f] | None => [] end
      | _ :: _ => match fail args with Some f => [Fail f [id]] | None => [] end
      end ∧
  doc_head (ready (One id) args s') = doc_head s'.
Proof.
  intros Hne Hl Ht Hp Hc failed s' depsNotFound.
  assert (Hb : bundleId_of (Str id) = Some id).
  { simpl. by rewrite bool_decide_eq_false_2. }
  destruct (loadjs_returned _ _ _ _ _ Hl) as (E1 & E2 & _).
  rewrite Hb in E1.
  destruct (run_fires_complete _ _ _ _ evs s1 _ _ E1 E2 Ht)
    as (s2 & Heq & Ha & _); [lia| |].
  { destruct (listify paths); [done|]. simpl. lia. }
  cbv zeta in Heq, Ha.
  change ([] ++ failed_paths (doc_head s1) evs) with failed in Heq, Ha.
  fold s' in Heq. unfold loadjs_callback in Heq.
  set (pre := success_or_fail _ _ _) in Heq.
  assert (Hpa : arrays pre = arrays s2).
  { unfold pre. by rewrite success_or_fail_eq. }
  pose proof (publish_frame id (length (arrays s)) pre) as Hpf.
  cbv zeta in Hpf. rewrite <- Heq in Hpf.
  destruct (Hpf Hne) as (_ & F2 & _ & _ & F5 & _). clear Hpf.
  assert (Hacc : assoc id object_prototype ≠ Some ProtoAccessor).
  { assert (Hhas : bundleIdCache_has s id = false).
    { revert Hl. unfold loadjs. rewrite Hb. by destruct (bundleIdCache_has s id). }
    apply has_false in Hhas as [_ ->]. done. }
  assert (Hr : bundleResultCache s' !! id = Some (length (arrays s))).
  { rewrite F2, (put_insert _ _ _ Hacc). simpl. by rewrite lookup_insert_eq. }
  assert (Har : arrays s' !! length (arrays s) = Some failed).
  { by rewrite F5, Hpa. }
  assert (Hf : failed_in s' id = nonempty failed).
  { unfold failed_in, array_at. by rewrite Hr, Har. }
  split; [|split].
  - unfold result_of. by rewrite Hr.
  - destruct (ready_settled_state s' (One id) args) as [Hlog _]; [done| |].
    { intros id' Hin. apply list_elem_of_singleton in Hin as ->.
      unfold settled. rewrite Hr. eauto. }
    cbv zeta in Hlog. rewrite Hlog.
    change (reverse (listify (One id))) with [id].
    rewrite filter_cons, Hf. unfold depsNotFound. by destruct failed.
  - unfold ready. apply subscribe_frame.
Qed.

(** * Instances of the further properties *)

Lemma loadjs_dispatches_each_path_witness :
  let s1 := loadFiles (Many ["a.css"; "b.js"]) None no_options None init in
  ∃ new, doc_head s1 = [] ++ new ∧ map el_path new = ["a.css"; "b.js"].
Proof.
  intros s1.
  destruct (loadjs_dispatches_each_path init s1 (Many ["a.css"; "b.js"]) Undefined None
              eq_refl) as (new & H1 & H2 & _).
  exists new. split; [exact H1|exact H2].
Defined.

(** A script that loads and then still reports an error: one call. *)
Lemma load_callback_at_most_once_witness :
  let s := run [OpLoad (One "a.js") Undefined None;
                OpFire 0 ev_load; OpFire 0 ev_error] init in
  (length (load_calls 0 (log s)) ≤ 1)%nat.
Proof.
  intros s.
  destruct (load_callback_at_most_once s 0 (reachable_run _ _ reachable_init))
    as [H _].
  exact H.
Defined.

(** Bundle "b1" is published without a failure; a later error event at its
    element puts the path into the recorded result. *)
Lemma late_failure_extends_result_witness :
  let s := run [OpLoad (One "a.js") (Str "b1") None; OpFire 0 ev_load] init in
  result_of s "b1" = Some [] ∧
  result_of (loadFiles_fn 0 "a.js" "e" false s) "b1" = Some ["a.js"].
Proof.
  intros s.
  destruct (late_failure_extends_result s 0 (Loader 0 0 (Some "b1") no_options)
              "b1" "a.js" "e" false [])
    as (H1 & H2 & _); try done.
Defined.

Lemma settled_queue_empty_witness :
  default [] (bundleCallbackQueue failed_bundle !! "b1") = [].
Proof.
  apply settled_queue_empty.
  - apply reachable_run, reachable_init.
  - unfold settled. vm_compute. eauto.
Defined.

Lemma one_loader_per_bundle_id_witness :
  "b1" ≠ "" ∧ is_Some (bundleIdCache failed_bundle !! "b1").
Proof.
  destruct (one_loader_per_bundle_id failed_bundle 0 0
              (Loader 0 0 (Some "b1") no_options) (Loader 0 0 (Some "b1") no_options)
              "b1" (reachable_run _ _ reachable_init))
    as (_ & H); try done.
Defined.

(** [loadjs("a.js", "", {success})]: [success] is not called. *)
Lemma loadjs_falsy_arg1_drops_options_witness :
  let s1 := loadFiles (One "a.js") None no_options None init in
  log (run (fires [(0%nat, ev_load)]) s1) = [LoadCallback 0 []].
Proof.
  intros s1.
  destruct (loadjs_falsy_arg1_drops_options init s1 (One "a.js") (Str "")
              (Some (Options (Some "ok") None None)) [(0%nat, ev_load)])
    as (_ & _ & H & _).
  - by right.
  - reflexivity.
  - repeat constructor; eexists; split; reflexivity.
  - done.
  - reflexivity.
  - exact H.
Defined.

Lemma ready_settled_calls_at_once_witness :
  log (ready (One "b1") (Options None (Some "ko") None) failed_bundle) =
    log failed_bundle ++ [CallbackFn 0 ["b1"]; Fail "ko" ["b1"]].
Proof.
  destruct (ready_settled_calls_at_once failed_bundle (One "b1")
              (Options None (Some "ko") None)) as [H _].
  - done.
  - intros id Hin. apply list_elem_of_singleton in Hin as ->.
    unfold settled. vm_compute. eauto.
  - exact H.
Defined.

Lemma done_settled_calls_nobody_witness :
  log (done "b1" failed_bundle) = log failed_bundle ∧
  result_of (done "b1" failed_bundle) "b1" = Some [].
Proof.
  destruct (done_settled_calls_nobody failed_bundle "b1")
    as (H1 & _ & _ & H4).
  - apply reachable_run, reachable_init.
  - done.
  - unfold settled. vm_compute. eauto.
  - split; [exact H1|exact H4].
Defined.

Lemma ready_pending_is_silent_witness :
  log (ready (Many ["b1"; "zz"]) no_options failed_bundle) = log failed_bundle ∧
  default [] (bundleCallbackQueue (ready (Many ["b1"; "zz"]) no_options failed_bundle)
                !! "zz") = [0%nat].
Proof.
  destruct (ready_pending_is_silent failed_bundle (Many ["b1"; "zz"]) no_options "zz")
    as [H1 H2].
  - exists "zz". split; [set_solver|]. reflexivity.
  - split; [exact H1|]. rewrite H2. reflexivity.
Defined.

Lemma load_then_ready_witness :
  let s1 := loadFiles (One "a.js") (Some "b1") no_options None
              (set_bundleIdCache (<["b1" := true]> ∅) init) in
  let s' := run (fires [(0%nat, ev_error)]) s1 in
  result_of s' "b1" = Some ["a.js"] ∧
  log (ready (One "b1") (Options None (Some "ko") None) s') =
    log s' ++ [CallbackFn 0 ["b1"]; Fail "ko" ["b1"]].
Proof.
  intros s1 s'.
  destruct (load_then_ready init s1 (One "a.js") "b1" None [(0%nat, ev_error)]
              (Options None (Some "ko") None))
    as (H1 & H2 & _).
  - done.
  - reflexivity.
  - repeat constructor; eexists; split; reflexivity.
  - done.
  - reflexivity.
  - split; [exact H1|exact H2].
Defined.
